(** * Echoes patching library: PAK and STRG codecs

    A shallow embedding of [pak.py] and [strg.py].  Python values are
    modelled directly: [int] as [Z], [bytes] as [list byte], [str] as a
    list of code points, tuples and lists as [list], dictionaries as
    [gmap], exceptions through the [result] monad. *)

From Stdlib Require Import ZArith Lia Bool.
From Stdlib Require Import Strings.Byte Strings.Ascii Strings.String.
From stdpp Require Import base list gmap sorting.

Local Open Scope Z_scope.

(** ** Exceptions *)

Inductive exn :=
| TypeError
| KeyError
| IndexError
| AttributeError
| StructError
| ValueError
| UnicodeError.

Inductive result (A : Type) :=
| Ok (a : A)
| Raise (e : exn).

Arguments Ok {A} a.
Arguments Raise {A} e.

Definition bind {A B} (m : result A) (k : A -> result B) : result B :=
  match m with
  | Ok a => k a
  | Raise e => Raise e
  end.

Notation "'let*' x ':=' m 'in' k" := (bind m (fun x => k))
  (at level 10, x name, m at level 100, k at level 200).
Notation "'let*' ' p ':=' m 'in' k" := (bind m (fun x => match x with p => k end))
  (at level 10, p pattern, m at level 100, k at level 200).

(** [ [f(x) for x in l] ], stopping at the first exception. *)
Fixpoint traverse {A B} (f : A -> result B) (l : list A) : result (list B) :=
  match l with
  | [] => Ok []
  | x :: l' => let* y := f x in let* ys := traverse f l' in Ok (y :: ys)
  end.

Definition sumZ (l : list Z) : Z := foldr Z.add 0 l.

(** ** Python sequences: [len], indexing and slicing *)

Definition len {A} (l : list A) : Z := Z.of_nat (length l).

(** A slice bound: negative bounds count from the end, and every bound is
    clamped to the sequence. *)
Definition clamp (n i : Z) : Z :=
  if i <? 0 then Z.max 0 (i + n) else Z.min i n.

(** [l[lo:]] *)
Definition slice_from {A} (l : list A) (lo : Z) : list A :=
  drop (Z.to_nat (clamp (len l) lo)) l.

(** [l[:hi]] *)
Definition slice_to {A} (l : list A) (hi : Z) : list A :=
  take (Z.to_nat (clamp (len l) hi)) l.

(** [l[lo:hi]] *)
Definition slice {A} (l : list A) (lo hi : Z) : list A :=
  let lo' := clamp (len l) lo in
  let hi' := clamp (len l) hi in
  take (Z.to_nat (hi' - lo')) (drop (Z.to_nat lo') l).

(** [l[i]], raising [IndexError] out of range. *)
Definition getitem {A} (l : list A) (i : Z) : result A :=
  let j := if i <? 0 then i + len l else i in
  if (0 <=? j) && (j <? len l) then
    match l !! Z.to_nat j with
    | Some x => Ok x
    | None => Raise IndexError
    end
  else Raise IndexError.

(** [d[k]] on a dictionary, raising [KeyError]. *)
Definition dict_getitem `{Countable K} {V} (d : gmap K V) (k : K) : result V :=
  match d !! k with
  | Some v => Ok v
  | None => Raise KeyError
  end.

(** The dictionary built by
    [for index, x in enumerate(xs): d[key(x)] = index]. *)
Definition index_map `{Countable K} {A} (key : A -> K) (xs : list A) : gmap K Z :=
  fold_left (fun d '(i, x) => <[key x := Z.of_nat i]> d) (imap pair xs) ∅.

(** ** Bytes *)

Definition bytes := list byte.

Definition byte_of_Z (v : Z) : byte :=
  default x00 (Byte.of_N (Z.to_N (v mod 256))).

Definition Z_of_byte (b : byte) : Z := Z.of_N (Byte.to_N b).

(** [sub in b] starting at position 0 of [b]. *)
Fixpoint starts_with (sub b : bytes) : bool :=
  match sub, b with
  | [], _ => true
  | _ :: _, [] => false
  | x :: sub', y :: b' => Byte.eqb x y && starts_with sub' b'
  end.

(** [b.index(sub)]: the lowest position at which [sub] occurs,
    [ValueError] when it does not occur. *)
Fixpoint bytes_index (sub b : bytes) : result Z :=
  if starts_with sub b then Ok 0
  else match b with
       | [] => Raise ValueError
       | _ :: b' => let* i := bytes_index sub b' in Ok (i + 1)
       end.

(** ** [str]: sequences of code points, and the two codecs in use *)

Definition str := list Z.

(** A literal of the source, as code points. *)
Definition lit (s : string) : str :=
  map (fun a => Z.of_N (N_of_ascii a)) (list_ascii_of_string s).

(** [s.encode("ascii")] *)
Definition encode_ascii (s : str) : result bytes :=
  traverse (fun c => if (0 <=? c) && (c <? 128) then Ok (byte_of_Z c)
                     else Raise UnicodeError) s.

(** [b.decode("ascii")] *)
Definition decode_ascii (b : bytes) : result str :=
  traverse (fun x => if Z_of_byte x <? 128 then Ok (Z_of_byte x)
                     else Raise UnicodeError) b.

(** The UTF-16 code units of one code point; surrogates cannot be encoded. *)
Definition utf16_units (c : Z) : result (list Z) :=
  if (0 <=? c) && (c <? 55296) then Ok [c]
  else if (57344 <=? c) && (c <? 65536) then Ok [c]
  else if (65536 <=? c) && (c <? 1114112) then
    Ok [55296 + (c - 65536) / 1024; 56320 + (c - 65536) mod 1024]
  else Raise UnicodeError.

(** A UTF-16 code unit is an unsigned 16-bit value. *)
Definition unit_ok (u : Z) : Prop := 0 <= u < 65536.

Definition unit_bytes (u : Z) : bytes := [byte_of_Z (u / 256); byte_of_Z u].

(** [s.encode("utf-16_be")] *)
Definition encode_utf16_be (s : str) : result bytes :=
  let* us := traverse utf16_units s in Ok (concat (map unit_bytes (concat us))).

(** Big-endian code units of a byte string; an odd length is truncated
    data. *)
Fixpoint units_of_bytes (b : bytes) : result (list Z) :=
  match b with
  | [] => Ok []
  | [_] => Raise UnicodeError
  | hi :: lo :: b' =>
      let* us := units_of_bytes b' in Ok ((Z_of_byte hi * 256 + Z_of_byte lo) :: us)
  end.

(** Code points of a sequence of code units: a high surrogate must be
    followed by a low one, and a low surrogate may not stand alone. *)
Definition is_high_surrogate (u : Z) : bool := (55296 <=? u) && (u <? 56320).
Definition is_low_surrogate (u : Z) : bool := (56320 <=? u) && (u <? 57344).

Fixpoint points_of_units (us : list Z) : result str :=
  match us with
  | [] => Ok []
  | u :: us' =>
      if is_high_surrogate u then
        match us' with
        | v :: us'' =>
            if is_low_surrogate v then
              let* s := points_of_units us'' in
              Ok ((65536 + (u - 55296) * 1024 + (v - 56320)) :: s)
            else Raise UnicodeError
        | [] => Raise UnicodeError
        end
      else if is_low_surrogate u then Raise UnicodeError
      else let* s := points_of_units us' in Ok (u :: s)
  end.

(** [b.decode("utf-16_be")] *)
Definition decode_utf16_be (b : bytes) : result str :=
  let* us := units_of_bytes b in points_of_units us.

(** ** The [struct] module, for the big-endian formats in use *)

Inductive fmt :=
| u16              (* [H] *)
| u32              (* [I] *)
| chars (n : nat)  (* [ns] *)
| pad.             (* [x] *)

Inductive value :=
| VInt (z : Z)
| VBytes (b : bytes).

Fixpoint be_bytes (n : nat) (v : Z) : bytes :=
  match n with
  | O => []
  | S n' => byte_of_Z (v / 256 ^ Z.of_nat n') :: be_bytes n' v
  end.

Fixpoint be_value (b : bytes) : Z :=
  match b with
  | [] => 0
  | x :: b' => Z_of_byte x * 256 ^ len b' + be_value b'
  end.

Definition pack_uint (width : nat) (v : Z) : result bytes :=
  if (0 <=? v) && (v <? 256 ^ Z.of_nat width) then Ok (be_bytes width v)
  else Raise StructError.

(** [ns] truncates a longer value and fills a shorter one with zero bytes. *)
Definition pack_chars (n : nat) (b : bytes) : bytes :=
  take n b ++ replicate (n - length b) x00.

Definition item_size (f : fmt) : nat :=
  match f with
  | u16 => 2
  | u32 => 4
  | chars n => n
  | pad => 1
  end.

Definition calcsize (f : list fmt) : nat := sum_list (map item_size f).

(** [struct.pack(f, *vs)] *)
Fixpoint struct_pack (f : list fmt) (vs : list value) : result bytes :=
  match f, vs with
  | [], [] => Ok []
  | u16 :: f', VInt z :: vs' =>
      let* b := pack_uint 2 z in let* r := struct_pack f' vs' in Ok (b ++ r)
  | u32 :: f', VInt z :: vs' =>
      let* b := pack_uint 4 z in let* r := struct_pack f' vs' in Ok (b ++ r)
  | chars n :: f', VBytes b :: vs' =>
      let* r := struct_pack f' vs' in Ok (pack_chars n b ++ r)
  | pad :: f', _ =>
      let* r := struct_pack f' vs in Ok (x00 :: r)
  | _, _ => Raise StructError
  end.

Fixpoint unpack_items (f : list fmt) (b : bytes) : list value :=
  match f with
  | [] => []
  | u16 :: f' => VInt (be_value (take 2 b)) :: unpack_items f' (drop 2 b)
  | u32 :: f' => VInt (be_value (take 4 b)) :: unpack_items f' (drop 4 b)
  | chars n :: f' => VBytes (take n b) :: unpack_items f' (drop n b)
  | pad :: f' => unpack_items f' (drop 1 b)
  end.

(** [struct.unpack(f, b)]: the buffer must have exactly the size of [f]. *)
Definition struct_unpack (f : list fmt) (b : bytes) : result (list value) :=
  if (length b =? calcsize f)%nat then Ok (unpack_items f b)
  else Raise StructError.

(** [f">{count}I"] *)
Definition counted_u32 (count : Z) : result (list fmt) :=
  if count <? 0 then Raise StructError else Ok (replicate (Z.to_nat count) u32).

(** ** [util] *)

(** Modelled from the spec: [util.pack_int] is missing from the sources;
    the resource count is a big-endian [u32]. *)
Definition pack_int (v : Z) : result bytes := struct_pack [u32] [VInt v].

(** Modelled from the spec: [util.unpack_int] is missing from the sources;
    it reads the big-endian [u32] that [pack_int] writes. *)
Definition unpack_int (b : bytes) : result Z :=
  let* vs := struct_unpack [u32] b in
  match vs with
  | [VInt v] => Ok v
  | _ => Raise TypeError
  end.

(** Modelled from the spec: [util.pack_ascii] is missing from the sources;
    type tags and names are ASCII. *)
Definition pack_ascii (s : str) : result bytes := encode_ascii s.

(** Modelled from the spec: [util.unpack_ascii] is missing from the
    sources; it decodes what [pack_ascii] encodes. *)
Definition unpack_ascii (b : bytes) : result str := decode_ascii b.

(** ** strg.py *)

Module STRGLanguageTable.
Record t := mk { language_ID : str; strings_offset : Z; strings_size : Z }.

Definition _struct : list fmt := [chars 4; u32; u32].

Definition from_packed (packed : bytes) : result t :=
  let* vs := struct_unpack _struct packed in
  match vs with
  | [VBytes language_ID_bytes; VInt strings_offset; VInt strings_size] =>
      let* language_ID := decode_ascii language_ID_bytes in
      Ok (mk language_ID strings_offset strings_size)
  | _ => Raise TypeError
  end.

Definition packed (self : t) : result bytes :=
  let* language_ID_bytes := encode_ascii (language_ID self) in
  struct_pack _struct
    [VBytes language_ID_bytes; VInt (strings_offset self); VInt (strings_size self)].

Definition packed_size (self : t) : result Z :=
  let* b := packed self in Ok (len b).
End STRGLanguageTable.

Module STRGNameEntry.
Record t := mk { offset : Z; string_index : Z }.

Definition _struct : list fmt := [u32; u32].

Definition from_packed (packed : bytes) : result t :=
  let* vs := struct_unpack _struct packed in
  match vs with
  | [VInt offset; VInt string_index] => Ok (mk offset string_index)
  | _ => Raise TypeError
  end.

Definition packed (self : t) : result bytes :=
  struct_pack _struct [VInt (offset self); VInt (string_index self)].

Definition packed_size (self : t) : result Z :=
  let* b := packed self in Ok (len b).
End STRGNameEntry.

Module STRGNameTable.
Record t := mk {
  count : Z;
  size : Z;
  entries : list STRGNameEntry.t;
  names : list str;
}.

Definition _struct : list fmt := [u32; u32].

(** [for i in range(n): entries.append(...); offset += 8] *)
Fixpoint read_entries (n : nat) (packed : bytes) (offset : Z)
  : result (list STRGNameEntry.t) :=
  match n with
  | O => Ok []
  | S n' =>
      let* entry := STRGNameEntry.from_packed (slice packed offset (offset + 8)) in
      let* rest := read_entries n' packed (offset + 8) in
      Ok (entry :: rest)
  end.

Definition read_name (packed : bytes) (entry : STRGNameEntry.t) : result str :=
  let offset := 8 + STRGNameEntry.offset entry in
  let* name_length := bytes_index [x00] (slice_from packed offset) in
  let* f := (if name_length <? 0 then Raise StructError
             else Ok [chars (Z.to_nat name_length); pad]) in
  let* vs := struct_unpack f (slice packed offset (offset + name_length + 1)) in
  match vs with
  | [VBytes name] => decode_ascii name
  | _ => Raise TypeError
  end.

Definition from_packed (packed : bytes) : result t :=
  let* vs := struct_unpack _struct (slice_to packed 8) in
  match vs with
  | [VInt count; VInt size] =>
      let* entries := read_entries (Z.to_nat count) packed 8 in
      let* names := traverse (read_name packed) entries in
      Ok (mk count size entries names)
  | _ => Raise TypeError
  end.

Definition packed (self : t) : result bytes :=
  let* header := struct_pack _struct [VInt (count self); VInt (size self)] in
  let* es := traverse STRGNameEntry.packed (entries self) in
  let* ns := traverse (fun name => let* b := encode_ascii name in Ok (b ++ [x00]))
               (names self) in
  Ok (header ++ concat es ++ concat ns).

Definition packed_size (self : t) : result Z :=
  let* b := packed self in Ok (len b).

(** [names.index(name)] *)
Fixpoint names_index (names : list str) (name : str) : result Z :=
  match names with
  | [] => Raise ValueError
  | n :: names' =>
      if decide (n = name) then Ok 0
      else let* i := names_index names' name in Ok (i + 1)
  end.

Definition get_string_index_for_name (self : t) (name : str) : result Z :=
  let* i := names_index (names self) name in
  let* entry := getitem (entries self) i in
  Ok (STRGNameEntry.string_index entry).
End STRGNameTable.

(** The order of Python tuples [(offset, string)]: by offset, then by
    string, strings being compared code point by code point. *)
Fixpoint str_leb (a b : str) : bool :=
  match a, b with
  | [], _ => true
  | _ :: _, [] => false
  | x :: a', y :: b' => (x <? y) || ((x =? y) && str_leb a' b')
  end.

Definition tuple_leb (a b : Z * str) : bool :=
  (a.1 <? b.1) || ((a.1 =? b.1) && str_leb a.2 b.2).

Definition tuple_le (a b : Z * str) : Prop := Is_true (tuple_leb a b).

(** [sorted(l)] on such tuples. *)
Definition sorted (l : list (Z * str)) : list (Z * str) := merge_sort tuple_le l.

Module STRGStringTable.
Record t := mk { count : Z; offsets : list Z; strings : list str }.

Definition read_string (packed : bytes) (offset : Z) : result str :=
  let* string_length := bytes_index [x00; x00] (slice_from packed offset) in
  let* f := (if string_length <? 0 then Raise StructError
             else Ok [chars (Z.to_nat string_length); pad; pad]) in
  let* vs := struct_unpack f (slice packed offset (offset + string_length + 2)) in
  match vs with
  | [VBytes string_bytes] => decode_utf16_be string_bytes
  | _ => Raise TypeError
  end.

Definition from_packed (packed : bytes) (string_count : Z) : result t :=
  let* f := counted_u32 string_count in
  let* vs := struct_unpack f (slice_to packed (4 * string_count)) in
  let* string_offsets :=
    traverse (fun v => match v with VInt z => Ok z | _ => Raise TypeError end) vs in
  let* strings := traverse (read_string packed) string_offsets in
  Ok (mk string_count string_offsets strings).

Definition packed (self : t) : result bytes :=
  let* f := counted_u32 (count self) in
  let* header := struct_pack f (map VInt (offsets self)) in
  let* ss := traverse (fun '(_, string) =>
                         let* b := encode_utf16_be string in Ok (b ++ [x00; x00]))
               (sorted (zip (offsets self) (strings self))) in
  Ok (header ++ concat ss).

Definition packed_size (self : t) : result Z :=
  let* b := packed self in Ok (len b).

Definition with_string_replaced (self : t) (index : Z) (new_string : str) : result t :=
  let new_offsets := slice_to (offsets self) (index + 1) in
  let* new_bytes := encode_utf16_be new_string in
  let* old_string := getitem (strings self) index in
  let* old_bytes := encode_utf16_be old_string in
  let size_diff := len new_bytes - len old_bytes in
  let new_offsets :=
    new_offsets ++ map (fun offset => offset + size_diff)
                       (slice_from (offsets self) (index + 1)) in
  Ok (mk (count self) new_offsets
         (slice_to (strings self) index ++ [new_string]
            ++ slice_from (strings self) (index + 1))).
End STRGStringTable.

Module STRG.
Record t := mk {
  magic_number : Z;
  version : Z;
  language_count : Z;
  string_count : Z;
  language_tables : list STRGLanguageTable.t;
  name_table : STRGNameTable.t;
  string_tables : list STRGStringTable.t;
}.

Definition asset_type : str := lit "STRG".

Definition _struct : list fmt := [u32; u32; u32; u32].

(** The dictionary that [__post_init__] builds. *)
Definition _language_ID_to_index_map (self : t) : gmap str Z :=
  index_map STRGLanguageTable.language_ID (language_tables self).

Fixpoint read_language_tables (n : nat) (packed : bytes) (offset : Z)
  : result (list STRGLanguageTable.t * Z) :=
  match n with
  | O => Ok ([], offset)
  | S n' =>
      let* table := STRGLanguageTable.from_packed (slice packed offset (offset + 12)) in
      let* '(rest, offset') := read_language_tables n' packed (offset + 12) in
      Ok (table :: rest, offset')
  end.

Definition from_packed (packed : bytes) : result t :=
  let* vs := struct_unpack _struct (slice_to packed 16) in
  match vs with
  | [VInt magic_number; VInt version; VInt language_count; VInt string_count] =>
      let* '(language_tables, offset) :=
        read_language_tables (Z.to_nat language_count) packed 16 in
      let* name_table := STRGNameTable.from_packed (slice_from packed offset) in
      let string_tables_offset := offset + 8 + STRGNameTable.size name_table in
      let* string_tables :=
        traverse (fun language_table =>
                    let offset := string_tables_offset
                                  + STRGLanguageTable.strings_offset language_table in
                    let size := STRGLanguageTable.strings_size language_table in
                    STRGStringTable.from_packed
                      (slice packed offset (offset + size)) string_count)
          language_tables in
      Ok (mk magic_number version language_count string_count
             language_tables name_table string_tables)
  | _ => Raise TypeError
  end.

Definition packed_content_size (self : t) : result Z :=
  let* ls := traverse STRGLanguageTable.packed_size (language_tables self) in
  let* ss := traverse STRGStringTable.packed_size (string_tables self) in
  let* n := STRGNameTable.packed_size (name_table self) in
  Ok (4 + 4 + 4 + 4 + sumZ ls + n + sumZ ss).

Definition packed_padding_size (self : t) : result Z :=
  let* c := packed_content_size self in Ok ((32 - c mod 32) mod 32).

Definition packed_size (self : t) : result Z :=
  let* c := packed_content_size self in
  let* p := packed_padding_size self in
  Ok (c + p).

Definition packed (self : t) : result bytes :=
  let* header := struct_pack _struct
                   [VInt (magic_number self); VInt (version self);
                    VInt (language_count self); VInt (string_count self)] in
  let* ls := traverse STRGLanguageTable.packed (language_tables self) in
  let* n := STRGNameTable.packed (name_table self) in
  let* ss := traverse STRGStringTable.packed (string_tables self) in
  let* p := packed_padding_size self in
  Ok (header ++ concat ls ++ n ++ concat ss ++ replicate (Z.to_nat p) xff).

Definition get_string_table_by_language_ID (self : t) (language_ID : str)
  : result STRGStringTable.t :=
  let* i := dict_getitem (_language_ID_to_index_map self) language_ID in
  getitem (string_tables self) i.

Definition with_string_table_replaced (self : t) (language_ID : str)
    (new_string_table : STRGStringTable.t) : result t :=
  let* table_index := dict_getitem (_language_ID_to_index_map self) language_ID in
  let* old_language_table := getitem (language_tables self) table_index in
  let* new_size := STRGStringTable.packed_size new_string_table in
  let new_language_table :=
    STRGLanguageTable.mk (STRGLanguageTable.language_ID old_language_table)
      (STRGLanguageTable.strings_offset old_language_table) new_size in
  let size_diff := STRGLanguageTable.strings_size new_language_table
                   - STRGLanguageTable.strings_size old_language_table in
  let new_language_tables :=
    slice_to (language_tables self) table_index ++ [new_language_table]
    ++ map (fun language_table =>
              STRGLanguageTable.mk
                (STRGLanguageTable.language_ID language_table)
                (STRGLanguageTable.strings_size language_table + size_diff)
                (STRGLanguageTable.strings_size language_table))
         (slice_from (language_tables self) (table_index + 1)) in
  Ok (mk (magic_number self) (version self) (language_count self) (string_count self)
         new_language_tables (name_table self)
         (slice_to (string_tables self) table_index ++ [new_string_table]
            ++ slice_from (string_tables self) (table_index + 1))).
End STRG.

(** ** pak.py *)

Module NamedResourceTable.
Record t := mk { asset_type : str; asset_ID : Z; name_length : Z; name : str }.

Definition _struct : list fmt := [chars 4; u32; u32].

Definition from_packed (packed : bytes) : result t :=
  let* vs := struct_unpack _struct (slice_to packed 12) in
  match vs with
  | [VBytes asset_type_bytes; VInt asset_ID; VInt name_length] =>
      let* asset_type := unpack_ascii asset_type_bytes in
      let* name := unpack_ascii (slice packed 12 (12 + name_length)) in
      Ok (mk asset_type asset_ID name_length name)
  | _ => Raise TypeError
  end.

Definition packed (self : t) : result bytes :=
  let* asset_type_bytes := pack_ascii (asset_type self) in
  let* header := struct_pack _struct
                   [VBytes asset_type_bytes; VInt (asset_ID self);
                    VInt (name_length self)] in
  let* name_bytes := pack_ascii (name self) in
  Ok (header ++ name_bytes).

Definition packed_size (self : t) : result Z :=
  let* b := packed self in Ok (len b).
End NamedResourceTable.

Module ResourceTable.
Record t := mk {
  compressed : bool;
  asset_type : str;
  asset_ID : Z;
  size : Z;
  offset : Z;
}.

Definition _struct : list fmt := [u32; chars 4; u32; u32; u32].

Definition from_packed (packed : bytes) : result t :=
  let* vs := struct_unpack _struct packed in
  match vs with
  | [VInt compressed_int; VBytes asset_type_bytes; VInt asset_ID; VInt size; VInt offset] =>
      let* asset_type := unpack_ascii asset_type_bytes in
      Ok (mk (negb (compressed_int =? 0)) asset_type asset_ID size offset)
  | _ => Raise TypeError
  end.

Definition packed (self : t) : result bytes :=
  let* asset_type_bytes := pack_ascii (asset_type self) in
  struct_pack _struct
    [VInt (if compressed self then 1 else 0); VBytes asset_type_bytes;
     VInt (asset_ID self); VInt (size self); VInt (offset self)].

Definition packed_size (self : t) : result Z :=
  let* b := packed self in Ok (len b).

(** [dataclasses.replace(self, offset=new_offset)] *)
Definition replace_offset (self : t) (new_offset : Z) : t :=
  mk (compressed self) (asset_type self) (asset_ID self) (size self) new_offset.
End ResourceTable.

Module UnimplementedResource.
Record t := mk { data : bytes }.

Definition from_packed (packed : bytes) : t := mk packed.
Definition packed_size (self : t) : Z := len (data self).
Definition packed (self : t) : bytes := data self.
End UnimplementedResource.

Definition aligned_to_32_bytes (bytes_to_align : bytes) : bytes :=
  let padding := replicate (Z.to_nat ((32 - len bytes_to_align mod 32) mod 32)) xff in
  bytes_to_align ++ padding.

(** The classes a resource can be decoded with. *)
Inductive asset_class :=
| class_ScanTree
| class_DGRP
| class_DUMB
| class_HINT
| class_SCAN
| class_STRG
| class_UnimplementedResource.

(** The modules [dgrp], [dumb], [hint], [scan] and [tree] are not part of
    the sources at hand: their classes are taken as a parameter, through
    the operations that [pak.py] calls on them. *)
Class ExternalAssets := {
  ext : Type;
  ext_from_packed : asset_class -> bytes -> result ext;
  ext_packed : ext -> result bytes;
  ext_packed_size : ext -> result Z;
  ext_asset_type : ext -> result str;
}.

Module PAK.
Section WithExternalAssets.
Context `{ExternalAssets}.

Inductive resource :=
| Unimplemented (r : UnimplementedResource.t)
| Strg (r : STRG.t)
| External (r : ext).

(** [asset_class.from_packed(packed)] *)
Definition resource_from_packed (c : asset_class) (packed : bytes) : result resource :=
  match c with
  | class_UnimplementedResource =>
      Ok (Unimplemented (UnimplementedResource.from_packed packed))
  | class_STRG => let* r := STRG.from_packed packed in Ok (Strg r)
  | _ => let* r := ext_from_packed c packed in Ok (External r)
  end.

(** [resource.packed()] *)
Definition resource_packed (r : resource) : result bytes :=
  match r with
  | Unimplemented r => Ok (UnimplementedResource.packed r)
  | Strg r => STRG.packed r
  | External r => ext_packed r
  end.

(** [resource.packed_size] *)
Definition resource_packed_size (r : resource) : result Z :=
  match r with
  | Unimplemented r => Ok (UnimplementedResource.packed_size r)
  | Strg r => STRG.packed_size r
  | External r => ext_packed_size r
  end.

(** [resource.asset_type]: [UnimplementedResource] has no such attribute. *)
Definition resource_asset_type (r : resource) : result str :=
  match r with
  | Unimplemented _ => Raise AttributeError
  | Strg _ => Ok STRG.asset_type
  | External r => ext_asset_type r
  end.

Record t := mk {
  major_version : Z;
  minor_version : Z;
  unused : Z;
  named_resource_count : Z;
  named_resource_tables : list NamedResourceTable.t;
  resource_count : Z;
  resource_tables : list ResourceTable.t;
  resources : list resource;
}.

Definition _struct : list fmt := [u16; u16; u32; u32].

Definition asset_classes : gmap str asset_class :=
  list_to_map
    [(lit "DGRP", class_DGRP);
     (lit "DUMB", class_DUMB);
     (lit "HINT", class_HINT);
     (lit "SCAN", class_SCAN);
     (lit "STRG", class_STRG)].

(** The dictionary that [__post_init__] builds. *)
Definition _asset_ID_to_index_map (self : t) : gmap Z Z :=
  index_map ResourceTable.asset_ID (resource_tables self).

Fixpoint read_named_resource_tables (n : nat) (packed : bytes) (offset : Z)
  : result (list NamedResourceTable.t * Z) :=
  match n with
  | O => Ok ([], offset)
  | S n' =>
      let* table := NamedResourceTable.from_packed (slice_from packed offset) in
      let* '(rest, offset') :=
        read_named_resource_tables n' packed
          (offset + (12 + NamedResourceTable.name_length table)) in
      Ok (table :: rest, offset')
  end.

Fixpoint read_resource_tables (n : nat) (packed : bytes) (offset : Z)
  : result (list ResourceTable.t * Z) :=
  match n with
  | O => Ok ([], offset)
  | S n' =>
      let* table := ResourceTable.from_packed (slice packed offset (offset + 20)) in
      let* '(rest, offset') := read_resource_tables n' packed (offset + 20) in
      Ok (table :: rest, offset')
  end.

(** The class chosen for a resource table entry while decoding. *)
Definition asset_class_of (resource_table : ResourceTable.t) : asset_class :=
  if ResourceTable.asset_ID resource_table =? 2511737465 (* 0x95B61279 *)
  then class_ScanTree
  else default class_UnimplementedResource
         (asset_classes !! ResourceTable.asset_type resource_table).

Definition read_resource (packed : bytes) (resource_table : ResourceTable.t)
  : result resource :=
  let asset_class := asset_class_of resource_table in
  let offset := ResourceTable.offset resource_table in
  let size := ResourceTable.size resource_table in
  resource_from_packed asset_class (slice packed offset (offset + size)).

Definition from_packed (packed : bytes) : result t :=
  let* vs := struct_unpack _struct (slice_to packed 12) in
  match vs with
  | [VInt major_version; VInt minor_version; VInt unused; VInt named_resource_count] =>
      let* '(named_resource_tables, offset) :=
        read_named_resource_tables (Z.to_nat named_resource_count) packed 12 in
      let* resource_count := unpack_int (slice packed offset (offset + 4)) in
      let offset := offset + 4 in
      let* '(resource_tables, offset) :=
        read_resource_tables (Z.to_nat resource_count) packed offset in
      let* resources := traverse (read_resource packed) resource_tables in
      Ok (mk major_version minor_version unused named_resource_count
             named_resource_tables resource_count resource_tables resources)
  | _ => Raise TypeError
  end.

Definition packed_content_before_resources_size (self : t) : result Z :=
  let* ns := traverse NamedResourceTable.packed_size (named_resource_tables self) in
  let* rs := traverse ResourceTable.packed_size (resource_tables self) in
  Ok (2 + 2 + 4 + 4 + sumZ ns + 4 + sumZ rs).

Definition packed_padding_before_resources_size (self : t) : result Z :=
  let* c := packed_content_before_resources_size self in
  Ok ((32 - c mod 32) mod 32).

Definition packed_size (self : t) : result Z :=
  let* rs := traverse resource_packed_size (resources self) in
  let* c := packed_content_before_resources_size self in
  let* p := packed_padding_before_resources_size self in
  Ok (c + p + sumZ rs).

Definition packed (self : t) : result bytes :=
  let* header := struct_pack _struct
                   [VInt (major_version self); VInt (minor_version self);
                    VInt (unused self); VInt (named_resource_count self)] in
  let* ns := traverse NamedResourceTable.packed (named_resource_tables self) in
  let* count := pack_int (resource_count self) in
  let* ts := traverse ResourceTable.packed (resource_tables self) in
  let* p := packed_padding_before_resources_size self in
  let* rs := traverse (fun resource =>
                         let* b := resource_packed resource in
                         Ok (aligned_to_32_bytes b))
               (resources self) in
  Ok (header ++ concat ns ++ count ++ concat ts
        ++ replicate (Z.to_nat p) x00 ++ concat rs).

Definition get_resource_by_asset_ID (self : t) (asset_ID : Z) : result resource :=
  let* i := dict_getitem (_asset_ID_to_index_map self) asset_ID in
  getitem (resources self) i.

Definition with_resource_inserted (self : t) (index asset_ID : Z)
    (new_resource : resource) : result t :=
  let* new_resource_table_offset :=
    (if index =? resource_count self then
       let* last := getitem (resource_tables self) (-1) in
       let* last' := getitem (resource_tables self) (-1) in
       Ok (ResourceTable.offset last + ResourceTable.size last')
     else
       let* at_index := getitem (resource_tables self) index in
       Ok (ResourceTable.offset at_index)) in
  let* new_asset_type := resource_asset_type new_resource in
  let* new_size := resource_packed_size new_resource in
  let new_resource_table :=
    ResourceTable.mk false new_asset_type asset_ID new_size
      new_resource_table_offset in
  let* shifted :=
    traverse (fun resource_table =>
                let* new_size := resource_packed_size new_resource in
                Ok (ResourceTable.replace_offset resource_table
                      (ResourceTable.offset resource_table + new_size)))
      (slice_from (resource_tables self) index) in
  Ok (mk (major_version self) (minor_version self) (unused self)
         (named_resource_count self) (named_resource_tables self)
         (resource_count self + 1)
         (slice_to (resource_tables self) index ++ [new_resource_table] ++ shifted)
         (slice_to (resources self) index ++ [new_resource]
            ++ slice_from (resources self) index)).

Definition with_resource_appended (self : t) (asset_ID : Z) (new_resource : resource)
  : result t :=
  with_resource_inserted self (resource_count self) asset_ID new_resource.

Definition with_resource_removed (self : t) (index : Z) : result t :=
  let* removed_resource := getitem (resources self) index in
  let* shifted :=
    traverse (fun resource_table =>
                let* removed_size := resource_packed_size removed_resource in
                Ok (ResourceTable.replace_offset resource_table
                      (ResourceTable.offset resource_table - removed_size)))
      (slice_from (resource_tables self) (index + 1)) in
  Ok (mk (major_version self) (minor_version self) (unused self)
         (named_resource_count self) (named_resource_tables self)
         (resource_count self - 1)
         (slice_to (resource_tables self) index ++ shifted)
         (slice_to (resources self) index ++ slice_from (resources self) (index + 1))).

(** A positional argument of a call. *)
Inductive argument :=
| ArgPAK (p : t)
| ArgInt (z : Z).

(** The call [self.with_resource_removed( *args )] of the bound method:
    [self] is supplied by the binding, so the method takes one further
    positional argument, and that argument indexes a tuple. *)
Definition call_with_resource_removed (self : t) (args : list argument) : result t :=
  match args with
  | [ArgInt index] => with_resource_removed self index
  | [ArgPAK _] => Raise TypeError
  | _ => Raise TypeError
  end.

Definition with_resource_removed_by_asset_ID (self : t) (asset_ID : Z) : result t :=
  let* index := dict_getitem (_asset_ID_to_index_map self) asset_ID in
  call_with_resource_removed self [ArgPAK self; ArgInt index].

Definition with_resource_replaced (self : t) (index : Z) (new_resource : resource)
  : result t :=
  let* resource_table := getitem (resource_tables self) index in
  let asset_ID := ResourceTable.asset_ID resource_table in
  let* removed := with_resource_removed self index in
  with_resource_inserted removed index asset_ID new_resource.

Definition with_resource_replaced_by_asset_ID (self : t) (asset_ID : Z)
    (new_resource : resource) : result t :=
  let* index := dict_getitem (_asset_ID_to_index_map self) asset_ID in
  let* removed := with_resource_removed self index in
  with_resource_inserted removed index asset_ID new_resource.
End WithExternalAssets.
End PAK.

(** ** Well-formed values

    A value is well formed when it describes its own encoding: counts are
    the lengths of the sequences, tags have four characters, and sizes and
    offsets are those of the bytes that [packed] writes. *)

(** The number of filler bytes after [n] bytes, as [aligned_to_32_bytes],
    [packed_padding_before_resources_size] and [packed_padding_size]
    compute it. *)
Definition padding_size (n : Z) : Z := (32 - n mod 32) mod 32.

(** The values that [struct.pack] writes as they are: a value for [ns]
    has exactly [n] bytes. *)
Fixpoint exact_values (f : list fmt) (vs : list value) : Prop :=
  match f, vs with
  | [], [] => True
  | u16 :: f', VInt _ :: vs' => exact_values f' vs'
  | u32 :: f', VInt _ :: vs' => exact_values f' vs'
  | chars n :: f', VBytes b :: vs' => length b = n /\ exact_values f' vs'
  | pad :: f', _ => exact_values f' vs
  | _, _ => False
  end.

(** The start of each chunk when chunks of the given sizes follow each
    other from [start]. *)
Fixpoint running_offsets (start : Z) (sizes : list Z) : list Z :=
  match sizes with
  | [] => []
  | n :: sizes' => start :: running_offsets (start + n) sizes'
  end.

Definition tag_ok (tag : str) : Prop := length tag = 4%nat.

(** The names have no NUL, entry [i] points at name [i] in the name region
    (which starts after the length-prefixed entry list), and [size] covers
    entries and names. *)
Definition wf_name_table (t : STRGNameTable.t) : Prop :=
  let sizes := map (fun name : str => len name + 1) (STRGNameTable.names t) in
  len (STRGNameTable.entries t) = STRGNameTable.count t
  /\ len (STRGNameTable.names t) = STRGNameTable.count t
  /\ Forall (fun name : str => 0 ∉ name) (STRGNameTable.names t)
  /\ map STRGNameEntry.offset (STRGNameTable.entries t)
     = running_offsets (8 * STRGNameTable.count t) sizes
  /\ STRGNameTable.size t = 8 * STRGNameTable.count t + sumZ sizes.

(** The strings have no NUL, and in emission order, that is sorted by
    offset, every string starts where the one before ends, the first right
    after the offsets. *)
Definition wf_string_table (string_count : Z) (t : STRGStringTable.t) : Prop :=
  let emitted := sorted (zip (STRGStringTable.offsets t) (STRGStringTable.strings t)) in
  STRGStringTable.count t = string_count
  /\ len (STRGStringTable.offsets t) = STRGStringTable.count t
  /\ len (STRGStringTable.strings t) = STRGStringTable.count t
  /\ Forall (fun string : str => 0 ∉ string) (STRGStringTable.strings t)
  /\ exists encodings,
       traverse encode_utf16_be (map snd emitted) = Ok encodings
       /\ map fst emitted
          = running_offsets (4 * STRGStringTable.count t)
              (map (fun e : bytes => len e + 2) encodings).

(** Every language entry has the size of its string table, and the
    tables follow each other from offset 0. *)
Definition wf_STRG (s : STRG.t) : Prop :=
  len (STRG.language_tables s) = STRG.language_count s
  /\ Forall (fun language_table =>
               tag_ok (STRGLanguageTable.language_ID language_table))
       (STRG.language_tables s)
  /\ wf_name_table (STRG.name_table s)
  /\ Forall (wf_string_table (STRG.string_count s)) (STRG.string_tables s)
  /\ Forall2 (fun language_table string_table =>
                STRGStringTable.packed_size string_table
                = Ok (STRGLanguageTable.strings_size language_table))
       (STRG.language_tables s) (STRG.string_tables s)
  /\ map STRGLanguageTable.strings_offset (STRG.language_tables s)
     = running_offsets 0
         (map STRGLanguageTable.strings_size (STRG.language_tables s)).

Definition wf_named_resource_table (t : NamedResourceTable.t) : Prop :=
  tag_ok (NamedResourceTable.asset_type t)
  /\ NamedResourceTable.name_length t = len (NamedResourceTable.name t).

(** An entry has the size of its resource's encoding, and decoding
    chooses the class of the resource: an opaque resource has an unknown
    tag, a STRG the tag of STRG, and a resource of an external class a tag
    or identifier of such a class, whose codec reproduces the encoding. *)
Definition wf_resource `{ExternalAssets}
    (resource_table : ResourceTable.t) (resource : PAK.resource) : Prop :=
  tag_ok (ResourceTable.asset_type resource_table)
  /\ (exists payload, PAK.resource_packed resource = Ok payload
                      /\ ResourceTable.size resource_table = len payload)
  /\ match resource with
     | PAK.Unimplemented _ =>
         PAK.asset_class_of resource_table = class_UnimplementedResource
     | PAK.Strg s =>
         PAK.asset_class_of resource_table = class_STRG /\ wf_STRG s
     | PAK.External r =>
         PAK.asset_class_of resource_table <> class_STRG
         /\ PAK.asset_class_of resource_table <> class_UnimplementedResource
         /\ forall payload r',
              ext_packed r = Ok payload ->
              ext_from_packed (PAK.asset_class_of resource_table) payload = Ok r' ->
              ext_packed r' = Ok payload
     end.

(** Resource [i] starts after the padded directory and the padded
    resources before it. *)
Definition wf_PAK `{ExternalAssets} (p : PAK.t) : Prop :=
  len (PAK.named_resource_tables p) = PAK.named_resource_count p
  /\ Forall wf_named_resource_table (PAK.named_resource_tables p)
  /\ len (PAK.resource_tables p) = PAK.resource_count p
  /\ Forall2 wf_resource (PAK.resource_tables p) (PAK.resources p)
  /\ exists c,
       PAK.packed_content_before_resources_size p = Ok c
       /\ map ResourceTable.offset (PAK.resource_tables p)
          = running_offsets (c + padding_size c)
              (map (fun resource_table =>
                      ResourceTable.size resource_table
                      + padding_size (ResourceTable.size resource_table))
                 (PAK.resource_tables p)).

(** A code point of the basic plane whose low byte is not zero: no byte
    pair of the terminator can begin inside its encoding. *)
Definition low_byte_nonzero (c : Z) : Prop := c < 65536 /\ c mod 256 <> 0.

(** The strings of a STRG consist of such code points. *)
Definition plain_strings (s : STRG.t) : Prop :=
  Forall (fun string_table =>
            Forall (Forall low_byte_nonzero) (STRGStringTable.strings string_table))
    (STRG.string_tables s).

(** A resource that decodes from its encoding: an opaque resource always
    does, a STRG with plain strings does, and a resource of an external
    class does when the codec of that class returns it. *)
Definition decodable_resource `{ExternalAssets}
    (resource_table : ResourceTable.t) (resource : PAK.resource) : Prop :=
  match resource with
  | PAK.Unimplemented _ => True
  | PAK.Strg s => plain_strings s
  | PAK.External r =>
      forall payload,
        ext_packed r = Ok payload ->
        ext_from_packed (PAK.asset_class_of resource_table) payload = Ok r
  end.

(** ** The layout the specification asks for *)

(** The offsets of the specification's offset cascade: entry [j] starts
    after the directory, its padding, and the resources before [j], each
    of these taken with its padding to 32 bytes. *)
Definition cascade_offsets `{ExternalAssets} (p : PAK.t) : result (list Z) :=
  let* c := PAK.packed_content_before_resources_size p in
  let* sizes := traverse PAK.resource_packed_size (PAK.resources p) in
  Ok (map (fun j => c + padding_size c
                    + sumZ (map (fun n => n + padding_size n) (take j sizes)))
        (seq 0 (length sizes))).

(** ** Closed values for the examples *)

(** No external class at all: every resource is a [STRG] or opaque. *)
Definition no_external_assets : ExternalAssets := {|
  ext := Empty_set;
  ext_from_packed := fun _ _ => Raise AttributeError;
  ext_packed := fun r => match r with end;
  ext_packed_size := fun r => match r with end;
  ext_asset_type := fun r => match r with end;
|}.

Definition opaque `{ExternalAssets} (data : bytes) : PAK.resource :=
  PAK.Unimplemented (UnimplementedResource.mk data).

(** A PAK without resources. *)
Definition pak_empty : @PAK.t no_external_assets :=
  PAK.mk 3 5 0 0 [] 0 [] [].

(** A PAK with two opaque resources of 5 and 3 bytes, laid out as the
    encoder lays them out: the directory takes 56 bytes and is padded to
    64, the first resource is padded to 32. *)
Definition pak_two_opaque : @PAK.t no_external_assets :=
  PAK.mk 3 5 0 0 [] 2
    [ResourceTable.mk false (lit "TXTR") 17 5 64;
     ResourceTable.mk false (lit "PART") 18 3 96]
    [opaque [x01; x02; x03; x04; x05]; opaque [x0a; x0b; x0c]].

(** A STRG with two languages of one string each, laid out as the
    encoder lays it out, and one named string. *)
Definition strg_two_languages : STRG.t :=
  STRG.mk 2271560481 0 2 1
    [STRGLanguageTable.mk (lit "ENGL") 0 8;
     STRGLanguageTable.mk (lit "FREN") 8 10]
    (STRGNameTable.mk 1 14 [STRGNameEntry.mk 8 0] [lit "hello"])
    [STRGStringTable.mk 1 [4] [lit "A"];
     STRGStringTable.mk 1 [4] [lit "AB"]].

Definition string_table_ABC : STRGStringTable.t :=
  STRGStringTable.mk 1 [4] [lit "ABC"].

Definition strg_resource : @PAK.resource no_external_assets :=
  PAK.Strg strg_two_languages.

(** A PAK with that STRG, named, and an opaque resource after it. *)
Definition pak_with_strg : @PAK.t no_external_assets :=
  PAK.mk 3 5 0 1 [NamedResourceTable.mk (lit "STRG") 1 4 (lit "test")] 2
    [ResourceTable.mk false (lit "STRG") 1 96 96;
     ResourceTable.mk false (lit "TXTR") 17 5 192]
    [strg_resource; opaque [x01; x02; x03; x04; x05]].

(** A STRG whose only string has a NUL in the middle; everything else is
    laid out as the encoder lays it out. *)
Definition strg_with_nul : STRG.t :=
  STRG.mk 2271560481 0 1 1
    [STRGLanguageTable.mk (lit "ENGL") 0 12]
    (STRGNameTable.mk 0 0 [] [])
    [STRGStringTable.mk 1 [4] [[65; 0; 66]]].

(** A well-formed STRG whose only string is U+0100 followed by ["A"]: its
    encoding has the bytes 01 00 00 41. *)
Definition strg_with_low_zero_byte : STRG.t :=
  STRG.mk 2271560481 0 1 1
    [STRGLanguageTable.mk (lit "ENGL") 0 10]
    (STRGNameTable.mk 0 0 [] [])
    [STRGStringTable.mk 1 [4] [[256; 65]]].

(** A PAK whose only resource is that STRG. *)
Definition pak_only_strg : @PAK.t no_external_assets :=
  PAK.mk 3 5 0 0 [] 1 [ResourceTable.mk false (lit "STRG") 1 96 64] [strg_resource].

(** * Properties *)

(** ** Sequences *)

Lemma len_nonneg {A} (l : list A) : 0 <= len l.
Proof. unfold len. lia. Qed.

Lemma len_app {A} (l k : list A) : len (l ++ k) = len l + len k.
Proof. unfold len. rewrite length_app. lia. Qed.

Lemma slice_to_take {A} (l : list A) (i : Z) :
  0 <= i -> slice_to l i = take (Z.to_nat i) l.
Proof.
  intros Hi. unfold slice_to, clamp, len.
  destruct (Z.ltb_spec i 0); [lia|].
  destruct (Z.min_spec i (Z.of_nat (length l))) as [[? ->]|[? ->]]; [done|].
  rewrite !take_ge; [done| lia | lia].
Qed.

Lemma slice_from_drop {A} (l : list A) (i : Z) :
  0 <= i -> slice_from l i = drop (Z.to_nat i) l.
Proof.
  intros Hi. unfold slice_from, clamp, len.
  destruct (Z.ltb_spec i 0); [lia|].
  destruct (Z.min_spec i (Z.of_nat (length l))) as [[? ->]|[? ->]]; [done|].
  rewrite !drop_ge; [done| lia | lia].
Qed.

Lemma slice_take_drop {A} (l : list A) (lo hi : Z) :
  0 <= lo <= hi -> slice l lo hi = take (Z.to_nat (hi - lo)) (drop (Z.to_nat lo) l).
Proof.
  intros Hi. unfold slice, clamp, len.
  destruct (Z.ltb_spec lo 0); [lia|]. destruct (Z.ltb_spec hi 0); [lia|].
  destruct (Z.min_spec lo (Z.of_nat (length l))) as [[? ->]|[? ->]];
    destruct (Z.min_spec hi (Z.of_nat (length l))) as [[? ->]|[? ->]]; try done.
  - rewrite !take_ge; [done| |]; rewrite length_drop; lia.
  - lia.
  - rewrite !drop_ge by lia. by rewrite !take_nil.
Qed.

Lemma getitem_lookup {A} (l : list A) (i : Z) (x : A) :
  0 <= i -> l !! Z.to_nat i = Some x -> getitem l i = Ok x.
Proof.
  intros Hi Hx. unfold getitem. apply lookup_lt_Some in Hx as Hlt.
  destruct (Z.ltb_spec i 0); [lia|].
  destruct (Z.leb_spec 0 i); [|lia].
  destruct (Z.ltb_spec i (len l)); [|unfold len in *; lia].
  simpl. by rewrite Hx.
Qed.

Lemma getitem_nil {A} (i : Z) : getitem (@nil A) i = Raise IndexError.
Proof.
  unfold getitem. simpl. by destruct (_ && _).
Qed.

Lemma getitem_last {A} (l : list A) (x : A) : getitem (l ++ [x]) (-1) = Ok x.
Proof.
  unfold getitem, len. rewrite length_app. simpl.
  destruct (Z.leb_spec 0 (-1 + Z.of_nat (length l + 1))); [|lia].
  destruct (Z.ltb_spec (-1 + Z.of_nat (length l + 1)) (Z.of_nat (length l + 1))); [|lia].
  simpl. replace (Z.to_nat _) with (length l + 0)%nat by lia.
  by rewrite lookup_app_r, Nat.add_0_r, Nat.sub_diag by lia.
Qed.

(** ** The [result] monad *)

Lemma bind_Ok {A B} (m : result A) (k : A -> result B) (b : B) :
  bind m k = Ok b -> exists a, m = Ok a /\ k a = Ok b.
Proof. destruct m; simpl; [eauto | discriminate]. Qed.

Lemma traverse_Ok {A B} (f : A -> result B) (l : list A) (ys : list B) :
  traverse f l = Ok ys <-> Forall2 (fun x y => f x = Ok y) l ys.
Proof.
  revert ys. induction l as [|x l IH]; intros ys; simpl.
  - split; [intros [= <-]; constructor | by inversion 1].
  - split.
    + intros (y & Hy & (ys' & Hys & [= <-])%bind_Ok)%bind_Ok.
      constructor; [done | by apply IH].
    + inversion 1 as [|? y ? ys' Hy Hys]; subst. rewrite Hy. simpl.
      apply IH in Hys. by rewrite Hys.
Qed.

Lemma traverse_total {A B} (f : A -> B) (l : list A) :
  traverse (fun x => Ok (f x)) l = Ok (map f l).
Proof. induction l as [|x l IH]; simpl; [done | by rewrite IH]. Qed.

Lemma traverse_ext {A B} (f g : A -> result B) (l : list A) :
  (forall x, x ∈ l -> f x = g x) -> traverse f l = traverse g l.
Proof.
  induction l as [|x l IH]; intros Hfg; simpl; [done|].
  rewrite Hfg by left. rewrite IH; [done|]. intros y Hy. apply Hfg. by right.
Qed.

(** ** Editing a PAK *)

Section PAKEdit.
Context `{ExternalAssets}.

Lemma replace_offset_back (rt : ResourceTable.t) (n : Z) :
  ResourceTable.replace_offset
    (ResourceTable.replace_offset rt (ResourceTable.offset rt + n))
    (ResourceTable.offset
       (ResourceTable.replace_offset rt (ResourceTable.offset rt + n)) - n) = rt.
Proof.
  destruct rt as [c ty id sz off]. unfold ResourceTable.replace_offset. simpl.
  f_equal. lia.
Qed.

(** C1.  Removal by identifier never reaches the index-based removal: once
    the identifier is resolved, the call hands the bound method the
    container and the index, one positional argument too many, and raises
    [TypeError], also where removal by that index returns a PAK. *)
Theorem with_resource_removed_by_asset_ID_raises
    (p : PAK.t) (asset_ID index : Z) :
  PAK._asset_ID_to_index_map p !! asset_ID = Some index ->
  PAK.with_resource_removed_by_asset_ID p asset_ID = Raise TypeError.
Proof.
  intros Hi. unfold PAK.with_resource_removed_by_asset_ID, dict_getitem.
  by rewrite Hi.
Qed.

(** C10.  Inserting at index 0 into a PAK without resources, and so
    appending to it, raises [IndexError]: the offset of an entry inserted
    at the end is read from the last entry, and there is none. *)
Theorem with_resource_inserted_empty
    (p : PAK.t) (asset_ID : Z) (r : PAK.resource) :
  PAK.resource_count p = 0 ->
  PAK.resource_tables p = [] ->
  PAK.with_resource_inserted p 0 asset_ID r = Raise IndexError
  /\ PAK.with_resource_appended p asset_ID r = Raise IndexError.
Proof.
  intros Hc Ht. unfold PAK.with_resource_appended. rewrite Hc.
  split; unfold PAK.with_resource_inserted; by rewrite Hc, Ht, getitem_nil.
Qed.

(** The offset given to an inserted entry. *)
Lemma inserted_offset (p : PAK.t) (i : Z) :
  PAK.resource_count p = len (PAK.resource_tables p) ->
  PAK.resource_tables p <> [] ->
  0 <= i <= PAK.resource_count p ->
  exists off,
    (if i =? PAK.resource_count p then
       let* last := getitem (PAK.resource_tables p) (-1) in
       let* last' := getitem (PAK.resource_tables p) (-1) in
       Ok (ResourceTable.offset last + ResourceTable.size last')
     else
       let* at_index := getitem (PAK.resource_tables p) i in
       Ok (ResourceTable.offset at_index)) = Ok off.
Proof.
  intros Hc Hne Hi. destruct (Z.eqb_spec i (PAK.resource_count p)) as [->|Hlt].
  - destruct (PAK.resource_tables p) as [|x l] using rev_ind; [done|].
    rewrite getitem_last. simpl. eauto.
  - destruct (PAK.resource_tables p !! Z.to_nat i) as [rt|] eqn:Hrt.
    + rewrite (getitem_lookup _ _ rt) by (done || lia). simpl. eauto.
    + apply lookup_ge_None in Hrt. unfold len in *. lia.
Qed.

(** C6, amended.  On a PAK that has a resource already, inserting a
    resource that carries a type tag and has an encoded size, at an index
    from 0 to the resource count, and then removing that index gives the
    PAK back. *)
Theorem insert_then_remove
    (p : PAK.t) (i asset_ID : Z) (r : PAK.resource) (ty : str) (n : Z) :
  PAK.resource_count p = len (PAK.resource_tables p) ->
  len (PAK.resources p) = len (PAK.resource_tables p) ->
  PAK.resource_tables p <> [] ->
  0 <= i <= PAK.resource_count p ->
  PAK.resource_asset_type r = Ok ty ->
  PAK.resource_packed_size r = Ok n ->
  exists q, PAK.with_resource_inserted p i asset_ID r = Ok q
            /\ PAK.with_resource_removed q i = Ok p.
Proof.
  intros Hc Hr Hne Hi Hty Hn.
  destruct (inserted_offset p i Hc Hne Hi) as [off Hoff].
  unfold PAK.with_resource_inserted. rewrite Hoff. simpl. rewrite Hty, Hn. simpl.
  rewrite traverse_total. simpl.
  eexists. split; [reflexivity|].
  unfold PAK.with_resource_removed. simpl.
  assert (Hlen : length (slice_to (PAK.resources p) i) = Z.to_nat i).
  { rewrite slice_to_take by lia. rewrite length_take. unfold len in *. lia. }
  assert (Hlen' : length (slice_to (PAK.resource_tables p) i) = Z.to_nat i).
  { rewrite slice_to_take by lia. rewrite length_take. unfold len in *. lia. }
  rewrite (getitem_lookup _ _ r); [| lia |]; last first.
  { rewrite lookup_app_r by lia. by rewrite Hlen, Nat.sub_diag. }
  simpl.
  assert (Hdrop : forall A (l : list A) (x : A) (k : list A),
             length l = Z.to_nat i -> slice_from (l ++ x :: k) (i + 1) = k).
  { intros A l x k Hl. rewrite slice_from_drop by lia.
    replace (Z.to_nat (i + 1)) with (length l + 1)%nat by lia.
    rewrite drop_app_add'. 2: done. done. }
  assert (Htake : forall A (l k : list A),
             length l = Z.to_nat i -> slice_to (l ++ k) i = l).
  { intros A l k Hl. rewrite slice_to_take by lia. rewrite <- Hl.
    by rewrite take_app_length. }
  rewrite !Hdrop, !Htake by done.
  rewrite Hn. simpl. rewrite traverse_total. simpl.
  rewrite map_map.
  rewrite (map_ext _ id), map_id; last by (intros rt; apply replace_offset_back).
  rewrite !slice_to_take, !slice_from_drop by lia. rewrite !take_drop.
  destruct p; simpl in *. do 2 f_equal. lia.
Qed.
End PAKEdit.

Lemma with_resource_removed_by_asset_ID_raises_witness :
  PAK._asset_ID_to_index_map pak_two_opaque !! 17 = Some 0
  /\ (exists q, PAK.with_resource_removed pak_two_opaque 0 = Ok q)
  /\ PAK.with_resource_removed_by_asset_ID pak_two_opaque 17 = Raise TypeError.
Proof.
  split; [vm_compute; reflexivity|]. split.
  - eexists. vm_compute. reflexivity.
  - apply (with_resource_removed_by_asset_ID_raises pak_two_opaque 17 0).
    vm_compute. reflexivity.
Defined.

Lemma with_resource_inserted_empty_witness :
  PAK.resource_count pak_empty = 0
  /\ PAK.resource_tables pak_empty = []
  /\ PAK.with_resource_inserted pak_empty 0 17 (opaque [x01]) = Raise IndexError
  /\ PAK.with_resource_appended pak_empty 17 (opaque [x01]) = Raise IndexError.
Proof.
  split; [reflexivity|]. split; [reflexivity|].
  apply (with_resource_inserted_empty pak_empty 17 (opaque [x01])); reflexivity.
Defined.

(** C6 as stated fails on an opaque resource: it has no type tag to put
    into the new directory entry, and the insertion raises
    [AttributeError]. *)
Lemma insert_then_remove_counterexample :
  PAK.resource_count pak_two_opaque = len (PAK.resource_tables pak_two_opaque)
  /\ len (PAK.resources pak_two_opaque) = len (PAK.resource_tables pak_two_opaque)
  /\ 0 <= 1 <= len (PAK.resources pak_two_opaque)
  /\ PAK.with_resource_inserted pak_two_opaque 1 99 (opaque [x01]) = Raise AttributeError
  /\ ~ exists q, PAK.with_resource_inserted pak_two_opaque 1 99 (opaque [x01]) = Ok q
                 /\ PAK.with_resource_removed q 1 = Ok pak_two_opaque.
Proof.
  split; [reflexivity|]. split; [reflexivity|]. split; [vm_compute; split; discriminate|].
  split; [vm_compute; reflexivity|].
  intros (q & Hq & _). vm_compute in Hq. discriminate.
Qed.

Lemma insert_then_remove_witness :
  PAK.resource_count pak_two_opaque = len (PAK.resource_tables pak_two_opaque)
  /\ len (PAK.resources pak_two_opaque) = len (PAK.resource_tables pak_two_opaque)
  /\ PAK.resource_tables pak_two_opaque <> []
  /\ 0 <= 1 <= PAK.resource_count pak_two_opaque
  /\ PAK.resource_asset_type strg_resource = Ok (lit "STRG")
  /\ PAK.resource_packed_size strg_resource = Ok 96
  /\ exists q,
       PAK.with_resource_inserted pak_two_opaque 1 99 strg_resource = Ok q
       /\ PAK.with_resource_removed q 1 = Ok pak_two_opaque.
Proof.
  assert (H1 : PAK.resource_count pak_two_opaque = len (PAK.resource_tables pak_two_opaque))
    by reflexivity.
  assert (H2 : len (PAK.resources pak_two_opaque) = len (PAK.resource_tables pak_two_opaque))
    by reflexivity.
  assert (H3 : PAK.resource_tables pak_two_opaque <> []) by discriminate.
  assert (H4 : 0 <= 1 <= PAK.resource_count pak_two_opaque)
    by (vm_compute; split; discriminate).
  assert (H5 : PAK.resource_asset_type strg_resource = Ok (lit "STRG"))
    by reflexivity.
  assert (H6 : PAK.resource_packed_size strg_resource = Ok 96)
    by (vm_compute; reflexivity).
  repeat (split; [assumption|]).
  exact (insert_then_remove pak_two_opaque 1 99 strg_resource
           (lit "STRG") 96 H1 H2 H3 H4 H5 H6).
Defined.

(** ** Evaluations *)

(** C2.  Replacing the English table of [strg_two_languages] (8 bytes) by
    one of 12 bytes sets the English size to 12, but gives the French entry
    the offset 14, its own size 10 plus the difference 4, where its old
    offset 8 plus the difference is 12. *)
Theorem with_string_table_replaced_offset :
  STRGStringTable.packed_size string_table_ABC = Ok 12
  /\ map STRGLanguageTable.strings_offset (STRG.language_tables strg_two_languages) = [0; 8]
  /\ match STRG.with_string_table_replaced strg_two_languages (lit "ENGL") string_table_ABC with
     | Ok s =>
         map STRGLanguageTable.strings_size (STRG.language_tables s) = [12; 10]
         /\ map STRGLanguageTable.strings_offset (STRG.language_tables s) = [0; 14]
         /\ STRG.name_table s = STRG.name_table strg_two_languages
         /\ STRG.string_tables s
            = [string_table_ABC; STRGStringTable.mk 1 [4] [lit "AB"]]
     | Raise _ => False
     end.
Proof. vm_compute. repeat split. Qed.

(** C3.  The size that [pak_two_opaque] reports is 72, the directory with
    its padding and the 5 and 3 bytes of the resources; its encoding has
    128 bytes, each resource being padded to 32. *)
Theorem packed_size_of_pak :
  PAK.packed_size pak_two_opaque = Ok 72
  /\ (let* b := PAK.packed pak_two_opaque in Ok (len b)) = Ok 128.
Proof. vm_compute. split; reflexivity. Qed.

(** C7.  [pak_two_opaque] is what decoding its own encoding gives, and its
    offsets are those of the cascade.  Removing resource 0 moves the
    remaining entry to 91 where the cascade puts it at 64; inserting a STRG
    of 96 bytes at index 0 gives the offsets 64, 160, 192 where the
    cascade gives 96, 192, 224. *)
Theorem offset_cascade_after_edit :
  (let* b := PAK.packed pak_two_opaque in PAK.from_packed b) = Ok pak_two_opaque
  /\ cascade_offsets pak_two_opaque
     = Ok (map ResourceTable.offset (PAK.resource_tables pak_two_opaque))
  /\ match PAK.with_resource_removed pak_two_opaque 0 with
     | Ok q => map ResourceTable.offset (PAK.resource_tables q) = [91]
               /\ cascade_offsets q = Ok [64]
     | Raise _ => False
     end
  /\ match PAK.with_resource_inserted pak_two_opaque 0 1 strg_resource with
     | Ok q => map ResourceTable.offset (PAK.resource_tables q) = [64; 160; 192]
               /\ cascade_offsets q = Ok [96; 192; 224]
     | Raise _ => False
     end.
Proof. vm_compute. repeat split. Qed.

(** ** [struct] *)

Lemma length_be_bytes (n : nat) (v : Z) : length (be_bytes n v) = n.
Proof. induction n as [|n IH]; simpl; [done | by rewrite IH]. Qed.

Lemma length_pack_chars (n : nat) (b : bytes) : length (pack_chars n b) = n.
Proof.
  unfold pack_chars. rewrite length_app, length_take, length_replicate. lia.
Qed.

Lemma pack_uint_Ok (w : nat) (v : Z) (b : bytes) :
  pack_uint w v = Ok b -> 0 <= v < 256 ^ Z.of_nat w /\ b = be_bytes w v.
Proof.
  unfold pack_uint.
  destruct (Z.leb_spec 0 v), (Z.ltb_spec v (256 ^ Z.of_nat w)); simpl;
    intros [= <-] || discriminate. split; [lia | done].
Qed.

Lemma struct_pack_length (f : list fmt) (vs : list value) (b : bytes) :
  struct_pack f vs = Ok b -> length b = calcsize f.
Proof.
  unfold calcsize. revert vs b. induction f as [|i f IH]; intros vs b.
  - destruct vs; simpl; [intros [= <-]; done | discriminate].
  - destruct i; simpl.
    + destruct vs as [|[z|] vs]; try discriminate.
      intros (x & (_ & ->)%pack_uint_Ok & (r & Hr & [= <-])%bind_Ok)%bind_Ok.
      simpl. by rewrite (IH _ _ Hr).
    + destruct vs as [|[z|] vs]; try discriminate.
      intros (x & (_ & ->)%pack_uint_Ok & (r & Hr & [= <-])%bind_Ok)%bind_Ok.
      simpl. by rewrite (IH _ _ Hr).
    + destruct vs as [|[|c] vs]; try discriminate.
      intros (r & Hr & [= <-])%bind_Ok.
      rewrite length_app, length_pack_chars, (IH _ _ Hr). done.
    + intros (r & Hr & [= <-])%bind_Ok. simpl. by rewrite (IH _ _ Hr).
Qed.

Lemma struct_unpack_Ok (f : list fmt) (b : bytes) (vs : list value) :
  struct_unpack f b = Ok vs -> length b = calcsize f /\ vs = unpack_items f b.
Proof.
  unfold struct_unpack. destruct (Nat.eqb_spec (length b) (calcsize f)); [|discriminate].
  by intros [= <-].
Qed.

(** The length of a packed structure. *)
Ltac packed_len H := unfold len; rewrite (struct_pack_length _ _ _ H); reflexivity.

Lemma sumZ_app (l k : list Z) : sumZ (l ++ k) = sumZ l + sumZ k.
Proof. unfold sumZ. induction l as [|x l IH]; simpl; [done | rewrite IH; lia]. Qed.

Lemma len_concat (bs : list bytes) : len (concat bs) = sumZ (map len bs).
Proof.
  induction bs as [|b bs IH]; simpl; [done|]. rewrite len_app, IH. done.
Qed.

(** A size computed as the length of the encoding. *)
Lemma traverse_sizes {A} (packed : A -> result bytes) (l : list A)
    (bs : list bytes) :
  traverse packed l = Ok bs ->
  traverse (fun x => let* b := packed x in Ok (len b)) l = Ok (map len bs).
Proof.
  intros Hbs%traverse_Ok. apply traverse_Ok.
  induction Hbs as [|x b l bs Hx _ IH]; simpl; constructor; [|done].
  by rewrite Hx.
Qed.

(** ** The encoding of a PAK *)

Section PAKEncoding.
Context `{ExternalAssets}.

Lemma padding_size_nonneg (n : Z) : 0 <= padding_size n.
Proof. unfold padding_size. apply Z.mod_pos_bound. lia. Qed.

Lemma len_replicate {A} (n : Z) (x : A) : 0 <= n -> len (replicate (Z.to_nat n) x) = n.
Proof. intros Hn. unfold len. rewrite length_replicate. lia. Qed.

Lemma traverse_aligned (rs : list PAK.resource) :
  traverse (fun resource => let* b := PAK.resource_packed resource in
                            Ok (aligned_to_32_bytes b)) rs
  = let* payloads := traverse PAK.resource_packed rs in
    Ok (map aligned_to_32_bytes payloads).
Proof.
  induction rs as [|r rs IH]; [done|]. cbn [traverse]. rewrite IH.
  destruct (PAK.resource_packed r); [|done]. simpl.
  by destruct (traverse PAK.resource_packed rs).
Qed.

(** The parts of the encoding of a PAK. *)
Lemma pak_packed_Ok (p : PAK.t) (b : bytes) :
  PAK.packed p = Ok b ->
  exists header ns count ts payloads c,
    struct_pack PAK._struct
      [VInt (PAK.major_version p); VInt (PAK.minor_version p);
       VInt (PAK.unused p); VInt (PAK.named_resource_count p)] = Ok header
    /\ traverse NamedResourceTable.packed (PAK.named_resource_tables p) = Ok ns
    /\ pack_int (PAK.resource_count p) = Ok count
    /\ traverse ResourceTable.packed (PAK.resource_tables p) = Ok ts
    /\ traverse PAK.resource_packed (PAK.resources p) = Ok payloads
    /\ PAK.packed_content_before_resources_size p = Ok c
    /\ c = len (header ++ concat ns ++ count ++ concat ts)
    /\ b = header ++ concat ns ++ count ++ concat ts
           ++ replicate (Z.to_nat (padding_size c)) x00
           ++ concat (map aligned_to_32_bytes payloads).
Proof.
  unfold PAK.packed. rewrite traverse_aligned.
  intros (header & Hh & (ns & Hns & (count & Hc & (ts & Hts & (pd & Hpd &
            (rs & (payloads & Hpay & [= <-])%bind_Ok & [= <-])%bind_Ok)
            %bind_Ok)%bind_Ok)%bind_Ok)%bind_Ok)%bind_Ok.
  unfold PAK.packed_padding_before_resources_size in Hpd.
  apply bind_Ok in Hpd as (c & Hcs & [= <-]).
  exists header, ns, count, ts, payloads, c. repeat (split; [done|]).
  split; [|done].
  unfold PAK.packed_content_before_resources_size in Hcs.
  unfold NamedResourceTable.packed_size, ResourceTable.packed_size in Hcs.
  rewrite (traverse_sizes _ _ _ Hns), (traverse_sizes _ _ _ Hts) in Hcs.
  simpl in Hcs. injection Hcs as <-.
  assert (len header = 12) by packed_len Hh.
  assert (len count = 4) by packed_len Hc.
  rewrite !len_app, !len_concat. lia.
Qed.

(** C5, amended.  The encoding of a PAK is its directory (header, named
    entries, resource count, resource entries), then filler bytes of value
    0x00 up to a multiple of 32, then each resource's encoding followed by
    filler bytes of value 0xFF up to a multiple of 32. *)
Theorem packed_layout (p : PAK.t) (b : bytes) :
  PAK.packed p = Ok b ->
  exists header ns count ts payloads,
    struct_pack PAK._struct
      [VInt (PAK.major_version p); VInt (PAK.minor_version p);
       VInt (PAK.unused p); VInt (PAK.named_resource_count p)] = Ok header
    /\ traverse NamedResourceTable.packed (PAK.named_resource_tables p) = Ok ns
    /\ pack_int (PAK.resource_count p) = Ok count
    /\ traverse ResourceTable.packed (PAK.resource_tables p) = Ok ts
    /\ traverse PAK.resource_packed (PAK.resources p) = Ok payloads
    /\ let directory := header ++ concat ns ++ count ++ concat ts in
       b = directory
           ++ replicate (Z.to_nat (padding_size (len directory))) x00
           ++ concat (map (fun payload =>
                             payload ++ replicate
                                          (Z.to_nat (padding_size (len payload))) xff)
                        payloads).
Proof.
  intros Hb.
  destruct (pak_packed_Ok p b Hb)
    as (header & ns & count & ts & payloads & c & Hh & Hns & Hcount & Hts & Hpay
        & _ & -> & ->).
  exists header, ns, count, ts, payloads. repeat (split; [done|]).
  cbv zeta. by rewrite <- !app_assoc.
Qed.
End PAKEncoding.

Lemma packed_layout_witness :
  exists b,
    PAK.packed pak_two_opaque = Ok b
    /\ slice b 56 64 = replicate 8 x00
    /\ slice b 69 96 = replicate 27 xff
    /\ slice b 99 128 = replicate 29 xff
    /\ exists header ns count ts payloads,
    struct_pack PAK._struct
      [VInt (PAK.major_version pak_two_opaque); VInt (PAK.minor_version pak_two_opaque);
       VInt (PAK.unused pak_two_opaque);
       VInt (PAK.named_resource_count pak_two_opaque)] = Ok header
    /\ traverse NamedResourceTable.packed (PAK.named_resource_tables pak_two_opaque) = Ok ns
    /\ pack_int (PAK.resource_count pak_two_opaque) = Ok count
    /\ traverse ResourceTable.packed (PAK.resource_tables pak_two_opaque) = Ok ts
    /\ traverse PAK.resource_packed (PAK.resources pak_two_opaque) = Ok payloads
    /\ let directory := header ++ concat ns ++ count ++ concat ts in
       b = directory
           ++ replicate (Z.to_nat (padding_size (len directory))) x00
           ++ concat (map (fun payload =>
                             payload ++ replicate
                                          (Z.to_nat (padding_size (len payload))) xff)
                        payloads).
Proof.
  destruct (PAK.packed pak_two_opaque) as [b|] eqn:Hb; [|vm_compute in Hb; discriminate].
  exists b. split; [reflexivity|].
  assert (Hb' := Hb). vm_compute in Hb'. injection Hb' as <-.
  split; [vm_compute; reflexivity|]. split; [vm_compute; reflexivity|].
  split; [vm_compute; reflexivity|].
  exact (packed_layout pak_two_opaque _ Hb).
Defined.

(** C5 as stated fails on the padding after the directory: in the encoding
    of [pak_two_opaque] the directory ends at byte 56 and its 8 filler
    bytes are 0x00, not 0xFF. *)
Lemma packed_layout_counterexample :
  PAK.packed_content_before_resources_size pak_two_opaque = Ok 56
  /\ PAK.packed_padding_before_resources_size pak_two_opaque = Ok 8
  /\ match PAK.packed pak_two_opaque with
     | Ok b => slice b 56 64 = replicate 8 x00 /\ slice b 56 64 <> replicate 8 xff
     | Raise _ => False
     end.
Proof. vm_compute. repeat split. discriminate. Qed.

(** ** Decoding the resources of a PAK *)

Lemma asset_classes_lookup (tag : str) (c : asset_class) :
  PAK.asset_classes !! tag = Some c <->
  (tag, c) ∈ [(lit "DGRP", class_DGRP); (lit "DUMB", class_DUMB);
              (lit "HINT", class_HINT); (lit "SCAN", class_SCAN);
              (lit "STRG", class_STRG)].
Proof.
  unfold PAK.asset_classes. symmetry. apply elem_of_list_to_map.
  apply (bool_decide_unpack _). vm_compute. exact I.
Qed.

Lemma read_tables_resources `{ExternalAssets} (packed : bytes) (p : PAK.t) :
  PAK.from_packed packed = Ok p ->
  traverse (PAK.read_resource packed) (PAK.resource_tables p) = Ok (PAK.resources p).
Proof.
  unfold PAK.from_packed. intros (vs & (_ & ->)%struct_unpack_Ok & Hp)%bind_Ok.
  simpl in Hp.
  apply bind_Ok in Hp as ([ns off] & _ & Hp).
  apply bind_Ok in Hp as (count & _ & Hp).
  apply bind_Ok in Hp as ([ts off'] & _ & Hp).
  apply bind_Ok in Hp as (rs & Hrs & [= <-]). done.
Qed.

Section Dispatch.
Context `{ExternalAssets}.

(** C9.  In a decoded PAK every resource is what the class chosen for its
    entry decodes from the entry's payload slice, and that class is: the
    scan tree class when the identifier is 0x95B61279, whatever the type
    tag; otherwise the class that [asset_classes] gives the type tag; and
    when it gives none, [UnimplementedResource], which keeps the payload
    bytes and encodes to exactly these bytes. *)
Theorem resource_dispatch (packed : bytes) (p : PAK.t) :
  PAK.from_packed packed = Ok p ->
  Forall2
    (fun resource_table resource =>
       let asset_ID := ResourceTable.asset_ID resource_table in
       let asset_type := ResourceTable.asset_type resource_table in
       let payload :=
         slice packed (ResourceTable.offset resource_table)
           (ResourceTable.offset resource_table + ResourceTable.size resource_table) in
       (asset_ID = 2511737465 ->
        PAK.resource_from_packed class_ScanTree payload = Ok resource)
       /\ (asset_ID <> 2511737465 ->
           forall c, PAK.asset_classes !! asset_type = Some c ->
                     PAK.resource_from_packed c payload = Ok resource)
       /\ (asset_ID <> 2511737465 ->
           PAK.asset_classes !! asset_type = None ->
           resource = PAK.Unimplemented (UnimplementedResource.mk payload)
           /\ PAK.resource_packed resource = Ok payload))
    (PAK.resource_tables p) (PAK.resources p).
Proof.
  intros Hrs%read_tables_resources%traverse_Ok.
  eapply Forall2_impl; [exact Hrs|]. clear. intros rt r. cbv zeta.
  unfold PAK.read_resource, PAK.asset_class_of.
  destruct (Z.eqb_spec (ResourceTable.asset_ID rt) 2511737465) as [Hid|Hid].
  - intros Hr. repeat split; done.
  - intros Hr. split; [done|]. split.
    + intros _ c Hc. by rewrite Hc in Hr.
    + intros _ Hc. rewrite Hc in Hr. simpl in Hr. by injection Hr as <-.
Qed.
End Dispatch.

Lemma resource_dispatch_witness :
  exists b,
    PAK.packed pak_with_strg = Ok b
    /\ PAK.from_packed b = Ok pak_with_strg
    /\ Forall2
    (fun resource_table resource =>
       let asset_ID := ResourceTable.asset_ID resource_table in
       let asset_type := ResourceTable.asset_type resource_table in
       let payload :=
         slice b (ResourceTable.offset resource_table)
           (ResourceTable.offset resource_table + ResourceTable.size resource_table) in
       (asset_ID = 2511737465 ->
        PAK.resource_from_packed class_ScanTree payload = Ok resource)
       /\ (asset_ID <> 2511737465 ->
           forall c, PAK.asset_classes !! asset_type = Some c ->
                     PAK.resource_from_packed c payload = Ok resource)
       /\ (asset_ID <> 2511737465 ->
           PAK.asset_classes !! asset_type = None ->
           resource = PAK.Unimplemented (UnimplementedResource.mk payload)
           /\ PAK.resource_packed resource = Ok payload))
    (PAK.resource_tables pak_with_strg) (PAK.resources pak_with_strg).
Proof.
  destruct (PAK.packed pak_with_strg) as [b|] eqn:Hb; [|vm_compute in Hb; discriminate].
  exists b. split; [reflexivity|].
  assert (Hd : PAK.from_packed b = Ok pak_with_strg).
  { vm_compute in Hb. injection Hb as <-. vm_compute. reflexivity. }
  split; [exact Hd|].
  exact (resource_dispatch b pak_with_strg Hd).
Defined.

(** ** String tables *)

Lemma sumZ_Permutation (l k : list Z) : l ≡ₚ k -> sumZ l = sumZ k.
Proof.
  unfold sumZ. induction 1; simpl; lia.
Qed.

Lemma traverse_Permutation {A B} (f : A -> result B) (l k : list A) (ys : list B) :
  l ≡ₚ k -> traverse f l = Ok ys ->
  exists zs, traverse f k = Ok zs /\ ys ≡ₚ zs.
Proof.
  intros Hp. revert ys. induction Hp as [|x l k _ IH|x y l|l k m _ IH1 _ IH2]; intros ys; simpl.
  - intros [= <-]. by exists [].
  - intros (z & Hz & (zs & Hzs & [= <-])%bind_Ok)%bind_Ok.
    destruct (IH _ Hzs) as (zs' & -> & Hp'). rewrite Hz. simpl.
    exists (z :: zs'). split; [done | by constructor].
  - intros (z & Hz & (zs & (w & Hw & (ws & Hws & [= <-])%bind_Ok)%bind_Ok
                            & [= <-])%bind_Ok)%bind_Ok.
    rewrite Hw, Hz, Hws. simpl. exists (w :: z :: ws). split; [done | constructor].
  - intros Hys. destruct (IH1 _ Hys) as (zs & Hzs & Hp1).
    destruct (IH2 _ Hzs) as (ws & Hws & Hp2). exists ws. split; [done|].
    by etrans.
Qed.

(** The encodings of the strings of a table, in table order. *)
Lemma traverse_zip_strings (offsets : list Z) (strings : list str) (ss : list bytes) :
  length offsets = length strings ->
  traverse (fun '(_, string) => let* b := encode_utf16_be string in Ok (b ++ [x00; x00]))
    (zip offsets strings) = Ok ss <->
  exists encs, traverse encode_utf16_be strings = Ok encs
               /\ ss = map (fun e => e ++ [x00; x00]) encs.
Proof.
  revert strings ss. induction offsets as [|o os IH]; intros [|s strs] ss Hl;
    try discriminate; simpl.
  - split; [intros [= <-]; by exists [] | by intros (encs & [= <-] & ->)].
  - injection Hl as Hl. split.
    + intros (e' & (e & He & [= <-])%bind_Ok & (r & Hr & [= <-])%bind_Ok)%bind_Ok.
      apply IH in Hr as (encs & Hencs & ->); [|done].
      exists (e :: encs). by rewrite He, Hencs.
    + intros (encs & (e & He & (r & Hr & [= <-])%bind_Ok)%bind_Ok & ->).
      rewrite He. simpl.
      assert (Hr' : exists encs, traverse encode_utf16_be strs = Ok encs
                                 /\ map (fun e => e ++ [x00; x00]) r
                                    = map (fun e => e ++ [x00; x00]) encs) by eauto.
      apply IH in Hr'; [|done]. by rewrite Hr'.
Qed.

Lemma pack_offsets_Ok (n : nat) (offsets : list Z) (header : bytes) :
  struct_pack (replicate n u32) (map VInt offsets) = Ok header <->
  length offsets = n /\ Forall (fun o => 0 <= o < 2 ^ 32) offsets
  /\ header = concat (map (be_bytes 4) offsets).
Proof.
  revert offsets header. induction n as [|n IH]; intros [|o os] header; simpl.
  - split; [intros [= <-]; done | by intros (_ & _ & ->)].
  - split; [discriminate | by intros (? & _)].
  - split; [discriminate | by intros (? & _)].
  - split.
    + intros (b & (Ho & ->)%pack_uint_Ok & (r & Hr & [= <-])%bind_Ok)%bind_Ok.
      apply IH in Hr as (<- & Hos & ->). split; [done|]. split; [|done].
      constructor; [|done]. simpl in Ho. lia.
    + intros ([= Hl] & [Ho Hos]%Forall_cons & ->).
      unfold pack_uint. destruct (Z.leb_spec 0 o); [|lia].
      destruct (Z.ltb_spec o (256 ^ Z.of_nat 4)); [|simpl in *; lia]. simpl.
      assert (Hr : struct_pack (replicate n u32) (map VInt os)
                   = Ok (concat (map (be_bytes 4) os))) by (by apply IH).
      by rewrite Hr.
Qed.

Lemma len_concat_be_bytes (offsets : list Z) :
  len (concat (map (be_bytes 4) offsets)) = 4 * len offsets.
Proof.
  induction offsets as [|o os IH]; [done|].
  change (concat (map (be_bytes 4) (o :: os)))
    with (be_bytes 4 o ++ concat (map (be_bytes 4) os)).
  rewrite len_app, IH. unfold len. rewrite length_be_bytes. simpl length. lia.
Qed.

(** What it takes for a table to have an encoded size, and what the size
    is. *)
Lemma string_table_packed_size (t : STRGStringTable.t) (n : Z) :
  length (STRGStringTable.offsets t) = length (STRGStringTable.strings t) ->
  STRGStringTable.packed_size t = Ok n <->
  0 <= STRGStringTable.count t
  /\ len (STRGStringTable.offsets t) = STRGStringTable.count t
  /\ Forall (fun o => 0 <= o < 2 ^ 32) (STRGStringTable.offsets t)
  /\ exists encs,
       traverse encode_utf16_be (STRGStringTable.strings t) = Ok encs
       /\ n = 4 * len (STRGStringTable.offsets t)
              + sumZ (map (fun e => len e + 2) encs).
Proof.
  intros Hl. unfold STRGStringTable.packed_size, STRGStringTable.packed, counted_u32.
  assert (Hsum : forall encs : list bytes,
             sumZ (map len (map (fun e => e ++ [x00; x00]) encs))
             = sumZ (map (fun e => len e + 2) encs)).
  { intros encs. rewrite map_map. f_equal. apply map_ext. intros e.
    by rewrite len_app. }
  split.
  - intros (b & (f & Hf & (header & Hh & (ss & Hss & [= <-])%bind_Ok)%bind_Ok)%bind_Ok
              & [= <-])%bind_Ok.
    destruct (Z.ltb_spec (STRGStringTable.count t) 0); [discriminate|].
    injection Hf as <-. apply pack_offsets_Ok in Hh as (Hc & Hr & ->).
    destruct (traverse_Permutation _ _ (zip (STRGStringTable.offsets t)
                (STRGStringTable.strings t)) _ (merge_sort_Permutation _ _) Hss)
      as (ss' & Hss' & Hp).
    apply traverse_zip_strings in Hss' as (encs & Hencs & ->); [|done].
    split; [done|]. split; [unfold len; lia|]. split; [done|].
    exists encs. split; [done|].
    rewrite len_app, len_concat_be_bytes, len_concat. f_equal.
    rewrite <- Hsum. apply sumZ_Permutation. by apply fmap_Permutation.
  - intros (Hc & Hlc & Hr & encs & Hencs & ->).
    destruct (Z.ltb_spec (STRGStringTable.count t) 0); [lia|]. simpl.
    assert (Hh : struct_pack (replicate (Z.to_nat (STRGStringTable.count t)) u32)
                   (map VInt (STRGStringTable.offsets t))
                 = Ok (concat (map (be_bytes 4) (STRGStringTable.offsets t)))).
    { apply pack_offsets_Ok. split; [unfold len in Hlc; lia | done]. }
    rewrite Hh. simpl.
    assert (Hss : traverse
                    (fun '(_, string) =>
                       let* b := encode_utf16_be string in Ok (b ++ [x00; x00]))
                    (zip (STRGStringTable.offsets t) (STRGStringTable.strings t))
                  = Ok (map (fun e => e ++ [x00; x00]) encs)).
    { apply traverse_zip_strings; [done|]. eauto. }
    destruct (traverse_Permutation _ _ (sorted (zip (STRGStringTable.offsets t)
                (STRGStringTable.strings t))) _
                (symmetry (merge_sort_Permutation _ _)) Hss)
      as (ss' & Hss' & Hp).
    rewrite Hss'. simpl. f_equal.
    rewrite len_app, len_concat_be_bytes, len_concat. f_equal.
    rewrite <- Hsum. symmetry. apply sumZ_Permutation. by apply fmap_Permutation.
Qed.

(** C8.  In a string table with as many offsets as strings, replacing the
    string at an index in range, of encoded size [a], by one of encoded
    size [b] leaves the offsets up to that index as they are and adds
    [b - a] to every later offset; and the encoded size of the table, where
    the table has one and the shifted offsets remain unsigned 32-bit
    values, changes by exactly [b - a]. *)
Theorem with_string_replaced_accounting
    (t : STRGStringTable.t) (index : Z) (old_string new_string : str)
    (old_bytes new_bytes : bytes) :
  length (STRGStringTable.offsets t) = length (STRGStringTable.strings t) ->
  0 <= index ->
  STRGStringTable.strings t !! Z.to_nat index = Some old_string ->
  encode_utf16_be old_string = Ok old_bytes ->
  encode_utf16_be new_string = Ok new_bytes ->
  let delta := len new_bytes - len old_bytes in
  exists t',
    STRGStringTable.with_string_replaced t index new_string = Ok t'
    /\ STRGStringTable.count t' = STRGStringTable.count t
    /\ STRGStringTable.strings t'
       = <[Z.to_nat index := new_string]> (STRGStringTable.strings t)
    /\ length (STRGStringTable.offsets t') = length (STRGStringTable.offsets t)
    /\ (forall (j : nat) (o : Z),
          (j <= Z.to_nat index)%nat ->
          STRGStringTable.offsets t !! j = Some o ->
          STRGStringTable.offsets t' !! j = Some o)
    /\ (forall (j : nat) (o : Z),
          (Z.to_nat index < j)%nat ->
          STRGStringTable.offsets t !! j = Some o ->
          STRGStringTable.offsets t' !! j = Some (o + delta))
    /\ (forall n : Z,
          STRGStringTable.packed_size t = Ok n ->
          Forall (fun o => 0 <= o + delta < 2 ^ 32)
            (drop (S (Z.to_nat index)) (STRGStringTable.offsets t)) ->
          STRGStringTable.packed_size t' = Ok (n + delta)).
Proof.
  intros Hl Hi Hold Hob Hnb delta.
  apply lookup_lt_Some in Hold as Hlt.
  unfold STRGStringTable.with_string_replaced.
  rewrite Hnb. simpl. rewrite (getitem_lookup _ _ _ Hi Hold). simpl.
  rewrite Hob. simpl. fold delta.
  rewrite !slice_to_take, !slice_from_drop by lia.
  replace (Z.to_nat (index + 1)) with (S (Z.to_nat index)) by lia.
  set (i := Z.to_nat index) in *.
  eexists. split; [reflexivity|]. simpl.
  split; [done|]. split; [by rewrite insert_take_drop|].
  assert (Hlo : length (take (S i) (STRGStringTable.offsets t)) = S i).
  { rewrite length_take. lia. }
  split; [|split; [|split]].
  - rewrite length_app, length_map, <- length_app, take_drop. done.
  - intros j o Hj Ho. rewrite lookup_app_l by lia. rewrite lookup_take_lt by lia. done.
  - intros j o Hj Ho. rewrite lookup_app_r by lia. rewrite Hlo.
    rewrite list_lookup_fmap, lookup_drop.
    replace (S i + (j - S i))%nat with j by lia. by rewrite Ho.
  - intros n Hn Hshift.
    apply string_table_packed_size in Hn as (Hc & Hlc & Hr & encs & Hencs & ->); [|done].
    apply traverse_Ok in Hencs.
    destruct (Forall2_lookup_l _ _ _ _ _ Hencs Hold) as (ob & Hob' & Heq).
    rewrite Hob in Heq. injection Heq as <-.
    assert (Hlen' : length (take (S i) (STRGStringTable.offsets t)
                            ++ map (fun offset => offset + delta)
                                 (drop (S i) (STRGStringTable.offsets t)))
                    = length (STRGStringTable.offsets t)).
    { rewrite length_app, length_map, <- length_app, take_drop. done. }
    apply string_table_packed_size; simpl.
    { etrans; [exact Hlen'|]. rewrite Hl, !length_app. simpl.
      rewrite length_take, length_drop. lia. }
    split; [done|]. split; [etrans; [|exact Hlc]; unfold len; f_equal; exact Hlen'|]. split.
    { apply Forall_app. split; [by apply Forall_take | by apply Forall_fmap]. }
    exists (take i encs ++ new_bytes :: drop (S i) encs). split.
    + apply traverse_Ok. apply Forall2_app; [by apply Forall2_take|].
      constructor; [done | by apply Forall2_drop].
    + replace (len (take (S i) (STRGStringTable.offsets t)
                     ++ map (fun offset => offset + delta)
                          (drop (S i) (STRGStringTable.offsets t))))
        with (len (STRGStringTable.offsets t)) by (unfold len; f_equal; symmetry; exact Hlen').
      rewrite <- (take_drop_middle encs i old_bytes) at 1 by done.
      rewrite !map_app, !sumZ_app. simpl. unfold delta. lia.
Qed.

Lemma with_string_replaced_accounting_witness :
  let t := STRGStringTable.mk 2 [8; 12] [lit "A"; lit "BC"] in
  length (STRGStringTable.offsets t) = length (STRGStringTable.strings t)
  /\ 0 <= 0
  /\ STRGStringTable.strings t !! Z.to_nat 0 = Some (lit "A")
  /\ encode_utf16_be (lit "A") = Ok [x00; x41]
  /\ encode_utf16_be (lit "xyz") = Ok [x00; x78; x00; x79; x00; x7a]
  /\ STRGStringTable.packed_size t = Ok 18
  /\ exists t',
       STRGStringTable.with_string_replaced t 0 (lit "xyz") = Ok t'
       /\ STRGStringTable.offsets t' = [8; 16]
       /\ STRGStringTable.packed_size t' = Ok 22.
Proof.
  intros t.
  assert (H1 : length (STRGStringTable.offsets t) = length (STRGStringTable.strings t))
    by reflexivity.
  assert (H2 : 0 <= 0) by lia.
  assert (H3 : STRGStringTable.strings t !! Z.to_nat 0 = Some (lit "A")) by reflexivity.
  assert (H4 : encode_utf16_be (lit "A") = Ok [x00; x41]) by (vm_compute; reflexivity).
  assert (H5 : encode_utf16_be (lit "xyz") = Ok [x00; x78; x00; x79; x00; x7a])
    by (vm_compute; reflexivity).
  assert (H6 : STRGStringTable.packed_size t = Ok 18) by (vm_compute; reflexivity).
  repeat (split; [assumption|]).
  destruct (with_string_replaced_accounting t 0 (lit "A") (lit "xyz") _ _ H1 H2 H3 H4 H5)
    as (t' & Ht' & _ & _ & _ & _ & _ & Hsize).
  exists t'. split; [exact Ht'|].
  split; [vm_compute in Ht'; injection Ht' as <-; reflexivity|].
  apply (Hsize 18 H6). repeat constructor; cbv; discriminate.
Defined.

(** ** Bytes and integers *)

Lemma Z_of_byte_range (b : byte) : 0 <= Z_of_byte b < 256.
Proof.
  unfold Z_of_byte. pose proof (Byte.to_N_bounded b). lia.
Qed.

Lemma Z_of_byte_of_Z (v : Z) : Z_of_byte (byte_of_Z v) = v mod 256.
Proof.
  unfold Z_of_byte, byte_of_Z.
  pose proof (Z.mod_pos_bound v 256 ltac:(lia)) as Hv.
  destruct (Byte.of_N (Z.to_N (v mod 256))) as [b|] eqn:Hb; simpl.
  - apply Byte.to_of_N in Hb. rewrite Hb. lia.
  - apply Byte.of_N_None_iff in Hb. lia.
Qed.

Lemma byte_of_Z_of_byte (b : byte) : byte_of_Z (Z_of_byte b) = b.
Proof.
  unfold byte_of_Z. rewrite Z.mod_small by apply Z_of_byte_range.
  unfold Z_of_byte. rewrite N2Z.id, Byte.of_to_N. done.
Qed.

Lemma byte_of_Z_zero (v : Z) : byte_of_Z v = x00 <-> v mod 256 = 0.
Proof.
  rewrite <- Z_of_byte_of_Z. split; [by intros -> |].
  intros Hv. rewrite <- (byte_of_Z_of_byte (byte_of_Z v)), Hv. done.
Qed.

Lemma be_value_be_bytes_mod (n : nat) (v : Z) :
  be_value (be_bytes n v) = v mod 256 ^ Z.of_nat n.
Proof.
  induction n as [|n IH].
  - simpl. by rewrite Z.mod_1_r.
  - cbn [be_bytes be_value]. rewrite IH, Z_of_byte_of_Z.
    unfold len. rewrite length_be_bytes.
    replace (Z.of_nat (S n)) with (Z.of_nat n + 1) by lia.
    rewrite Z.pow_add_r, Z.pow_1_r by lia.
    rewrite (Z.rem_mul_r v (256 ^ Z.of_nat n) 256) by lia. lia.
Qed.

Lemma be_value_be_bytes (n : nat) (v : Z) :
  0 <= v < 256 ^ Z.of_nat n -> be_value (be_bytes n v) = v.
Proof. intros Hv. rewrite be_value_be_bytes_mod. by apply Z.mod_small. Qed.

(** ** [struct.unpack] after [struct.pack] *)

Lemma unpack_items_pack (f : list fmt) (vs : list value) (b : bytes) :
  struct_pack f vs = Ok b -> exact_values f vs -> unpack_items f b = vs.
Proof.
  revert vs b. induction f as [|i f IH]; intros vs b.
  - destruct vs; simpl; [done | discriminate].
  - destruct i; simpl.
    + destruct vs as [|[z|] vs]; try discriminate.
      intros (x & (Hz & ->)%pack_uint_Ok & (r & Hr & [= <-])%bind_Ok)%bind_Ok Hv.
      f_equal; [f_equal; exact (be_value_be_bytes 2 z Hz) | by apply IH].
    + destruct vs as [|[z|] vs]; try discriminate.
      intros (x & (Hz & ->)%pack_uint_Ok & (r & Hr & [= <-])%bind_Ok)%bind_Ok Hv.
      f_equal; [f_equal; exact (be_value_be_bytes 4 z Hz) | by apply IH].
    + destruct vs as [|[|c] vs]; try done.
      intros (r & Hr & [= <-])%bind_Ok [Hc Hv].
      assert (Hp : pack_chars n c = c).
      { unfold pack_chars. rewrite take_ge by lia.
        replace (n - length c)%nat with 0%nat by lia. apply app_nil_r. }
      rewrite Hp. subst n.
      by rewrite take_app_length, drop_app_length, (IH _ _ Hr Hv).
    + intros (r & Hr & [= <-])%bind_Ok Hv. simpl. rewrite drop_0. by apply IH.
Qed.

Lemma struct_unpack_pack (f : list fmt) (vs : list value) (b : bytes) :
  struct_pack f vs = Ok b -> exact_values f vs -> struct_unpack f b = Ok vs.
Proof.
  intros Hb Hv. unfold struct_unpack.
  rewrite (struct_pack_length _ _ _ Hb), Nat.eqb_refl.
  by rewrite (unpack_items_pack _ _ _ Hb Hv).
Qed.

(** ** The ASCII codec *)

Lemma encode_ascii_Ok (s : str) (b : bytes) :
  encode_ascii s = Ok b ->
  decode_ascii b = Ok s /\ length b = length s /\ (0 ∉ s -> x00 ∉ b).
Proof.
  unfold encode_ascii, decode_ascii. revert b.
  induction s as [|c s IH]; intros b; simpl.
  - intros [= <-]. split; [done|]. split; [done|]. intros _. apply not_elem_of_nil.
  - intros (x & Hx & (r & Hr & [= <-])%bind_Ok)%bind_Ok.
    destruct (Z.leb_spec 0 c), (Z.ltb_spec c 128); simpl in Hx; try discriminate.
    injection Hx as <-. destruct (IH _ Hr) as (Hd & Hl & Hz).
    assert (Hc : Z_of_byte (byte_of_Z c) = c).
    { rewrite Z_of_byte_of_Z. apply Z.mod_small. lia. }
    simpl. rewrite Hc. destruct (Z.ltb_spec c 128); [|lia]. simpl.
    rewrite Hd. simpl. split; [done|]. split; [by rewrite Hl|].
    intros Hs [Hb|Hb]%elem_of_cons.
    + apply Hs, elem_of_cons. left. rewrite <- Hc, <- Hb. done.
    + apply Hz; [|done]. intros ?. apply Hs, elem_of_cons. by right.
Qed.

(** ** The UTF-16 codec *)

Lemma utf16_units_Ok (c : Z) (us : list Z) :
  utf16_units c = Ok us ->
  Forall unit_ok us /\ (c <> 0 -> Forall (fun u => u <> 0) us)
  /\ forall rest, points_of_units (us ++ rest)
                  = let* s := points_of_units rest in Ok (c :: s).
Proof.
  unfold utf16_units, unit_ok.
  destruct (Z.leb_spec 0 c), (Z.ltb_spec c 55296); simpl.
  all: try (intros [= <-]; split; [repeat constructor; lia|];
            split; [intros; repeat constructor; lia|]; intros rest; simpl;
            unfold is_high_surrogate, is_low_surrogate;
            destruct (Z.leb_spec 55296 c), (Z.ltb_spec c 56320),
              (Z.leb_spec 56320 c), (Z.ltb_spec c 57344); simpl; done || lia).
  all: destruct (Z.leb_spec 57344 c), (Z.ltb_spec c 65536); simpl.
  all: try (intros [= <-]; split; [repeat constructor; lia|];
            split; [intros; repeat constructor; lia|]; intros rest; simpl;
            unfold is_high_surrogate, is_low_surrogate;
            destruct (Z.leb_spec 55296 c), (Z.ltb_spec c 56320),
              (Z.leb_spec 56320 c), (Z.ltb_spec c 57344); simpl; done || lia).
  all: destruct (Z.leb_spec 65536 c), (Z.ltb_spec c 1114112); simpl;
    try discriminate; try lia.
  intros [= <-].
  pose proof (Z.mod_pos_bound (c - 65536) 1024 ltac:(lia)).
  assert (0 <= (c - 65536) / 1024 < 1024).
  { split; [apply Z.div_pos; lia | apply Z.div_lt_upper_bound; lia]. }
  split; [repeat constructor; lia|]. split; [intros; repeat constructor; lia|].
  intros rest. simpl. unfold is_high_surrogate, is_low_surrogate.
  destruct (Z.leb_spec 55296 (55296 + (c - 65536) / 1024)); [|lia].
  destruct (Z.ltb_spec (55296 + (c - 65536) / 1024) 56320); [|lia].
  destruct (Z.leb_spec 56320 (56320 + (c - 65536) mod 1024)); [|lia].
  destruct (Z.ltb_spec (56320 + (c - 65536) mod 1024) 57344); [|lia].
  simpl. destruct (points_of_units rest); simpl; [|done]. do 2 f_equal.
  pose proof (Z.div_mod (c - 65536) 1024 ltac:(lia)). lia.
Qed.

Lemma units_of_bytes_unit_bytes (us : list Z) :
  Forall unit_ok us -> units_of_bytes (concat (map unit_bytes us)) = Ok us.
Proof.
  induction 1 as [|u us Hu _ IH]; [done|].
  cbn [map concat unit_bytes app units_of_bytes]. rewrite IH. simpl.
  rewrite !Z_of_byte_of_Z. do 2 f_equal. unfold unit_ok in Hu.
  rewrite (Z.mod_small (u / 256)).
  - pose proof (Z.div_mod u 256 ltac:(lia)). lia.
  - split; [apply Z.div_pos; lia | apply Z.div_lt_upper_bound; lia].
Qed.

Lemma encode_utf16_be_Ok (s : str) (e : bytes) :
  encode_utf16_be s = Ok e ->
  exists us, e = concat (map unit_bytes us) /\ Forall unit_ok us
             /\ (0 ∉ s -> Forall (fun u => u <> 0) us)
             /\ points_of_units us = Ok s.
Proof.
  unfold encode_utf16_be. intros (uss & Huss & [= <-])%bind_Ok.
  exists (concat uss). split; [done|]. revert uss Huss.
  induction s as [|c s IH]; intros uss; simpl.
  - intros [= <-]. simpl. repeat split; constructor.
  - intros (us & Hus & (r & Hr & [= <-])%bind_Ok)%bind_Ok.
    destruct (utf16_units_Ok _ _ Hus) as (Hok & Hnz & Hpts).
    destruct (IH _ Hr) as (Hok' & Hnz' & Hpts'). simpl.
    split; [by apply Forall_app|]. split.
    + intros Hs. apply Forall_app. split.
      * apply Hnz. intros ->. apply Hs, elem_of_cons. by left.
      * apply Hnz'. intros ?. apply Hs, elem_of_cons. by right.
    + by rewrite Hpts, Hpts'.
Qed.

Lemma decode_encode_utf16_be (s : str) (e : bytes) :
  encode_utf16_be s = Ok e -> decode_utf16_be e = Ok s.
Proof.
  intros (us & -> & Hok & _ & Hpts)%encode_utf16_be_Ok.
  unfold decode_utf16_be. by rewrite units_of_bytes_unit_bytes.
Qed.

Lemma units_of_bytes_odd (n : nat) (b : bytes) :
  length b = S (2 * n) -> units_of_bytes b = Raise UnicodeError.
Proof.
  revert b. induction n as [|n IH]; intros [|x [|y b]]; try discriminate; [done|].
  intros Hl. cbn [units_of_bytes]. rewrite IH; [done|]. simpl in Hl. lia.
Qed.

(** ** Slices of concatenated buffers *)

Lemma slice_from_app {A} (pre rest : list A) (o : Z) :
  o = len pre -> slice_from (pre ++ rest) o = rest.
Proof.
  intros ->. rewrite slice_from_drop by apply len_nonneg.
  unfold len. rewrite Nat2Z.id. apply drop_app_length.
Qed.

Lemma slice_to_app {A} (x rest : list A) (n : Z) :
  n = len x -> slice_to (x ++ rest) n = x.
Proof.
  intros ->. rewrite slice_to_take by apply len_nonneg.
  unfold len. rewrite Nat2Z.id. apply take_app_length.
Qed.

Lemma slice_app {A} (pre mid post : list A) (lo hi : Z) :
  lo = len pre -> hi = lo + len mid -> slice (pre ++ mid ++ post) lo hi = mid.
Proof.
  intros -> ->. pose proof (len_nonneg pre). pose proof (len_nonneg mid).
  rewrite slice_take_drop by lia. unfold len.
  rewrite Nat2Z.id, drop_app_length.
  replace (Z.to_nat _) with (length mid) by lia. apply take_app_length.
Qed.

(** A slice that asks for more than the buffer holds. *)
Lemma slice_app_end {A} (pre mid : list A) (lo hi : Z) :
  lo = len pre -> lo + len mid <= hi -> slice (pre ++ mid) lo hi = mid.
Proof.
  intros -> Hhi. pose proof (len_nonneg pre). pose proof (len_nonneg mid).
  rewrite slice_take_drop by lia. unfold len in *.
  rewrite Nat2Z.id, drop_app_length. apply take_ge. lia.
Qed.

(** ** Searching for a terminator *)

Lemma bytes_index_zero (name rest : bytes) :
  x00 ∉ name -> bytes_index [x00] (name ++ x00 :: rest) = Ok (len name).
Proof.
  induction name as [|x name IH]; intros Hz; [done|].
  cbn [app bytes_index starts_with].
  destruct (Byte.eqb x00 x) eqn:Hx.
  - apply Byte.byte_dec_bl in Hx. subst x. exfalso. apply Hz. by left.
  - simpl. rewrite IH; [|intros ?; apply Hz; by right]. simpl.
    f_equal. unfold len. simpl length. lia.
Qed.

(** In the encoding of code units other than zero, a pair of zero bytes
    before the terminator can only straddle two code units. *)
Lemma bytes_index_zeros (us : list Z) (rest : bytes) :
  Forall unit_ok us -> Forall (fun u => u <> 0) us ->
  exists k, bytes_index [x00; x00]
              (concat (map unit_bytes us) ++ x00 :: x00 :: rest) = Ok k
            /\ (k = len (concat (map unit_bytes us))
                \/ (0 <= k < len (concat (map unit_bytes us)) /\ Z.odd k = true)).
Proof.
  intros Hok Hnz. induction Hok as [|u us Hu _ IH]; simpl.
  - exists 0. split; [done | by left].
  - apply Forall_cons in Hnz as [Hu0 Hnz]. destruct (IH Hnz) as (k & Hk & Hkk).
    set (tail := concat (map unit_bytes us) ++ x00 :: x00 :: rest) in *.
    assert (Hlen : len (byte_of_Z (u / 256) :: byte_of_Z u :: concat (map unit_bytes us))
                   = len (concat (map unit_bytes us)) + 2).
    { unfold len. simpl length. lia. }
    pose proof (len_nonneg (concat (map unit_bytes us))) as Hnn.
    rewrite Hlen.
    assert (Hfirst : Byte.eqb x00 (byte_of_Z (u / 256))
                     && (Byte.eqb x00 (byte_of_Z u) && true) = false).
    { destruct (Byte.eqb x00 (byte_of_Z (u / 256))) eqn:H1; [|done].
      destruct (Byte.eqb x00 (byte_of_Z u)) eqn:H2; [|done]. exfalso.
      apply Byte.byte_dec_bl in H1, H2. symmetry in H1, H2.
      apply byte_of_Z_zero in H1, H2. unfold unit_ok in Hu.
      rewrite (Z.mod_small (u / 256)) in H1
        by (split; [apply Z.div_pos; lia | apply Z.div_lt_upper_bound; lia]).
      pose proof (Z.div_mod u 256 ltac:(lia)). lia. }
    rewrite Hfirst.
    match goal with
    | |- context [if ?c then Ok 0 else _] => destruct c eqn:Hsecond
    end.
    + exists 1. split; [done|]. right. split; [lia | done].
    + rewrite Hk. simpl. exists (k + 1 + 1). split; [done|].
      destruct Hkk as [->|[Hr Hodd]]; [left; lia|]. right. split; [lia|].
      replace (k + 1 + 1) with (2 + k) by lia.
      rewrite Z.odd_add, Hodd. done.
Qed.

(** ** Decoding what the encoder wrote: records *)

Lemma language_table_roundtrip (t : STRGLanguageTable.t) (b : bytes) :
  tag_ok (STRGLanguageTable.language_ID t) ->
  STRGLanguageTable.packed t = Ok b ->
  STRGLanguageTable.from_packed b = Ok t /\ len b = 12.
Proof.
  intros Htag. unfold STRGLanguageTable.packed.
  intros (ib & (Hd & Hl & _)%encode_ascii_Ok & Hb)%bind_Ok.
  split; [|packed_len Hb].
  unfold STRGLanguageTable.from_packed.
  rewrite (struct_unpack_pack _ _ _ Hb); [|simpl; by rewrite Hl].
  simpl. rewrite Hd. simpl. by destruct t.
Qed.

Lemma name_entry_roundtrip (e : STRGNameEntry.t) (b : bytes) :
  STRGNameEntry.packed e = Ok b ->
  STRGNameEntry.from_packed b = Ok e /\ len b = 8.
Proof.
  unfold STRGNameEntry.packed. intros Hb.
  split; [|packed_len Hb].
  unfold STRGNameEntry.from_packed.
  rewrite (struct_unpack_pack _ _ _ Hb); [|done]. simpl. by destruct e.
Qed.

Lemma resource_table_roundtrip (t : ResourceTable.t) (b : bytes) :
  tag_ok (ResourceTable.asset_type t) ->
  ResourceTable.packed t = Ok b ->
  ResourceTable.from_packed b = Ok t /\ len b = 20.
Proof.
  intros Htag. unfold ResourceTable.packed, pack_ascii.
  intros (ib & (Hd & Hl & _)%encode_ascii_Ok & Hb)%bind_Ok.
  split; [|packed_len Hb].
  unfold ResourceTable.from_packed, unpack_ascii.
  rewrite (struct_unpack_pack _ _ _ Hb); [|simpl; by rewrite Hl].
  simpl. rewrite Hd. simpl. by destruct t as [[] ? ? ? ?].
Qed.

Lemma named_resource_table_roundtrip (t : NamedResourceTable.t) (b rest : bytes) :
  wf_named_resource_table t ->
  NamedResourceTable.packed t = Ok b ->
  NamedResourceTable.from_packed (b ++ rest) = Ok t
  /\ len b = 12 + NamedResourceTable.name_length t.
Proof.
  intros [Htag Hlen]. unfold NamedResourceTable.packed, pack_ascii.
  intros (ib & (Hd & Hl & _)%encode_ascii_Ok
          & (header & Hh & (nb & (Hnd & Hnl & _)%encode_ascii_Ok
                            & [= <-])%bind_Ok)%bind_Ok)%bind_Ok.
  assert (Hhl : len header = 12) by packed_len Hh.
  assert (Hnb : len nb = NamedResourceTable.name_length t).
  { rewrite Hlen. unfold len. by rewrite Hnl. }
  split; [|rewrite len_app; lia].
  unfold NamedResourceTable.from_packed, unpack_ascii.
  rewrite <- app_assoc. rewrite slice_to_app by done.
  rewrite (struct_unpack_pack _ _ _ Hh); [|simpl; by rewrite Hl].
  simpl. rewrite Hd. simpl. rewrite slice_app by lia.
  rewrite Hnd. simpl. by destruct t.
Qed.

(** ** Decoding what the encoder wrote: sequences of records *)

Lemma read_entries_packed (es : list STRGNameEntry.t) (ebs : list bytes) :
  traverse STRGNameEntry.packed es = Ok ebs ->
  forall (pre rest : bytes) (o : Z),
    o = len pre ->
    STRGNameTable.read_entries (length es) (pre ++ concat ebs ++ rest) o = Ok es
    /\ len (concat ebs) = 8 * len es.
Proof.
  intros Hes%traverse_Ok.
  induction Hes as [|e eb es ebs [He Hl]%name_entry_roundtrip _ IH]; intros pre rest o Ho.
  - done.
  - cbn [length STRGNameTable.read_entries concat]. rewrite <- !app_assoc.
    rewrite slice_app by lia. rewrite He. simpl.
    rewrite (app_assoc pre eb).
    destruct (IH (pre ++ eb) rest (o + 8)) as [-> Hlen]; [rewrite len_app; lia|].
    split; [done|]. rewrite len_app, Hlen. unfold len in *. simpl length. lia.
Qed.

Lemma read_language_tables_packed (ts : list STRGLanguageTable.t) (tbs : list bytes) :
  Forall (fun t => tag_ok (STRGLanguageTable.language_ID t)) ts ->
  traverse STRGLanguageTable.packed ts = Ok tbs ->
  forall (pre rest : bytes) (o : Z),
    o = len pre ->
    STRG.read_language_tables (length ts) (pre ++ concat tbs ++ rest) o
    = Ok (ts, o + len (concat tbs)).
Proof.
  intros Htags Hts%traverse_Ok. revert Htags.
  induction Hts as [|t tb ts tbs Ht _ IH]; intros Htags pre rest o Ho.
  - simpl. f_equal. f_equal. unfold len. simpl. lia.
  - apply Forall_cons in Htags as [Htag Htags].
    apply language_table_roundtrip in Ht as [Ht Hl]; [|done].
    cbn [length STRG.read_language_tables concat]. rewrite <- !app_assoc.
    rewrite slice_app by lia. rewrite Ht. simpl.
    rewrite (app_assoc pre tb).
    rewrite (IH Htags (pre ++ tb) rest (o + 12)) by (rewrite len_app; lia).
    simpl. do 2 f_equal. rewrite len_app. lia.
Qed.

Lemma read_resource_tables_packed (ts : list ResourceTable.t) (tbs : list bytes) :
  Forall (fun t => tag_ok (ResourceTable.asset_type t)) ts ->
  traverse ResourceTable.packed ts = Ok tbs ->
  forall (pre rest : bytes) (o : Z),
    o = len pre ->
    PAK.read_resource_tables (length ts) (pre ++ concat tbs ++ rest) o
    = Ok (ts, o + len (concat tbs)).
Proof.
  intros Htags Hts%traverse_Ok. revert Htags.
  induction Hts as [|t tb ts tbs Ht _ IH]; intros Htags pre rest o Ho.
  - simpl. f_equal. f_equal. unfold len. simpl. lia.
  - apply Forall_cons in Htags as [Htag Htags].
    apply resource_table_roundtrip in Ht as [Ht Hl]; [|done].
    cbn [length PAK.read_resource_tables concat]. rewrite <- !app_assoc.
    rewrite slice_app by lia. rewrite Ht. simpl.
    rewrite (app_assoc pre tb).
    rewrite (IH Htags (pre ++ tb) rest (o + 20)) by (rewrite len_app; lia).
    simpl. do 2 f_equal. rewrite len_app. lia.
Qed.

Lemma read_named_resource_tables_packed
    (ts : list NamedResourceTable.t) (tbs : list bytes) :
  Forall wf_named_resource_table ts ->
  traverse NamedResourceTable.packed ts = Ok tbs ->
  forall (pre rest : bytes) (o : Z),
    o = len pre ->
    PAK.read_named_resource_tables (length ts) (pre ++ concat tbs ++ rest) o
    = Ok (ts, o + len (concat tbs)).
Proof.
  intros Hwf Hts%traverse_Ok. revert Hwf.
  induction Hts as [|t tb ts tbs Ht _ IH]; intros Hwf pre rest o Ho.
  - simpl. f_equal. f_equal. unfold len. simpl. lia.
  - apply Forall_cons in Hwf as [Hwf1 Hwf].
    cbn [length PAK.read_named_resource_tables concat]. rewrite <- !app_assoc.
    rewrite slice_from_app by done.
    destruct (named_resource_table_roundtrip t tb (concat tbs ++ rest) Hwf1 Ht)
      as [-> Hl].
    simpl. rewrite (app_assoc pre tb).
    rewrite (IH Hwf (pre ++ tb) rest) by (rewrite len_app; lia).
    simpl. do 2 f_equal. rewrite len_app. lia.
Qed.

(** ** Decoding what the encoder wrote: names and strings *)

(** Arithmetic on lengths of concatenations. *)
Ltac len_lia := rewrite ?len_app; unfold len in *; simpl length in *; lia.

Lemma read_names_packed (names : list str) (nbs : list bytes) :
  traverse (fun name => let* b := encode_ascii name in Ok (b ++ [x00])) names = Ok nbs ->
  Forall (fun name : str => 0 ∉ name) names ->
  forall (entries : list STRGNameEntry.t) (pre post : bytes) (start : Z),
    map STRGNameEntry.offset entries
    = running_offsets start (map (fun name : str => len name + 1) names) ->
    8 + start = len pre ->
    traverse (STRGNameTable.read_name (pre ++ concat nbs ++ post)) entries = Ok names
    /\ len (concat nbs) = sumZ (map (fun name : str => len name + 1) names).
Proof.
  intros Hn%traverse_Ok.
  induction Hn as [|name nb' names nbs Hnb _ IH]; intros Hz entries pre post start Ho Hpre.
  - destruct entries; [done | discriminate].
  - apply Forall_cons in Hz as [Hz Hzs].
    apply bind_Ok in Hnb as (nb & (Hd & Hl & Hnz)%encode_ascii_Ok & [= <-]).
    destruct entries as [|e entries]; [discriminate|].
    cbn [map running_offsets] in Ho. injection Ho as He Ho.
    assert (Hlen : len nb = len name) by (unfold len; by rewrite Hl).
    pose proof (len_nonneg nb) as Hnn.
    cbn [traverse concat]. unfold STRGNameTable.read_name at 1. rewrite He.
    replace (pre ++ ((nb ++ [x00]) ++ concat nbs) ++ post)
      with (pre ++ nb ++ x00 :: (concat nbs ++ post))
      by (by rewrite <- !app_assoc).
    rewrite slice_from_app by lia.
    rewrite bytes_index_zero by auto. simpl.
    destruct (Z.ltb_spec (len nb) 0); [lia|]. simpl.
    replace (pre ++ nb ++ x00 :: (concat nbs ++ post))
      with (pre ++ (nb ++ [x00]) ++ (concat nbs ++ post))
      by (by rewrite <- !app_assoc).
    rewrite slice_app by len_lia.
    unfold struct_unpack.
    assert (Hsz : (length (nb ++ [x00]) =? calcsize [chars (Z.to_nat (len nb)); pad])%nat
                  = true).
    { apply Nat.eqb_eq. rewrite length_app. unfold calcsize, len. simpl. lia. }
    rewrite Hsz. simpl. unfold len at 1. rewrite Nat2Z.id, take_app_length.
    rewrite Hd. simpl.
    rewrite (app_assoc pre (nb ++ [x00])).
    destruct (IH Hzs entries (pre ++ nb ++ [x00]) post (start + (len name + 1)) Ho)
      as [-> Hsum].
    { len_lia. }
    split; [done|]. rewrite !len_app, Hsum. len_lia.
Qed.

Lemma name_table_roundtrip (t : STRGNameTable.t) (b rest : bytes) :
  wf_name_table t ->
  STRGNameTable.packed t = Ok b ->
  STRGNameTable.from_packed (b ++ rest) = Ok t
  /\ len b = 8 + STRGNameTable.size t.
Proof.
  intros (Hce & Hcn & Hnz & Hoff & Hsize). unfold STRGNameTable.packed.
  intros (header & Hh & (es & Hes & (ns & Hns & [= <-])%bind_Ok)%bind_Ok)%bind_Ok.
  assert (Hhl : len header = 8) by packed_len Hh.
  destruct (read_entries_packed _ _ Hes header (concat ns ++ rest) 8) as [Hre Hel];
    [done|].
  destruct (read_names_packed _ _ Hns Hnz (STRGNameTable.entries t)
              (header ++ concat es) rest (8 * STRGNameTable.count t) Hoff)
    as [Hrn Hnl].
  { rewrite len_app, Hel. lia. }
  split; [|rewrite !len_app; lia].
  unfold STRGNameTable.from_packed.
  rewrite <- !app_assoc. rewrite slice_to_app by done.
  rewrite (struct_unpack_pack _ _ _ Hh); [|done]. simpl.
  replace (Z.to_nat (STRGNameTable.count t)) with (length (STRGNameTable.entries t))
    by (unfold len in Hce; lia).
  rewrite Hre. simpl. rewrite <- !app_assoc in Hrn. rewrite Hrn. simpl.
  by destruct t.
Qed.

Lemma read_string_at (s : str) (e pre post : bytes) (o : Z) (x : str) :
  encode_utf16_be s = Ok e -> 0 ∉ s -> o = len pre ->
  STRGStringTable.read_string (pre ++ e ++ x00 :: x00 :: post) o = Ok x -> x = s.
Proof.
  intros He Hz Ho. pose proof (decode_encode_utf16_be _ _ He) as Hd.
  apply encode_utf16_be_Ok in He as (us & -> & Hok & Hnz & _).
  set (e := concat (map unit_bytes us)) in *.
  unfold STRGStringTable.read_string. rewrite slice_from_app by done.
  destruct (bytes_index_zeros us post Hok (Hnz Hz)) as (k & Hk & Hkk). fold e in Hk, Hkk.
  rewrite Hk. simpl. pose proof (len_nonneg e) as Hnn. pose proof (len_nonneg pre).
  destruct (Z.ltb_spec k 0); [lia|]. simpl.
  intros (vs & (_ & ->)%struct_unpack_Ok & Hx)%bind_Ok. simpl in Hx.
  rewrite slice_take_drop in Hx by lia. subst o.
  replace (Z.to_nat (len pre)) with (length pre) in Hx by (unfold len; lia).
  rewrite drop_app_length, take_take in Hx.
  replace (Z.to_nat k `min` Z.to_nat (len pre + k + 2 - len pre))%nat
    with (Z.to_nat k) in Hx by lia.
  rewrite take_app_le in Hx by (unfold len in Hkk; lia).
  destruct Hkk as [->|[Hr Hodd]].
  - unfold len in Hx. rewrite Nat2Z.id, firstn_all in Hx. congruence.
  - exfalso. apply Z.odd_spec in Hodd as [m Hm].
    unfold decode_utf16_be in Hx.
    rewrite (units_of_bytes_odd (Z.to_nat m)) in Hx; [discriminate|].
    rewrite length_take. unfold len in Hr. lia.
Qed.

(** ** Decoding what the encoder wrote: string tables *)

Lemma traverse_emitted (l : list (Z * str)) :
  traverse (fun '(_, string) => let* b := encode_utf16_be string in Ok (b ++ [x00; x00])) l
  = let* encodings := traverse encode_utf16_be (map snd l) in
    Ok (map (fun e => e ++ [x00; x00]) encodings).
Proof.
  induction l as [|[o s] l IH]; [done|]. cbn [traverse map snd]. rewrite IH.
  destruct (encode_utf16_be s); [|done]. simpl.
  by destruct (traverse encode_utf16_be (map snd l)).
Qed.

(** Where a string sits in the emitted region. *)
Lemma emitted_chunk (l : list (Z * str)) (encodings : list bytes) (start : Z) :
  traverse encode_utf16_be (map snd l) = Ok encodings ->
  map fst l = running_offsets start (map (fun e : bytes => len e + 2) encodings) ->
  forall (o : Z) (s : str),
    (o, s) ∈ l ->
    exists e pre post,
      encode_utf16_be s = Ok e
      /\ concat (map (fun e => e ++ [x00; x00]) encodings)
         = pre ++ e ++ x00 :: x00 :: post
      /\ o = start + len pre.
Proof.
  revert encodings start. induction l as [|[o' s'] l IH]; intros encodings start.
  - intros _ _ o s Hin. by apply elem_of_nil in Hin.
  - cbn [map snd fst traverse].
    intros (e' & He' & (encs & Hencs & [= <-])%bind_Ok)%bind_Ok.
    cbn [map running_offsets]. intros [= -> Hoff] o s [[= -> ->]|Hin]%elem_of_cons.
    + exists e', [], (concat (map (fun e => e ++ [x00; x00]) encs)).
      split; [done|]. split; [cbn; by rewrite <- app_assoc | unfold len; simpl; lia].
    + destruct (IH _ _ Hencs Hoff o s Hin) as (e & pre & post & He & Hc & Ho).
      exists e, ((e' ++ [x00; x00]) ++ pre), post. split; [done|]. split.
      * cbn [map concat]. rewrite Hc. by rewrite <- !app_assoc.
      * rewrite Ho. len_lia.
Qed.

Lemma calcsize_counted (n : nat) : calcsize (replicate n u32) = (4 * n)%nat.
Proof.
  unfold calcsize. induction n as [|n IH]; [done|]. simpl in *. rewrite IH. lia.
Qed.

Lemma exact_values_counted (offsets : list Z) :
  exact_values (replicate (length offsets) u32) (map VInt offsets).
Proof. induction offsets; simpl; done. Qed.

Lemma traverse_VInt (offsets : list Z) :
  traverse (fun v => match v with VInt z => Ok z | VBytes _ => Raise TypeError end)
    (map VInt offsets) = Ok offsets.
Proof. induction offsets as [|o os IH]; [done|]. simpl. by rewrite IH. Qed.

Lemma string_table_roundtrip (n : Z) (t t' : STRGStringTable.t) (b : bytes) :
  wf_string_table n t ->
  STRGStringTable.packed t = Ok b ->
  STRGStringTable.from_packed b n = Ok t' -> t' = t.
Proof.
  intros (Hn & Hlo & Hls & Hnz & encodings & Henc & Hoff).
  unfold STRGStringTable.packed, STRGStringTable.from_packed. subst n.
  intros (f & Hf & (header & Hh & (ss & Hss & [= <-])%bind_Ok)%bind_Ok)%bind_Ok.
  rewrite Hf. simpl. unfold counted_u32 in Hf.
  destruct (Z.ltb_spec (STRGStringTable.count t) 0); [discriminate|].
  injection Hf as <-.
  replace (Z.to_nat (STRGStringTable.count t))
    with (length (STRGStringTable.offsets t)) in * by (unfold len in Hlo; lia).
  assert (Hhl : len header = 4 * STRGStringTable.count t).
  { unfold len. rewrite (struct_pack_length _ _ _ Hh), calcsize_counted.
    unfold len in Hlo. lia. }
  rewrite slice_to_app by lia.
  rewrite (struct_unpack_pack _ _ _ Hh) by apply exact_values_counted. simpl.
  rewrite traverse_VInt. simpl.
  intros (strings' & Hstr%traverse_Ok & [= <-])%bind_Ok.
  rewrite traverse_emitted in Hss. fold (sorted (zip (STRGStringTable.offsets t)
                                                   (STRGStringTable.strings t))) in Hss.
  rewrite Henc in Hss. simpl in Hss. injection Hss as <-.
  destruct t as [count offsets strings]. simpl in *. f_equal.
  apply (list_eq_same_length _ _ (length offsets)).
  - unfold len in *. lia.
  - symmetry. by eapply Forall2_length.
  - intros i x s Hi Hx Hs.
    destruct (lookup_lt_is_Some_2 offsets i Hi) as [o Ho].
    destruct (Forall2_lookup_l _ _ _ _ _ Hstr Ho) as (x' & Hx' & Hread).
    rewrite Hx in Hx'. injection Hx' as <-.
    assert (Hin : (o, s) ∈ sorted (zip offsets strings)).
    { unfold sorted. rewrite merge_sort_Permutation.
      apply (list_elem_of_lookup_2 _ i). apply lookup_zip_with_Some. eauto. }
    destruct (emitted_chunk _ _ _ Henc Hoff o s Hin) as (e & pre & post & He & Hc & Hpre).
    rewrite Hc, app_assoc in Hread.
    pose proof (Forall_lookup_1 _ _ _ _ Hnz Hs) as Hz. simpl in Hz.
    apply (read_string_at s e (header ++ pre) post o x He Hz);
      [rewrite len_app; lia | exact Hread].
Qed.

(** ** Decoding what the encoder wrote: STRG *)

Lemma lookup_map {A B} (f : A -> B) (l : list A) (i : nat) :
  map f l !! i = f <$> l !! i.
Proof. exact (list_lookup_fmap f l i). Qed.

(** Where a chunk sits when the chunks follow each other. *)
Lemma chunks_at (chunks : list bytes) (offsets : list Z) (start : Z) :
  offsets = running_offsets start (map len chunks) ->
  forall (i : nat) (o : Z) (c : bytes),
    offsets !! i = Some o -> chunks !! i = Some c ->
    exists pre post, concat chunks = pre ++ c ++ post /\ o = start + len pre.
Proof.
  revert offsets start. induction chunks as [|c' chunks IH]; intros offsets start ->.
  - intros i o c _ Hc. by rewrite lookup_nil in Hc.
  - intros [|i] o c; cbn [map running_offsets concat].
    + intros [= <-] [= <-]. exists [], (concat chunks). split; [done | len_lia].
    + intros Ho Hc. destruct (IH _ _ eq_refl i o c Ho Hc) as (pre & post & Hcc & Hoo).
      exists (c' ++ pre), post. split; [by rewrite Hcc, <- app_assoc | len_lia].
Qed.

Lemma strg_roundtrip (s s' : STRG.t) (b : bytes) :
  wf_STRG s -> STRG.packed s = Ok b -> STRG.from_packed b = Ok s' -> s' = s.
Proof.
  intros (Hlc & Htags & Hnt & Hst & Hsizes & Hoffs). unfold STRG.packed.
  intros (header & Hh & (ls & Hls & (nb & Hnb & (ss & Hss & (p & _ & [= <-])%bind_Ok)
            %bind_Ok)%bind_Ok)%bind_Ok)%bind_Ok.
  set (padding := replicate (Z.to_nat p) xff).
  assert (Hhl : len header = 16) by packed_len Hh.
  unfold STRG.from_packed. rewrite slice_to_app by done.
  rewrite (struct_unpack_pack _ _ _ Hh); [|done]. simpl.
  replace (Z.to_nat (STRG.language_count s)) with (length (STRG.language_tables s))
    by (unfold len in Hlc; lia).
  rewrite (read_language_tables_packed _ _ Htags Hls header) by done. simpl.
  rewrite (app_assoc header (concat ls)).
  rewrite slice_from_app by (rewrite len_app; lia).
  destruct (name_table_roundtrip _ _ (concat ss ++ padding) Hnt Hnb) as [-> Hnl]. simpl.
  intros (sts' & Hsts'%traverse_Ok & [= <-])%bind_Ok.
  destruct s as [magic version lcount scount lts nt sts]. simpl in *. f_equal.
  apply traverse_Ok in Hss.
  assert (Hlens : map STRGLanguageTable.strings_size lts = map len ss).
  { clear -Hsizes Hss. revert ss Hss.
    induction Hsizes as [|lt st lts sts Hsize _ IH]; intros ss Hss.
    - by inversion Hss.
    - inversion Hss as [|? sb ? ss' Hsb Hss']; subst. simpl.
      unfold STRGStringTable.packed_size in Hsize. rewrite Hsb in Hsize.
      injection Hsize as <-. f_equal. by apply IH. }
  apply (list_eq_same_length _ _ (length lts)).
  - symmetry. by eapply Forall2_length.
  - symmetry. by eapply Forall2_length.
  - intros i st' st Hi Hst' Hsti.
    destruct (lookup_lt_is_Some_2 lts i Hi) as [lt Hlt].
    destruct (Forall2_lookup_l _ _ _ _ _ Hsts' Hlt) as (st'' & Hst'' & Hread).
    rewrite Hst' in Hst''. injection Hst'' as <-.
    destruct (Forall2_lookup_l _ _ _ _ _ Hss Hsti) as (sb & Hsb & Hpacked).
    assert (Hlen : STRGLanguageTable.strings_size lt = len sb).
    { pose proof (Forall2_lookup_lr _ _ _ _ _ _ Hsizes Hlt Hsti) as Hsize.
      unfold STRGStringTable.packed_size in Hsize. simpl in Hsize.
      rewrite Hpacked in Hsize. by injection Hsize. }
    rewrite Hlens in Hoffs.
    destruct (chunks_at ss _ 0 Hoffs i (STRGLanguageTable.strings_offset lt) sb)
      as (pre & post & Hc & Ho);
      [by rewrite lookup_map, Hlt | done |].
    rewrite Hc in Hread.
    replace ((header ++ concat ls) ++ nb ++ (pre ++ sb ++ post) ++ padding)
      with ((header ++ concat ls ++ nb ++ pre) ++ sb ++ (post ++ padding)) in Hread
      by (by rewrite <- !app_assoc).
    rewrite slice_app in Hread by (rewrite ?len_app in *; lia).
    apply (string_table_roundtrip scount st st' sb); [|done..].
    eapply Forall_lookup_1; [exact Hst | exact Hsti].
Qed.

(** ** Decoding what the encoder wrote: PAK *)

Section PAKRoundtrip.
Context `{ExternalAssets}.

Lemma unpack_pack_int (v : Z) (b : bytes) : pack_int v = Ok b -> unpack_int b = Ok v.
Proof.
  unfold pack_int, unpack_int. intros Hb.
  by rewrite (struct_unpack_pack _ _ _ Hb).
Qed.

(** A resource decoded from the payload of a well-formed entry encodes to
    that payload. *)
Lemma resource_roundtrip (rt : ResourceTable.t) (r r' : PAK.resource) (payload : bytes) :
  wf_resource rt r ->
  PAK.resource_packed r = Ok payload ->
  PAK.resource_from_packed (PAK.asset_class_of rt) payload = Ok r' ->
  PAK.resource_packed r' = Ok payload.
Proof.
  intros (_ & _ & Hclass) Hp. destruct r as [u|s|x]; simpl in Hp.
  - rewrite Hclass. simpl. intros [= <-]. simpl. congruence.
  - destruct Hclass as [-> Hwf]. simpl.
    intros (s' & Hs' & [= <-])%bind_Ok.
    by rewrite (strg_roundtrip s s' payload Hwf Hp Hs').
  - destruct Hclass as (Hc1 & Hc2 & Hext).
    destruct (PAK.asset_class_of rt) eqn:Hc; try done; simpl;
      intros (x' & Hx' & [= <-])%bind_Ok; simpl; by eapply Hext.
Qed.

Lemma pak_roundtrip (p p' : PAK.t) (b : bytes) :
  wf_PAK p -> PAK.packed p = Ok b -> PAK.from_packed b = Ok p' -> PAK.packed p' = Ok b.
Proof.
  intros (Hnc & Hnwf & Hrc & Hrwf & c' & Hc' & Hoffs) Hb.
  destruct (pak_packed_Ok p b Hb)
    as (header & ns & count & ts & payloads & c & Hh & Hns & Hcount & Hts & Hpay
        & Hc & Hclen & ->).
  rewrite Hc in Hc'. injection Hc' as <-.
  set (padding := replicate (Z.to_nat (padding_size c)) x00) in *.
  set (chunks := map aligned_to_32_bytes payloads) in *.
  assert (Hhl : len header = 12) by packed_len Hh.
  assert (Hcl : len count = 4) by packed_len Hcount.
  assert (Htags : Forall (fun t => tag_ok (ResourceTable.asset_type t))
                    (PAK.resource_tables p)).
  { clear -Hrwf. induction Hrwf as [|rt r rts rs [Htag _] _ IH]; by constructor. }
  unfold PAK.from_packed. rewrite slice_to_app by done.
  rewrite (struct_unpack_pack _ _ _ Hh); [|done]. simpl.
  replace (Z.to_nat (PAK.named_resource_count p))
    with (length (PAK.named_resource_tables p)) by (unfold len in Hnc; lia).
  rewrite (read_named_resource_tables_packed _ _ Hnwf Hns header) by done. simpl.
  replace (header ++ concat ns ++ count ++ concat ts ++ padding ++ concat chunks)
    with ((header ++ concat ns) ++ count ++ (concat ts ++ padding ++ concat chunks))
    by (by rewrite <- !app_assoc).
  rewrite slice_app by (rewrite ?len_app; lia).
  rewrite (unpack_pack_int _ _ Hcount). simpl.
  replace (Z.to_nat (PAK.resource_count p))
    with (length (PAK.resource_tables p)) by (unfold len in Hrc; lia).
  replace ((header ++ concat ns) ++ count ++ (concat ts ++ padding ++ concat chunks))
    with ((header ++ concat ns ++ count) ++ concat ts ++ (padding ++ concat chunks))
    by (by rewrite <- !app_assoc).
  rewrite (read_resource_tables_packed _ _ Htags Hts) by (rewrite !len_app; lia).
  simpl. intros (rs' & Hrs'%traverse_Ok & [= <-])%bind_Ok.
  assert (Hpay' : traverse PAK.resource_packed rs' = Ok payloads).
  { apply traverse_Ok. apply traverse_Ok in Hpay.
    apply Forall2_same_length_lookup. split.
    - rewrite <- (Forall2_length _ _ _ Hrs'), (Forall2_length _ _ _ Hrwf).
      by eapply Forall2_length.
    - intros i r' payload Hr' Hpl.
      destruct (Forall2_lookup_r _ _ _ _ _ Hrs' Hr') as (rt & Hrt & Hread).
      destruct (Forall2_lookup_l _ _ _ _ _ Hrwf Hrt) as (r & Hr & Hwf).
      pose proof (Forall2_lookup_lr _ _ _ _ _ _ Hpay Hr Hpl) as Hpacked.
      simpl in Hpacked.
      assert (Hsize : ResourceTable.size rt = len payload).
      { destruct Hwf as (_ & (payload' & Hp' & Hsz) & _). congruence. }
      assert (Hlens : map (fun resource_table =>
                             ResourceTable.size resource_table
                             + padding_size (ResourceTable.size resource_table))
                        (PAK.resource_tables p) = map len chunks).
      { clear -Hrwf Hpay. subst chunks. revert payloads Hpay.
        induction Hrwf as [|rt r rts rs (_ & (pl & Hpl & Hsz) & _) _ IH];
          intros payloads Hpay.
        - by inversion Hpay.
        - inversion Hpay as [|? pl' ? pls Hpl' Hpls]; subst. simpl.
          rewrite Hpl in Hpl'. injection Hpl' as <-. f_equal; [|by apply IH].
          unfold aligned_to_32_bytes. rewrite len_app, Hsz. unfold padding_size, len.
          rewrite length_replicate.
          pose proof (Z.mod_pos_bound (32 - Z.of_nat (length pl) mod 32) 32 ltac:(lia)).
          lia. }
      rewrite Hlens in Hoffs.
      destruct (chunks_at chunks _ _ Hoffs i (ResourceTable.offset rt)
                  (aligned_to_32_bytes payload))
        as (pre & post & Hchunk & Ho).
      { by rewrite lookup_map, Hrt. }
      { subst chunks. by rewrite lookup_map, Hpl. }
      unfold PAK.read_resource in Hread. rewrite Hchunk in Hread.
      unfold aligned_to_32_bytes in Hread.
      set (filler := replicate _ xff) in Hread.
      replace ((header ++ concat ns ++ count) ++ concat ts
               ++ padding ++ pre ++ (payload ++ filler) ++ post)
        with ((header ++ concat ns ++ count ++ concat ts ++ padding ++ pre)
              ++ payload ++ (filler ++ post)) in Hread
        by (by rewrite <- !app_assoc).
      rewrite slice_app in Hread.
      + by apply (resource_roundtrip rt r r' payload).
      + rewrite Ho. subst padding.
        rewrite !len_app, len_replicate by apply padding_size_nonneg.
        rewrite !len_app in Hclen. lia.
      + lia. }
  match goal with |- PAK.packed ?q = _ => set (p' := q) end.
  assert (Hpd : PAK.packed_padding_before_resources_size p' = Ok (padding_size c)).
  { unfold PAK.packed_padding_before_resources_size.
    change (PAK.packed_content_before_resources_size p')
      with (PAK.packed_content_before_resources_size p).
    by rewrite Hc. }
  unfold PAK.packed. rewrite Hpd.
  change (PAK.named_resource_tables p') with (PAK.named_resource_tables p).
  change (PAK.resource_tables p') with (PAK.resource_tables p).
  change (PAK.resources p') with rs'.
  cbn [p' PAK.major_version PAK.minor_version PAK.unused PAK.named_resource_count
         PAK.resource_count].
  rewrite Hh, Hns, Hcount, Hts, traverse_aligned, Hpay'.
  cbn [bind]. by rewrite <- !app_assoc.
Qed.
End PAKRoundtrip.

(** ** Round trip *)

Section Roundtrip.
Context `{ExternalAssets}.

(** C4.  When the encoding of a well-formed STRG, or of a well-formed PAK,
    is decoded, the decoded value encodes to the same bytes. *)
Theorem packed_from_packed_roundtrip :
  (forall (s s' : STRG.t) (b : bytes),
      wf_STRG s -> STRG.packed s = Ok b -> STRG.from_packed b = Ok s' ->
      STRG.packed s' = Ok b)
  /\ (forall (p p' : PAK.t) (b : bytes),
         wf_PAK p -> PAK.packed p = Ok b -> PAK.from_packed b = Ok p' ->
         PAK.packed p' = Ok b).
Proof.
  split.
  - intros s s' b Hwf Hb Hs'. by rewrite (strg_roundtrip s s' b Hwf Hb Hs').
  - intros p p' b. apply pak_roundtrip.
Qed.
End Roundtrip.

(** The condition on NUL cannot be dropped: the decoder stops a string at
    its first NUL, so [strg_with_nul] decodes to a STRG with the string
    ["A"], which encodes to other bytes. *)
Remark nul_is_a_terminator :
  match STRG.packed strg_with_nul with
  | Ok b =>
      match STRG.from_packed b with
      | Ok s' =>
          map STRGStringTable.strings (STRG.string_tables s') = [[lit "A"]]
          /\ STRG.packed s' <> Ok b
      | Raise _ => False
      end
  | Raise _ => False
  end.
Proof. vm_compute. split; [reflexivity | discriminate]. Qed.

(** Decoding the encoding of a well-formed value can fail: the search for
    the terminator is byte-wise, finds the zero bytes that straddle the two
    code units of [strg_with_low_zero_byte], and the odd number of bytes
    before them is not UTF-16. *)
Remark straddling_zero_bytes :
  wf_STRG strg_with_low_zero_byte
  /\ match STRG.packed strg_with_low_zero_byte with
     | Ok b => STRG.from_packed b = Raise UnicodeError
     | Raise _ => False
     end.
Proof.
  split; [|vm_compute; reflexivity].
  split; [reflexivity|]. split; [by repeat constructor|]. split.
  { split; [reflexivity|]. split; [reflexivity|]. split; [constructor|].
    split; reflexivity. }
  split.
  { repeat constructor; try reflexivity.
    all: try (apply (bool_decide_unpack _); vm_compute; exact I).
    all: eexists; split; vm_compute; reflexivity. }
  split; [repeat constructor; vm_compute; reflexivity | reflexivity].
Qed.

Lemma wf_strg_two_languages : wf_STRG strg_two_languages.
Proof.
  split; [reflexivity|]. split; [by repeat constructor|]. split.
  { split; [reflexivity|]. split; [reflexivity|]. split.
    - apply (bool_decide_unpack _). vm_compute. exact I.
    - split; reflexivity. }
  split.
  { repeat constructor; try reflexivity.
    all: try (apply (bool_decide_unpack _); vm_compute; exact I).
    all: eexists; split; vm_compute; reflexivity. }
  split; [repeat constructor; vm_compute; reflexivity | reflexivity].
Qed.

Lemma wf_pak_with_strg : wf_PAK pak_with_strg.
Proof.
  split; [reflexivity|]. split; [by repeat constructor|]. split; [reflexivity|]. split.
  - constructor; [|constructor; [|constructor]].
    + split; [reflexivity|]. split.
      * eexists. split; [vm_compute; reflexivity | reflexivity].
      * split; [vm_compute; reflexivity | exact wf_strg_two_languages].
    + split; [reflexivity|]. split.
      * eexists. split; [vm_compute; reflexivity | reflexivity].
      * vm_compute. reflexivity.
  - eexists. split; vm_compute; reflexivity.
Qed.

Lemma packed_from_packed_roundtrip_witness :
  wf_STRG strg_two_languages
  /\ wf_PAK pak_with_strg
  /\ exists bs bp,
       STRG.packed strg_two_languages = Ok bs
       /\ STRG.from_packed bs = Ok strg_two_languages
       /\ STRG.packed strg_two_languages = Ok bs
       /\ PAK.packed pak_with_strg = Ok bp
       /\ PAK.from_packed bp = Ok pak_with_strg
       /\ PAK.packed pak_with_strg = Ok bp.
Proof.
  split; [exact wf_strg_two_languages|]. split; [exact wf_pak_with_strg|].
  assert (exists bs, STRG.packed strg_two_languages = Ok bs) as [bs Hbs]
    by (vm_compute; eauto).
  assert (exists bp, PAK.packed pak_with_strg = Ok bp) as [bp Hbp]
    by (vm_compute; eauto).
  assert (Hds : STRG.from_packed bs = Ok strg_two_languages).
  { vm_compute in Hbs. injection Hbs as <-. vm_compute. reflexivity. }
  assert (Hdp : PAK.from_packed bp = Ok pak_with_strg).
  { vm_compute in Hbp. injection Hbp as <-. vm_compute. reflexivity. }
  destruct (@packed_from_packed_roundtrip no_external_assets) as [HS HP].
  exists bs, bp. split; [exact Hbs|]. split; [exact Hds|].
  split; [exact (HS _ _ _ wf_strg_two_languages Hbs Hds)|].
  split; [exact Hbp|]. split; [exact Hdp|].
  exact (HP _ _ _ wf_pak_with_strg Hbp Hdp).
Defined.

(** ** Reported sizes *)

(** The size that a STRG reports is the length of its encoding. *)
Lemma strg_packed_size (s : STRG.t) (b : bytes) :
  STRG.packed s = Ok b -> STRG.packed_size s = Ok (len b).
Proof.
  unfold STRG.packed.
  intros (header & Hh & (ls & Hls & (nb & Hnb & (ss & Hss & (p & Hp & [= <-])%bind_Ok)
            %bind_Ok)%bind_Ok)%bind_Ok)%bind_Ok.
  unfold STRG.packed_size. rewrite Hp.
  unfold STRG.packed_padding_size in Hp. apply bind_Ok in Hp as (c & Hc & [= <-]).
  rewrite Hc. simpl. f_equal.
  unfold STRG.packed_content_size in Hc.
  unfold STRGLanguageTable.packed_size, STRGStringTable.packed_size,
    STRGNameTable.packed_size in Hc.
  rewrite (traverse_sizes _ _ _ Hls), (traverse_sizes _ _ _ Hss), Hnb in Hc.
  simpl in Hc. injection Hc as <-.
  assert (len header = 16) by packed_len Hh.
  rewrite !len_app, !len_concat, len_replicate; [lia|].
  apply Z.mod_pos_bound. lia.
Qed.

(** * Further properties of the code *)

(** ** Alignment *)

Lemma padding_size_lt (n : Z) : padding_size n < 32.
Proof. unfold padding_size. apply Z.mod_pos_bound. lia. Qed.

Lemma padding_size_aligned (n : Z) : (n + padding_size n) mod 32 = 0.
Proof.
  unfold padding_size.
  pose proof (Z.mod_pos_bound n 32 ltac:(lia)) as Hr.
  pose proof (Z.div_mod n 32 ltac:(lia)) as Hn.
  destruct (Z.eq_dec (n mod 32) 0) as [H0|H0].
  - rewrite H0. change ((32 - 0) mod 32) with 0. rewrite Z.add_0_r. exact H0.
  - rewrite (Z.mod_small (32 - n mod 32)) by lia.
    replace (n + (32 - n mod 32)) with ((n / 32 + 1) * 32) by lia.
    apply Z.mod_mul. lia.
Qed.

Lemma padding_size_zero (n : Z) : n mod 32 = 0 -> padding_size n = 0.
Proof. unfold padding_size. by intros ->. Qed.

Lemma len_aligned (b : bytes) : len (aligned_to_32_bytes b) mod 32 = 0.
Proof.
  unfold aligned_to_32_bytes. fold (padding_size (len b)).
  rewrite len_app, len_replicate by apply padding_size_nonneg.
  apply padding_size_aligned.
Qed.

(** X1.  [aligned_to_32_bytes] appends fewer than 32 bytes, all of value 0xFF,
    so that the length becomes a multiple of 32, and nothing when the
    length is one already. *)
Theorem aligned_to_32_bytes_aligned (b : bytes) :
  exists padding,
    aligned_to_32_bytes b = b ++ padding
    /\ Forall (fun x => x = xff) padding
    /\ len padding < 32
    /\ len (aligned_to_32_bytes b) mod 32 = 0
    /\ (len b mod 32 = 0 <-> aligned_to_32_bytes b = b).
Proof.
  exists (replicate (Z.to_nat (padding_size (len b))) xff).
  split; [reflexivity|]. split; [apply Forall_replicate; done|].
  rewrite len_replicate by apply padding_size_nonneg.
  split; [apply padding_size_lt|]. split; [apply len_aligned|].
  - unfold aligned_to_32_bytes. fold (padding_size (len b)). split.
    + intros H0. rewrite padding_size_zero by done. apply app_nil_r.
    + intros Heq. apply (f_equal len) in Heq.
      rewrite len_app, len_replicate in Heq by apply padding_size_nonneg.
      pose proof (padding_size_aligned (len b)) as Ha.
      replace (len b + padding_size (len b)) with (len b) in Ha by lia. done.
Qed.

(** ** Reported sizes and alignment of the containers *)

Lemma strg_packed_size_length (s : STRG.t) (b : bytes) :
  STRG.packed s = Ok b ->
  STRG.packed_size s = Ok (len b) /\ len b mod 32 = 0.
Proof.
  intros Hb. split; [by apply strg_packed_size|]. revert Hb.
  unfold STRG.packed.
  intros (header & Hh & (ls & Hls & (nb & Hnb & (ss & Hss & (p & Hp & [= <-])%bind_Ok)
            %bind_Ok)%bind_Ok)%bind_Ok)%bind_Ok.
  unfold STRG.packed_padding_size in Hp. apply bind_Ok in Hp as (c & Hc & [= <-]).
  fold (padding_size c).
  unfold STRG.packed_content_size in Hc.
  unfold STRGLanguageTable.packed_size, STRGStringTable.packed_size,
    STRGNameTable.packed_size in Hc.
  rewrite (traverse_sizes _ _ _ Hls), (traverse_sizes _ _ _ Hss), Hnb in Hc.
  simpl in Hc. injection Hc as <-.
  assert (len header = 16) by packed_len Hh.
  rewrite !len_app, !len_concat, len_replicate by apply padding_size_nonneg.
  match goal with
  | |- context [padding_size ?c] =>
      pose proof (padding_size_aligned c) as Ha;
      replace (len header + (sumZ (map len ls) + (len nb + (sumZ (map len ss)
                 + padding_size c))))
        with (c + padding_size c) by lia
  end.
  exact Ha.
Qed.

(** X2.  A STRG that encodes reports the length of its encoding, and that
    length is a multiple of 32. *)
Theorem strg_packed_size_aligned (s : STRG.t) (b : bytes) :
  STRG.packed s = Ok b ->
  STRG.packed_size s = Ok (len b) /\ len b mod 32 = 0.
Proof. intros Hb. destruct (strg_packed_size_length s b Hb). by split. Qed.

Lemma strg_packed_size_aligned_witness :
  exists b, STRG.packed strg_two_languages = Ok b
            /\ STRG.packed_size strg_two_languages = Ok (len b)
            /\ len b mod 32 = 0.
Proof.
  assert (exists b, STRG.packed strg_two_languages = Ok b) as [b Hb]
    by (vm_compute; eauto).
  exists b. split; [exact Hb|].
  exact (strg_packed_size_aligned strg_two_languages b Hb).
Defined.

Section PAKSizes.
Context `{ExternalAssets}.

End PAKSizes.


Section PAKSizeOfAligned.
Context `{ExternalAssets}.

(** X4.  A PAK whose resources are STRGs and opaque resources of a multiple of
    32 bytes reports the length of its encoding. *)
Theorem pak_packed_size_of_aligned_resources (p : PAK.t) (b : bytes) :
  PAK.packed p = Ok b ->
  Forall (fun resource =>
            match resource with
            | PAK.Unimplemented r => len (UnimplementedResource.data r) mod 32 = 0
            | PAK.Strg _ => True
            | PAK.External _ => False
            end) (PAK.resources p) ->
  PAK.packed_size p = Ok (len b).
Proof.
  intros Hb Hal.
  destruct (pak_packed_Ok p b Hb)
    as (header & ns & count & ts & payloads & c & Hh & Hns & Hcount & Hts & Hpay
        & Hc & Hclen & ->).
  assert (Hsizes : traverse PAK.resource_packed_size (PAK.resources p)
                   = Ok (map len payloads)
                   /\ len (concat (map aligned_to_32_bytes payloads))
                      = sumZ (map len payloads)).
  { apply traverse_Ok in Hpay. clear -Hpay Hal.
    induction Hpay as [|r x rs xs Hx _ IH].
    - done.
    - apply Forall_cons in Hal as [Hr Hrs]. destruct (IH Hrs) as [IH1 IH2].
      cbn [traverse map concat]. rewrite IH1, len_app, IH2.
      assert (PAK.resource_packed_size r = Ok (len x) /\ len x mod 32 = 0) as [-> H0].
      { destruct r as [u|s|e]; simpl in *; [|by apply strg_packed_size_length|done].
        injection Hx as <-. done. }
      split; [done|]. f_equal. unfold aligned_to_32_bytes.
      fold (padding_size (len x)). rewrite padding_size_zero by done.
      simpl. by rewrite app_nil_r. }
  destruct Hsizes as [Hsz Hlen].
  unfold PAK.packed_size, PAK.packed_padding_before_resources_size.
  rewrite Hsz, Hc. simpl. f_equal.
  replace (header ++ concat ns ++ count ++ concat ts
           ++ replicate (Z.to_nat (padding_size c)) x00
           ++ concat (map aligned_to_32_bytes payloads))
    with ((header ++ concat ns ++ count ++ concat ts)
          ++ replicate (Z.to_nat (padding_size c)) x00
          ++ concat (map aligned_to_32_bytes payloads))
    by (by rewrite <- !app_assoc).
  rewrite (len_app (header ++ _)), <- Hclen, len_app, len_replicate
    by apply padding_size_nonneg.
  fold (padding_size c). lia.
Qed.
End PAKSizeOfAligned.

Lemma pak_packed_size_of_aligned_resources_witness :
  exists b,
    PAK.packed pak_only_strg = Ok b
    /\ Forall (fun resource =>
                 match resource with
                 | PAK.Unimplemented r => len (UnimplementedResource.data r) mod 32 = 0
                 | PAK.Strg _ => True
                 | PAK.External _ => False
                 end) (PAK.resources pak_only_strg)
    /\ PAK.packed_size pak_only_strg = Ok (len b).
Proof.
  assert (exists b, PAK.packed pak_only_strg = Ok b) as [b Hb] by (vm_compute; eauto).
  assert (Hal : Forall (fun resource : @PAK.resource no_external_assets =>
                 match resource with
                 | PAK.Unimplemented r => len (UnimplementedResource.data r) mod 32 = 0
                 | PAK.Strg _ => True
                 | PAK.External _ => False
                 end) (PAK.resources pak_only_strg)) by (repeat constructor).
  exists b. split; [exact Hb|]. split; [exact Hal|].
  exact (pak_packed_size_of_aligned_resources pak_only_strg b Hb Hal).
Defined.

(** ** The index dictionaries and the lookups *)

Lemma index_map_snoc `{Countable K} {A} (key : A -> K) (xs : list A) (x : A) :
  index_map key (xs ++ [x]) = <[key x := len xs]> (index_map key xs).
Proof.
  unfold index_map. rewrite imap_app, fold_left_app. simpl.
  by rewrite Nat.add_0_r.
Qed.

(** The dictionary maps a key to the last position that carries it. *)
Lemma index_map_lookup `{Countable K} {A} (key : A -> K) (xs : list A) (k : K) :
  match index_map key xs !! k with
  | Some z =>
      exists (i : nat) (x : A),
        z = Z.of_nat i /\ xs !! i = Some x /\ key x = k
        /\ forall (j : nat) (y : A), (i < j)%nat -> xs !! j = Some y -> key y <> k
  | None => Forall (fun x => key x <> k) xs
  end.
Proof.
  induction xs as [|x xs IH] using rev_ind.
  - unfold index_map. simpl. rewrite lookup_empty. constructor.
  - rewrite index_map_snoc. destruct (decide (key x = k)) as [Hk|Hk].
    + subst k. rewrite lookup_insert_eq. exists (length xs), x.
      split; [done|]. split; [by rewrite lookup_app_r, Nat.sub_diag by lia|].
      split; [done|]. intros j y Hj Hy. apply lookup_lt_Some in Hy.
      rewrite length_app in Hy. simpl in Hy. lia.
    + rewrite lookup_insert_ne by done.
      destruct (index_map key xs !! k) as [z|].
      * destruct IH as (i & y & -> & Hi & Hy & Hlast). exists i, y.
        split; [done|]. split; [by apply lookup_app_l_Some|]. split; [done|].
        intros j y' Hj Hy'. apply lookup_app_Some in Hy' as [Hy'|[Hl Hy']].
        -- by eapply Hlast.
        -- apply list_lookup_singleton_Some in Hy' as [_ <-]. done.
      * apply Forall_app. split; [done|]. by constructor.
Qed.

Lemma index_map_last `{Countable K} {A} (key : A -> K) (xs : list A) (i : nat) (x : A) :
  xs !! i = Some x ->
  (forall (j : nat) (y : A), (i < j)%nat -> xs !! j = Some y -> key y <> key x) ->
  index_map key xs !! key x = Some (Z.of_nat i).
Proof.
  intros Hx Hlast. pose proof (index_map_lookup key xs (key x)) as Hm.
  destruct (index_map key xs !! key x) as [z|].
  - destruct Hm as (i' & x' & -> & Hx' & Hk & Hlast'). do 2 f_equal.
    destruct (Nat.lt_trichotomy i i') as [Hlt|[->|Hlt]]; [|done|].
    + exfalso. by eapply (Hlast i' x').
    + exfalso. by eapply (Hlast' i x).
  - exfalso. by eapply (Forall_lookup_1 _ _ _ _ Hm Hx).
Qed.

Lemma index_map_missing `{Countable K} {A} (key : A -> K) (xs : list A) (k : K) :
  index_map key xs !! k = None <-> Forall (fun x => key x <> k) xs.
Proof.
  pose proof (index_map_lookup key xs k) as Hm. split.
  - intros Hn. by rewrite Hn in Hm.
  - intros Hall. destruct (index_map key xs !! k) as [z|]; [|done].
    destruct Hm as (i & x & _ & Hx & Hk & _). exfalso.
    by eapply (Forall_lookup_1 _ _ _ _ Hall Hx).
Qed.

Lemma getitem_not_KeyError {A} (l : list A) (i : Z) : getitem l i <> Raise KeyError.
Proof.
  unfold getitem. destruct (_ && _); [|discriminate].
  destruct (_ !! _); discriminate.
Qed.

Section PAKLookup.
Context `{ExternalAssets}.

(** X5.  [get_resource_by_asset_ID] returns the resource at the position of the
    last entry that carries the identifier. *)
Theorem get_resource_by_asset_ID_last
    (p : PAK.t) (i : nat) (resource_table : ResourceTable.t) (resource : PAK.resource) :
  PAK.resource_tables p !! i = Some resource_table ->
  PAK.resources p !! i = Some resource ->
  (forall (j : nat) (later : ResourceTable.t),
      (i < j)%nat -> PAK.resource_tables p !! j = Some later ->
      ResourceTable.asset_ID later <> ResourceTable.asset_ID resource_table) ->
  PAK.get_resource_by_asset_ID p (ResourceTable.asset_ID resource_table) = Ok resource.
Proof.
  intros Ht Hr Hlast. unfold PAK.get_resource_by_asset_ID, PAK._asset_ID_to_index_map,
    dict_getitem.
  rewrite (index_map_last _ _ i resource_table Ht Hlast). simpl.
  apply getitem_lookup; [lia | by rewrite Nat2Z.id].
Qed.

(** X6.  It raises [KeyError] exactly when no entry carries the identifier, and
    never [IndexError] when every entry has a resource beside it. *)
Theorem get_resource_by_asset_ID_errors (p : PAK.t) (asset_ID : Z) :
  (PAK.get_resource_by_asset_ID p asset_ID = Raise KeyError
   <-> Forall (fun resource_table => ResourceTable.asset_ID resource_table <> asset_ID)
         (PAK.resource_tables p))
  /\ (len (PAK.resource_tables p) <= len (PAK.resources p) ->
      PAK.get_resource_by_asset_ID p asset_ID <> Raise IndexError).
Proof.
  unfold PAK.get_resource_by_asset_ID, PAK._asset_ID_to_index_map, dict_getitem.
  pose proof (index_map_lookup ResourceTable.asset_ID (PAK.resource_tables p) asset_ID)
    as Hm.
  destruct (index_map ResourceTable.asset_ID (PAK.resource_tables p) !! asset_ID)
    as [z|] eqn:Hz; simpl.
  - destruct Hm as (i & rt & -> & Hrt & Hid & _). split.
    + split.
      * intros Hg. by apply getitem_not_KeyError in Hg.
      * intros Hall. exfalso. by eapply (Forall_lookup_1 _ _ _ _ Hall Hrt).
    + intros Hlen. apply lookup_lt_Some in Hrt.
      destruct (lookup_lt_is_Some_2 (PAK.resources p) i) as [r Hr];
        [unfold len in Hlen; lia|].
      rewrite (getitem_lookup _ _ r); [discriminate | lia | by rewrite Nat2Z.id].
  - split; [|discriminate]. split; [done|]. intros _. done.
Qed.
End PAKLookup.

Lemma get_resource_by_asset_ID_last_witness :
  PAK.resource_tables pak_with_strg !! 1%nat
  = Some (ResourceTable.mk false (lit "TXTR") 17 5 192)
  /\ PAK.resources pak_with_strg !! 1%nat = Some (opaque [x01; x02; x03; x04; x05])
  /\ PAK.get_resource_by_asset_ID pak_with_strg 17
     = Ok (opaque [x01; x02; x03; x04; x05]).
Proof.
  split; [reflexivity|]. split; [reflexivity|].
  apply (get_resource_by_asset_ID_last pak_with_strg 1
           (ResourceTable.mk false (lit "TXTR") 17 5 192)); [reflexivity..|].
  intros j later Hj Hl. apply lookup_lt_Some in Hl. simpl in Hl. lia.
Defined.

(** X7.  [get_string_table_by_language_ID] returns the string table at the
    position of the last language entry with the tag. *)
Theorem get_string_table_by_language_ID_last
    (s : STRG.t) (i : nat) (language_table : STRGLanguageTable.t)
    (string_table : STRGStringTable.t) :
  STRG.language_tables s !! i = Some language_table ->
  STRG.string_tables s !! i = Some string_table ->
  (forall (j : nat) (later : STRGLanguageTable.t),
      (i < j)%nat -> STRG.language_tables s !! j = Some later ->
      STRGLanguageTable.language_ID later
      <> STRGLanguageTable.language_ID language_table) ->
  STRG.get_string_table_by_language_ID s (STRGLanguageTable.language_ID language_table)
  = Ok string_table.
Proof.
  intros Ht Hr Hlast.
  unfold STRG.get_string_table_by_language_ID, STRG._language_ID_to_index_map,
    dict_getitem.
  rewrite (index_map_last _ _ i language_table Ht Hlast). simpl.
  apply getitem_lookup; [lia | by rewrite Nat2Z.id].
Qed.

Lemma get_string_table_by_language_ID_last_witness :
  STRG.language_tables strg_two_languages !! 1%nat
  = Some (STRGLanguageTable.mk (lit "FREN") 8 10)
  /\ STRG.string_tables strg_two_languages !! 1%nat
     = Some (STRGStringTable.mk 1 [4] [lit "AB"])
  /\ STRG.get_string_table_by_language_ID strg_two_languages (lit "FREN")
     = Ok (STRGStringTable.mk 1 [4] [lit "AB"]).
Proof.
  split; [reflexivity|]. split; [reflexivity|].
  apply (get_string_table_by_language_ID_last strg_two_languages 1
           (STRGLanguageTable.mk (lit "FREN") 8 10)); [reflexivity..|].
  intros j later Hj Hl. apply lookup_lt_Some in Hl. simpl in Hl. lia.
Defined.

(** X8.  It raises [KeyError] exactly when no language entry has the tag. *)
Theorem get_string_table_by_language_ID_missing (s : STRG.t) (language_ID : str) :
  STRG.get_string_table_by_language_ID s language_ID = Raise KeyError
  <-> Forall (fun language_table =>
                STRGLanguageTable.language_ID language_table <> language_ID)
        (STRG.language_tables s).
Proof.
  unfold STRG.get_string_table_by_language_ID, STRG._language_ID_to_index_map,
    dict_getitem.
  rewrite <- index_map_missing.
  destruct (index_map STRGLanguageTable.language_ID (STRG.language_tables s)
              !! language_ID) as [z|] eqn:Hz; simpl; [|done].
  split; [|discriminate]. intros Hg. by apply getitem_not_KeyError in Hg.
Qed.

(** ** Names of strings *)

Lemma names_index_first (names : list str) (name : str) (i : nat) :
  names !! i = Some name -> name ∉ take i names ->
  STRGNameTable.names_index names name = Ok (Z.of_nat i).
Proof.
  revert i. induction names as [|n names IH]; intros [|i]; simpl; try done.
  - intros [= ->] _. by rewrite decide_True.
  - intros Hi Hnot. rewrite decide_False.
    + rewrite (IH i Hi); [simpl; f_equal; lia|].
      intros Hin. apply Hnot. by right.
    + intros ->. apply Hnot. by left.
Qed.

Lemma names_index_missing (names : list str) (name : str) :
  name ∉ names <-> STRGNameTable.names_index names name = Raise ValueError.
Proof.
  induction names as [|n names IH]; simpl.
  - split; [done|]. intros _. apply not_elem_of_nil.
  - destruct (decide (n = name)) as [->|Hne].
    + split; [|discriminate]. intros Hnot. exfalso. apply Hnot. by left.
    + rewrite not_elem_of_cons, IH.
      destruct (STRGNameTable.names_index names name) as [z|e]; simpl.
      * split; [by intros [_ ?] | discriminate].
      * split; [by intros [_ [= ->]] | intros [= ->]; by split].
Qed.

(** X9.  [get_string_index_for_name] gives the string index of the entry at the
    first position of the name. *)
Theorem get_string_index_for_name_first
    (t : STRGNameTable.t) (name : str) (i : nat) (entry : STRGNameEntry.t) :
  STRGNameTable.names t !! i = Some name ->
  name ∉ take i (STRGNameTable.names t) ->
  STRGNameTable.entries t !! i = Some entry ->
  STRGNameTable.get_string_index_for_name t name
  = Ok (STRGNameEntry.string_index entry).
Proof.
  intros Hn Hfirst He. unfold STRGNameTable.get_string_index_for_name.
  rewrite (names_index_first _ _ i Hn Hfirst). simpl.
  rewrite (getitem_lookup _ _ entry); [done | lia | by rewrite Nat2Z.id].
Qed.

Lemma get_string_index_for_name_first_witness :
  let t := STRGNameTable.mk 2 27 [STRGNameEntry.mk 16 7; STRGNameEntry.mk 22 3]
             [lit "hello"; lit "bye"] in
  STRGNameTable.names t !! 1%nat = Some (lit "bye")
  /\ (lit "bye" ∉ take 1 (STRGNameTable.names t))
  /\ STRGNameTable.entries t !! 1%nat = Some (STRGNameEntry.mk 22 3)
  /\ STRGNameTable.get_string_index_for_name t (lit "bye") = Ok 3.
Proof.
  intros t.
  assert (H2 : lit "bye" ∉ take 1 (STRGNameTable.names t)).
  { apply (bool_decide_unpack _). vm_compute. exact I. }
  split; [reflexivity|]. split; [exact H2|]. split; [reflexivity|].
  exact (get_string_index_for_name_first t (lit "bye") 1 (STRGNameEntry.mk 22 3)
           eq_refl H2 eq_refl).
Defined.

(** X10.  It raises [ValueError] exactly when the name is not in the table. *)
Theorem get_string_index_for_name_missing (t : STRGNameTable.t) (name : str) :
  STRGNameTable.get_string_index_for_name t name = Raise ValueError
  <-> name ∉ STRGNameTable.names t.
Proof.
  unfold STRGNameTable.get_string_index_for_name. rewrite names_index_missing.
  destruct (STRGNameTable.names_index (STRGNameTable.names t) name) as [z|e]; simpl.
  - split; [|discriminate]. unfold getitem. destruct (_ && _); [|discriminate].
    destruct (_ !! _); discriminate.
  - done.
Qed.

(** ** Removing, inserting and replacing resources *)

Lemma getitem_out_of_range {A} (l : list A) (i : Z) :
  len l <= i -> getitem l i = Raise IndexError.
Proof.
  intros Hi. unfold getitem. pose proof (len_nonneg l).
  destruct (Z.ltb_spec i 0); [lia|].
  destruct (Z.leb_spec 0 i), (Z.ltb_spec i (len l)); simpl; try done; lia.
Qed.

Section PAKEdits.
Context `{ExternalAssets}.

(** What [with_resource_removed] computes at an index in range. *)
Lemma with_resource_removed_Ok (p : PAK.t) (index : Z) (removed : PAK.resource) (n : Z) :
  0 <= index ->
  PAK.resources p !! Z.to_nat index = Some removed ->
  PAK.resource_packed_size removed = Ok n ->
  PAK.with_resource_removed p index
  = Ok (PAK.mk (PAK.major_version p) (PAK.minor_version p) (PAK.unused p)
          (PAK.named_resource_count p) (PAK.named_resource_tables p)
          (PAK.resource_count p - 1)
          (take (Z.to_nat index) (PAK.resource_tables p)
             ++ map (fun resource_table =>
                       ResourceTable.replace_offset resource_table
                         (ResourceTable.offset resource_table - n))
                  (drop (S (Z.to_nat index)) (PAK.resource_tables p)))
          (delete (Z.to_nat index) (PAK.resources p))).
Proof.
  intros Hi Hr Hn. unfold PAK.with_resource_removed.
  rewrite (getitem_lookup _ _ removed) by done. simpl. rewrite Hn. simpl.
  rewrite traverse_total. simpl.
  rewrite !slice_to_take, !slice_from_drop by lia.
  replace (Z.to_nat (index + 1)) with (S (Z.to_nat index)) by lia.
  by rewrite delete_take_drop.
Qed.

(** What [with_resource_inserted] computes before the end. *)
Lemma with_resource_inserted_Ok (p : PAK.t) (index asset_ID : Z) (r : PAK.resource)
    (ty : str) (n : Z) (at_index : ResourceTable.t) :
  0 <= index -> index <> PAK.resource_count p ->
  PAK.resource_tables p !! Z.to_nat index = Some at_index ->
  PAK.resource_asset_type r = Ok ty ->
  PAK.resource_packed_size r = Ok n ->
  PAK.with_resource_inserted p index asset_ID r
  = Ok (PAK.mk (PAK.major_version p) (PAK.minor_version p) (PAK.unused p)
          (PAK.named_resource_count p) (PAK.named_resource_tables p)
          (PAK.resource_count p + 1)
          (take (Z.to_nat index) (PAK.resource_tables p)
             ++ ResourceTable.mk false ty asset_ID n (ResourceTable.offset at_index)
             :: map (fun resource_table =>
                       ResourceTable.replace_offset resource_table
                         (ResourceTable.offset resource_table + n))
                  (drop (Z.to_nat index) (PAK.resource_tables p)))
          (take (Z.to_nat index) (PAK.resources p)
             ++ r :: drop (Z.to_nat index) (PAK.resources p))).
Proof.
  intros Hi Hne Hat Hty Hn. unfold PAK.with_resource_inserted.
  destruct (Z.eqb_spec index (PAK.resource_count p)); [done|].
  rewrite (getitem_lookup _ _ at_index) by done. simpl. rewrite Hty, Hn. simpl.
  rewrite traverse_total. simpl.
  by rewrite !slice_to_take, !slice_from_drop by lia.
Qed.

(** What [with_resource_inserted] computes at the end. *)
Lemma with_resource_inserted_end_Ok (p : PAK.t) (asset_ID : Z) (r : PAK.resource)
    (ty : str) (n : Z) (tables : list ResourceTable.t) (last : ResourceTable.t) :
  PAK.resource_count p = len (PAK.resource_tables p) ->
  PAK.resource_tables p = tables ++ [last] ->
  PAK.resource_asset_type r = Ok ty ->
  PAK.resource_packed_size r = Ok n ->
  PAK.with_resource_inserted p (PAK.resource_count p) asset_ID r
  = Ok (PAK.mk (PAK.major_version p) (PAK.minor_version p) (PAK.unused p)
          (PAK.named_resource_count p) (PAK.named_resource_tables p)
          (PAK.resource_count p + 1)
          (PAK.resource_tables p
             ++ [ResourceTable.mk false ty asset_ID n
                   (ResourceTable.offset last + ResourceTable.size last)])
          (take (Z.to_nat (PAK.resource_count p)) (PAK.resources p)
             ++ r :: drop (Z.to_nat (PAK.resource_count p)) (PAK.resources p))).
Proof.
  intros Hc Hts Hty Hn. unfold PAK.with_resource_inserted.
  assert (Hlast : getitem (PAK.resource_tables p) (-1) = Ok last)
    by (rewrite Hts; apply getitem_last).
  rewrite Z.eqb_refl, !Hlast. simpl.
  rewrite Hty, Hn. simpl. rewrite traverse_total. simpl.
  pose proof (len_nonneg (PAK.resource_tables p)).
  rewrite !slice_to_take, !slice_from_drop by lia.
  rewrite Hc. unfold len. rewrite Nat2Z.id, take_ge, drop_ge by lia. done.
Qed.

(** X11.  Removing the resource at an index in range drops the entry and the
    resource at that index, leaves the entries before it as they are, and
    lowers the offset of every later entry by the size the removed resource
    reports, keeping their type, identifier and size. *)
Theorem with_resource_removed_drops
    (p : PAK.t) (index : Z) (removed : PAK.resource) (n : Z) :
  0 <= index ->
  PAK.resources p !! Z.to_nat index = Some removed ->
  PAK.resource_packed_size removed = Ok n ->
  exists q,
    PAK.with_resource_removed p index = Ok q
    /\ PAK.resource_count q = PAK.resource_count p - 1
    /\ PAK.named_resource_tables q = PAK.named_resource_tables p
    /\ PAK.resources q = delete (Z.to_nat index) (PAK.resources p)
    /\ map ResourceTable.asset_ID (PAK.resource_tables q)
       = delete (Z.to_nat index) (map ResourceTable.asset_ID (PAK.resource_tables p))
    /\ map ResourceTable.size (PAK.resource_tables q)
       = delete (Z.to_nat index) (map ResourceTable.size (PAK.resource_tables p))
    /\ (forall (j : nat) (t : ResourceTable.t),
          (j < Z.to_nat index)%nat ->
          PAK.resource_tables p !! j = Some t -> PAK.resource_tables q !! j = Some t)
    /\ (forall (j : nat) (t : ResourceTable.t),
          (Z.to_nat index < j)%nat ->
          PAK.resource_tables p !! j = Some t ->
          PAK.resource_tables q !! (j - 1)%nat
          = Some (ResourceTable.replace_offset t (ResourceTable.offset t - n))).
Proof.
  intros Hi Hr Hn. eexists. split; [by apply (with_resource_removed_Ok p index removed n)|].
  simpl. set (i := Z.to_nat index). set (ts := PAK.resource_tables p).
  split; [done|]. split; [done|]. split; [done|].
  assert (Hmap : forall (A : Type) (f : ResourceTable.t -> A),
             (forall t z, f (ResourceTable.replace_offset t z) = f t) ->
             map f (take i ts ++ map (fun t => ResourceTable.replace_offset t
                                                 (ResourceTable.offset t - n))
                                   (drop (S i) ts))
             = delete i (map f ts)).
  { intros A f Hf. rewrite delete_take_drop, map_app, map_map. f_equal.
    - exact (fmap_take f i ts).
    - etrans; [|exact (fmap_drop f (S i) ts)]. apply map_ext. intros t. apply Hf. }
  split; [by apply Hmap|]. split; [by apply Hmap|]. split.
  - intros j t Hj Ht. rewrite lookup_app_l by (rewrite length_take; apply lookup_lt_Some in Ht; lia).
    by rewrite lookup_take_lt.
  - intros j t Hj Ht. apply lookup_lt_Some in Ht as Hlt.
    rewrite lookup_app_r by (rewrite length_take; lia).
    rewrite length_take, lookup_map, lookup_drop.
    replace (S i + (j - 1 - i `min` length ts))%nat with j by lia.
    by rewrite Ht.
Qed.

(** X12.  Removal at an index past the end raises [IndexError]. *)
Theorem with_resource_removed_out_of_range (p : PAK.t) (index : Z) :
  len (PAK.resources p) <= index ->
  PAK.with_resource_removed p index = Raise IndexError.
Proof.
  intros Hi. unfold PAK.with_resource_removed. by rewrite getitem_out_of_range.
Qed.
End PAKEdits.

Lemma slice_to_minus_one {A} (l : list A) (x : A) : slice_to (l ++ [x]) (-1) = l.
Proof.
  unfold slice_to, clamp. simpl. rewrite len_app.
  assert (E : Z.to_nat (Z.max 0 (-1 + (len l + len [x]))) = length l)
    by (unfold len; simpl; lia).
  rewrite E. apply take_app_length.
Qed.

Lemma length_slice_to_minus_one {A} (l : list A) :
  length (slice_to l (-1)) = (length l - 1)%nat.
Proof.
  destruct l as [|x l] using rev_ind; [done|].
  rewrite slice_to_minus_one, length_app. simpl. lia.
Qed.

Section PAKEdits2.
Context `{ExternalAssets}.

(** X13.  Index -1 is accepted, but the slice from [index + 1], that is from 0,
    is the whole tuple: removal at -1 keeps every resource, and puts all
    but the last a second time before them. *)
Theorem with_resource_removed_minus_one
    (p : PAK.t) (resources : list PAK.resource) (removed : PAK.resource) (n : Z) :
  PAK.resources p = resources ++ [removed] ->
  PAK.resource_packed_size removed = Ok n ->
  exists q,
    PAK.with_resource_removed p (-1) = Ok q
    /\ PAK.resources q = resources ++ PAK.resources p
    /\ PAK.resource_count q = PAK.resource_count p - 1
    /\ length (PAK.resource_tables q)
       = (length (PAK.resource_tables p) - 1 + length (PAK.resource_tables p))%nat.
Proof.
  intros Hrs Hn. unfold PAK.with_resource_removed.
  assert (Hget : getitem (PAK.resources p) (-1) = Ok removed)
    by (rewrite Hrs; apply getitem_last).
  rewrite Hget. simpl. rewrite Hn. simpl.
  rewrite traverse_total. simpl. eexists. split; [reflexivity|]. simpl.
  split; [|split; [done|]].
  - f_equal.
    + rewrite Hrs. apply slice_to_minus_one.
    + by rewrite slice_from_drop by lia.
  - rewrite length_app, length_map. rewrite slice_from_drop by lia. simpl.
    f_equal. apply length_slice_to_minus_one.
Qed.

(** X14.  Appending to a PAK that has a resource adds an uncompressed entry
    after all others, with the type and reported size of the resource and
    the offset where the last entry's payload ends, and looking the
    identifier up then gives the appended resource. *)
Theorem with_resource_appended_last
    (p : PAK.t) (asset_ID : Z) (r : PAK.resource) (ty : str) (n : Z)
    (tables : list ResourceTable.t) (last : ResourceTable.t) :
  PAK.resource_count p = len (PAK.resource_tables p) ->
  len (PAK.resources p) = len (PAK.resource_tables p) ->
  PAK.resource_tables p = tables ++ [last] ->
  PAK.resource_asset_type r = Ok ty ->
  PAK.resource_packed_size r = Ok n ->
  exists q,
    PAK.with_resource_appended p asset_ID r = Ok q
    /\ PAK.resource_count q = PAK.resource_count p + 1
    /\ PAK.resource_tables q
       = PAK.resource_tables p
         ++ [ResourceTable.mk false ty asset_ID n
               (ResourceTable.offset last + ResourceTable.size last)]
    /\ PAK.resources q = PAK.resources p ++ [r]
    /\ PAK.get_resource_by_asset_ID q asset_ID = Ok r.
Proof.
  intros Hc Hr Hts Hty Hn. unfold PAK.with_resource_appended.
  rewrite (with_resource_inserted_end_Ok p asset_ID r ty n tables last) by done.
  eexists. split; [reflexivity|]. simpl.
  assert (Hres : take (Z.to_nat (PAK.resource_count p)) (PAK.resources p)
                 ++ r :: drop (Z.to_nat (PAK.resource_count p)) (PAK.resources p)
                 = PAK.resources p ++ [r]).
  { rewrite take_ge, drop_ge by (unfold len in *; lia). done. }
  split; [done|]. split; [done|]. split; [done|].
  set (new := ResourceTable.mk false ty asset_ID n _).
  unfold PAK.get_resource_by_asset_ID, PAK._asset_ID_to_index_map, dict_getitem. simpl.
  rewrite (index_map_last ResourceTable.asset_ID _ (length (PAK.resource_tables p)) new).
  - simpl. apply getitem_lookup; [lia|]. rewrite Nat2Z.id, Hres.
    rewrite lookup_app_r by (unfold len in *; lia).
    replace (length (PAK.resource_tables p) - length (PAK.resources p))%nat
      with 0%nat by (unfold len in *; lia). done.
  - by rewrite lookup_app_r, Nat.sub_diag by lia.
  - intros j y Hj Hy. apply lookup_lt_Some in Hy. rewrite length_app in Hy.
    simpl in Hy. lia.
Qed.

(** X15.  Inserting before an existing entry puts an uncompressed entry with the
    offset of that entry at the index, leaves the entries before it as they
    are, and moves every entry from the index on one place up, its offset
    raised by the size the new resource reports. *)
Theorem with_resource_inserted_shifts
    (p : PAK.t) (index asset_ID : Z) (r : PAK.resource) (ty : str) (n : Z)
    (at_index : ResourceTable.t) :
  0 <= index -> index <> PAK.resource_count p ->
  PAK.resource_tables p !! Z.to_nat index = Some at_index ->
  (Z.to_nat index <= length (PAK.resources p))%nat ->
  PAK.resource_asset_type r = Ok ty ->
  PAK.resource_packed_size r = Ok n ->
  exists q,
    PAK.with_resource_inserted p index asset_ID r = Ok q
    /\ PAK.resource_count q = PAK.resource_count p + 1
    /\ PAK.resources q !! Z.to_nat index = Some r
    /\ delete (Z.to_nat index) (PAK.resources q) = PAK.resources p
    /\ PAK.resource_tables q !! Z.to_nat index
       = Some (ResourceTable.mk false ty asset_ID n (ResourceTable.offset at_index))
    /\ (forall (j : nat) (t : ResourceTable.t),
          (j < Z.to_nat index)%nat ->
          PAK.resource_tables p !! j = Some t -> PAK.resource_tables q !! j = Some t)
    /\ (forall (j : nat) (t : ResourceTable.t),
          (Z.to_nat index <= j)%nat ->
          PAK.resource_tables p !! j = Some t ->
          PAK.resource_tables q !! S j
          = Some (ResourceTable.replace_offset t (ResourceTable.offset t + n))).
Proof.
  intros Hi Hne Hat Hlen Hty Hn.
  rewrite (with_resource_inserted_Ok p index asset_ID r ty n at_index) by done.
  eexists. split; [reflexivity|]. simpl.
  set (i := Z.to_nat index) in *. apply lookup_lt_Some in Hat as Hlt.
  assert (Hlt1 : length (take i (PAK.resource_tables p)) = i)
    by (rewrite length_take; lia).
  assert (Hlt2 : length (take i (PAK.resources p)) = i)
    by (rewrite length_take; lia).
  split; [done|]. split; [by rewrite list_lookup_middle|]. split.
  { rewrite delete_take_drop, take_app_length' by done.
    rewrite cons_middle, app_assoc.
    rewrite (drop_app_length' _ _ (S i)) by (rewrite length_app; simpl; lia).
    apply take_drop. }
  split; [by rewrite list_lookup_middle|]. split.
  - intros j t Hj Ht. rewrite lookup_app_l by lia. by rewrite lookup_take_lt.
  - intros j t Hj Ht. rewrite lookup_app_r by lia. rewrite Hlt1.
    replace (S j - i)%nat with (S (j - i)) by lia. simpl.
    rewrite lookup_map, lookup_drop.
    replace (i + (j - i))%nat with j by lia. by rewrite Ht.
Qed.
End PAKEdits2.

Lemma with_resource_removed_drops_witness :
  0 <= 0
  /\ PAK.resources pak_two_opaque !! Z.to_nat 0 = Some (opaque [x01; x02; x03; x04; x05])
  /\ PAK.resource_packed_size (opaque (H:=no_external_assets) [x01; x02; x03; x04; x05])
     = Ok 5
  /\ exists q,
       PAK.with_resource_removed pak_two_opaque 0 = Ok q
       /\ PAK.resources q = [opaque [x0a; x0b; x0c]]
       /\ PAK.resource_tables q = [ResourceTable.mk false (lit "PART") 18 3 91].
Proof.
  assert (H1 : 0 <= 0) by lia.
  assert (H2 : PAK.resources pak_two_opaque !! Z.to_nat 0
               = Some (opaque [x01; x02; x03; x04; x05])) by reflexivity.
  assert (H3 : PAK.resource_packed_size
                 (opaque (H:=no_external_assets) [x01; x02; x03; x04; x05]) = Ok 5)
    by reflexivity.
  split; [exact H1|]. split; [exact H2|]. split; [exact H3|].
  destruct (with_resource_removed_drops pak_two_opaque 0 _ 5 H1 H2 H3)
    as (q & Hq & _).
  exists q. split; [exact Hq|].
  vm_compute in Hq. injection Hq as <-. split; reflexivity.
Defined.

Lemma with_resource_removed_out_of_range_witness :
  len (PAK.resources pak_two_opaque) <= 2
  /\ PAK.with_resource_removed pak_two_opaque 2 = Raise IndexError.
Proof.
  assert (H1 : len (PAK.resources pak_two_opaque) <= 2) by (vm_compute; discriminate).
  split; [exact H1|]. exact (with_resource_removed_out_of_range pak_two_opaque 2 H1).
Defined.

Lemma with_resource_removed_minus_one_witness :
  PAK.resources pak_two_opaque
  = [opaque [x01; x02; x03; x04; x05]] ++ [opaque [x0a; x0b; x0c]]
  /\ PAK.resource_packed_size (opaque (H:=no_external_assets) [x0a; x0b; x0c]) = Ok 3
  /\ exists q,
       PAK.with_resource_removed pak_two_opaque (-1) = Ok q
       /\ PAK.resources q
          = [opaque [x01; x02; x03; x04; x05]] ++ PAK.resources pak_two_opaque
       /\ length (PAK.resource_tables q) = 3%nat.
Proof.
  assert (H1 : PAK.resources pak_two_opaque
               = [opaque [x01; x02; x03; x04; x05]] ++ [opaque [x0a; x0b; x0c]])
    by reflexivity.
  assert (H2 : PAK.resource_packed_size (opaque (H:=no_external_assets) [x0a; x0b; x0c])
               = Ok 3) by reflexivity.
  split; [exact H1|]. split; [exact H2|].
  destruct (with_resource_removed_minus_one pak_two_opaque _ _ 3 H1 H2)
    as (q & Hq & Hres & _ & Hlen).
  exists q. split; [exact Hq|]. split; [exact Hres|]. exact Hlen.
Defined.

Lemma with_resource_appended_last_witness :
  PAK.resource_count pak_two_opaque = len (PAK.resource_tables pak_two_opaque)
  /\ len (PAK.resources pak_two_opaque) = len (PAK.resource_tables pak_two_opaque)
  /\ PAK.resource_tables pak_two_opaque
     = [ResourceTable.mk false (lit "TXTR") 17 5 64]
       ++ [ResourceTable.mk false (lit "PART") 18 3 96]
  /\ PAK.resource_asset_type strg_resource = Ok (lit "STRG")
  /\ PAK.resource_packed_size strg_resource = Ok 96
  /\ exists q,
       PAK.with_resource_appended pak_two_opaque 18 strg_resource = Ok q
       /\ PAK.resource_count q = 3
       /\ PAK.resource_tables q !! 2%nat
          = Some (ResourceTable.mk false (lit "STRG") 18 96 99)
       /\ PAK.get_resource_by_asset_ID q 18 = Ok strg_resource.
Proof.
  assert (H1 : PAK.resource_count pak_two_opaque
               = len (PAK.resource_tables pak_two_opaque)) by reflexivity.
  assert (H2 : len (PAK.resources pak_two_opaque)
               = len (PAK.resource_tables pak_two_opaque)) by reflexivity.
  assert (H3 : PAK.resource_tables pak_two_opaque
               = [ResourceTable.mk false (lit "TXTR") 17 5 64]
                 ++ [ResourceTable.mk false (lit "PART") 18 3 96]) by reflexivity.
  assert (H4 : PAK.resource_asset_type strg_resource = Ok (lit "STRG")) by reflexivity.
  assert (H5 : PAK.resource_packed_size strg_resource = Ok 96)
    by (vm_compute; reflexivity).
  repeat (split; [assumption|]).
  destruct (with_resource_appended_last pak_two_opaque 18 strg_resource _ _ _ _
              H1 H2 H3 H4 H5) as (q & Hq & Hc & Hts & _ & Hget).
  exists q. split; [exact Hq|]. split; [rewrite Hc; reflexivity|].
  split; [rewrite Hts; reflexivity | exact Hget].
Defined.

Lemma with_resource_inserted_shifts_witness :
  0 <= 1
  /\ 1 <> PAK.resource_count pak_two_opaque
  /\ PAK.resource_tables pak_two_opaque !! Z.to_nat 1
     = Some (ResourceTable.mk false (lit "PART") 18 3 96)
  /\ (Z.to_nat 1 <= length (PAK.resources pak_two_opaque))%nat
  /\ PAK.resource_asset_type strg_resource = Ok (lit "STRG")
  /\ PAK.resource_packed_size strg_resource = Ok 96
  /\ exists q,
       PAK.with_resource_inserted pak_two_opaque 1 7 strg_resource = Ok q
       /\ PAK.resource_tables q
          = [ResourceTable.mk false (lit "TXTR") 17 5 64;
             ResourceTable.mk false (lit "STRG") 7 96 96;
             ResourceTable.mk false (lit "PART") 18 3 192].
Proof.
  assert (H1 : 0 <= 1) by lia.
  assert (H2 : 1 <> PAK.resource_count pak_two_opaque) by discriminate.
  assert (H3 : PAK.resource_tables pak_two_opaque !! Z.to_nat 1
               = Some (ResourceTable.mk false (lit "PART") 18 3 96)) by reflexivity.
  assert (H4 : (Z.to_nat 1 <= length (PAK.resources pak_two_opaque))%nat)
    by (vm_compute; lia).
  assert (H5 : PAK.resource_asset_type strg_resource = Ok (lit "STRG")) by reflexivity.
  assert (H6 : PAK.resource_packed_size strg_resource = Ok 96)
    by (vm_compute; reflexivity).
  repeat (split; [assumption|]).
  destruct (with_resource_inserted_shifts pak_two_opaque 1 7 strg_resource _ _ _
              H1 H2 H3 H4 H5 H6) as (q & Hq & _).
  exists q. split; [exact Hq|].
  vm_compute in Hq. injection Hq as <-. reflexivity.
Defined.

Section PAKReplace.
Context `{ExternalAssets}.

(** X16.  Replacing the only resource of a PAK raises [IndexError]: the removal
    leaves no entry, and the insertion at the end reads the last one. *)
Theorem with_resource_replaced_only_resource
    (p : PAK.t) (resource_table : ResourceTable.t) (resource new_resource : PAK.resource) :
  PAK.resource_count p = 1 ->
  PAK.resource_tables p = [resource_table] ->
  PAK.resources p = [resource] ->
  PAK.with_resource_replaced p 0 new_resource = Raise IndexError
  /\ PAK.with_resource_replaced_by_asset_ID p (ResourceTable.asset_ID resource_table)
       new_resource = Raise IndexError.
Proof.
  intros Hc Hts Hrs.
  assert (Hrem : exists q, PAK.with_resource_removed p 0 = Ok q
                           /\ PAK.resource_count q = 0 /\ PAK.resource_tables q = []).
  { unfold PAK.with_resource_removed. rewrite Hrs, Hts, Hc. simpl.
    eexists. split; [reflexivity|]. done. }
  destruct Hrem as (q & Hq & Hqc & Hqt).
  assert (Hins : forall asset_ID,
             PAK.with_resource_inserted q 0 asset_ID new_resource = Raise IndexError).
  { intros asset_ID. unfold PAK.with_resource_inserted.
    by rewrite Hqc, Hqt, getitem_nil. }
  split.
  - unfold PAK.with_resource_replaced. rewrite Hts at 1. simpl. rewrite Hq. simpl. apply Hins.
  - assert (Hmap : PAK._asset_ID_to_index_map p !! ResourceTable.asset_ID resource_table
                   = Some 0).
    { unfold PAK._asset_ID_to_index_map, index_map. rewrite Hts. simpl.
      apply lookup_insert_eq. }
    unfold PAK.with_resource_replaced_by_asset_ID, dict_getitem.
    rewrite Hmap. cbn [bind]. rewrite Hq. cbn [bind]. apply Hins.
Qed.

(** X17.  Replacement by identifier resolves the identifier and then does what
    replacement at that index does, with [KeyError] for an identifier that
    no entry carries. *)
Theorem with_resource_replaced_by_asset_ID_resolves
    (p : PAK.t) (asset_ID : Z) (new_resource : PAK.resource) :
  match PAK._asset_ID_to_index_map p !! asset_ID with
  | Some index =>
      PAK.with_resource_replaced_by_asset_ID p asset_ID new_resource
      = PAK.with_resource_replaced p index new_resource
  | None =>
      PAK.with_resource_replaced_by_asset_ID p asset_ID new_resource = Raise KeyError
      /\ Forall (fun resource_table => ResourceTable.asset_ID resource_table <> asset_ID)
           (PAK.resource_tables p)
  end.
Proof.
  unfold PAK.with_resource_replaced_by_asset_ID, PAK.with_resource_replaced,
    PAK._asset_ID_to_index_map, dict_getitem.
  pose proof (index_map_lookup ResourceTable.asset_ID (PAK.resource_tables p) asset_ID)
    as Hm.
  destruct (index_map ResourceTable.asset_ID (PAK.resource_tables p) !! asset_ID)
    as [z|]; simpl; [|done].
  destruct Hm as (i & rt & -> & Hrt & <- & _).
  rewrite (getitem_lookup _ _ rt); [done | lia | by rewrite Nat2Z.id].
Qed.

(** X18.  Replacing a resource that is not the last keeps the number of
    resources and the identifier, puts the new resource in the place of the
    old one, and gives its entry the type and reported size of the new
    resource; the entries before it stay as they are, and every later entry
    keeps type, identifier and size while its offset moves by the
    difference of the reported sizes.  The offset of the replaced entry is
    that of the next entry less the old reported size. *)
Theorem with_resource_replaced_in_place
    (p : PAK.t) (index : Z) (old_table next_table : ResourceTable.t)
    (old new_resource : PAK.resource) (m n : Z) (ty : str) :
  0 <= index -> index <> PAK.resource_count p - 1 ->
  PAK.resource_tables p !! Z.to_nat index = Some old_table ->
  PAK.resource_tables p !! S (Z.to_nat index) = Some next_table ->
  PAK.resources p !! Z.to_nat index = Some old ->
  PAK.resource_packed_size old = Ok m ->
  PAK.resource_asset_type new_resource = Ok ty ->
  PAK.resource_packed_size new_resource = Ok n ->
  exists q,
    PAK.with_resource_replaced p index new_resource = Ok q
    /\ PAK.resource_count q = PAK.resource_count p
    /\ PAK.resources q = <[Z.to_nat index := new_resource]> (PAK.resources p)
    /\ PAK.resource_tables q !! Z.to_nat index
       = Some (ResourceTable.mk false ty (ResourceTable.asset_ID old_table) n
                 (ResourceTable.offset next_table - m))
    /\ (forall (j : nat) (t : ResourceTable.t),
          (j < Z.to_nat index)%nat ->
          PAK.resource_tables p !! j = Some t -> PAK.resource_tables q !! j = Some t)
    /\ (forall (j : nat) (t : ResourceTable.t),
          (Z.to_nat index < j)%nat ->
          PAK.resource_tables p !! j = Some t ->
          PAK.resource_tables q !! j
          = Some (ResourceTable.replace_offset t (ResourceTable.offset t - m + n))).
Proof.
  intros Hi Hne Hold Hnext Hres Hm Hty Hn.
  unfold PAK.with_resource_replaced.
  rewrite (getitem_lookup _ _ old_table) by done. simpl.
  rewrite (with_resource_removed_Ok p index old m) by done. simpl.
  set (i := Z.to_nat index) in *.
  set (ts := PAK.resource_tables p) in *. set (rs := PAK.resources p) in *.
  apply lookup_lt_Some in Hold as Hlt. apply lookup_lt_Some in Hres as Hlt'.
  assert (Hli : length (take i ts) = i) by (rewrite length_take; lia).
  set (shift := fun t => ResourceTable.replace_offset t (ResourceTable.offset t - m)).
  assert (Hd : drop (S i) ts = next_table :: drop (S (S i)) ts)
    by (by apply drop_S).
  set (p1 := PAK.mk _ _ _ _ _ _ _ _).
  assert (Hat : PAK.resource_tables p1 !! i = Some (shift next_table)).
  { subst p1. simpl. fold shift. rewrite lookup_app_r by lia.
    rewrite Hli, Nat.sub_diag, Hd. done. }
  assert (Hne' : index <> PAK.resource_count p1) by (subst p1; simpl; lia).
  rewrite (with_resource_inserted_Ok p1 index (ResourceTable.asset_ID old_table)
             new_resource ty n (shift next_table) Hi Hne' Hat Hty Hn).
  eexists. split; [reflexivity|]. subst p1. simpl. fold i shift.
  rewrite !take_app_length', !(drop_app_length' _ _ i) by done.
  assert (Hlr : length (take i rs) = i) by (rewrite length_take; lia).
  split; [lia|]. split.
  { rewrite delete_take_drop. rewrite take_app_length' by done.
    rewrite (drop_app_length' _ _ i) by done. symmetry. apply insert_take_drop. lia. }
  split; [by rewrite list_lookup_middle|]. split.
  - intros j t Hj Ht. rewrite lookup_app_l by lia. by rewrite lookup_take_lt.
  - intros j t Hj Ht. rewrite lookup_app_r by lia. rewrite Hli.
    destruct (j - i)%nat as [|k] eqn:Hk; [lia|]. simpl.
    rewrite !lookup_map, lookup_drop.
    replace (S i + k)%nat with j by lia. rewrite Ht. simpl. by f_equal.
Qed.
End PAKReplace.

Lemma with_resource_replaced_only_resource_witness :
  PAK.resource_count pak_only_strg = 1
  /\ PAK.resource_tables pak_only_strg = [ResourceTable.mk false (lit "STRG") 1 96 64]
  /\ PAK.resources pak_only_strg = [strg_resource]
  /\ PAK.with_resource_replaced pak_only_strg 0 strg_resource = Raise IndexError
  /\ PAK.with_resource_replaced_by_asset_ID pak_only_strg 1 strg_resource
     = Raise IndexError.
Proof.
  split; [reflexivity|]. split; [reflexivity|]. split; [reflexivity|].
  exact (with_resource_replaced_only_resource pak_only_strg
           (ResourceTable.mk false (lit "STRG") 1 96 64) strg_resource strg_resource
           eq_refl eq_refl eq_refl).
Defined.

Lemma with_resource_replaced_in_place_witness :
  0 <= 0
  /\ 0 <> PAK.resource_count pak_two_opaque - 1
  /\ PAK.resource_tables pak_two_opaque !! Z.to_nat 0
     = Some (ResourceTable.mk false (lit "TXTR") 17 5 64)
  /\ PAK.resource_tables pak_two_opaque !! S (Z.to_nat 0)
     = Some (ResourceTable.mk false (lit "PART") 18 3 96)
  /\ PAK.resources pak_two_opaque !! Z.to_nat 0
     = Some (opaque [x01; x02; x03; x04; x05])
  /\ PAK.resource_packed_size (opaque (H:=no_external_assets) [x01; x02; x03; x04; x05])
     = Ok 5
  /\ PAK.resource_asset_type strg_resource = Ok (lit "STRG")
  /\ PAK.resource_packed_size strg_resource = Ok 96
  /\ exists q,
       PAK.with_resource_replaced pak_two_opaque 0 strg_resource = Ok q
       /\ PAK.resources q = [strg_resource; opaque [x0a; x0b; x0c]]
       /\ PAK.resource_tables q
          = [ResourceTable.mk false (lit "STRG") 17 96 91;
             ResourceTable.mk false (lit "PART") 18 3 187].
Proof.
  assert (H1 : 0 <= 0) by lia.
  assert (H2 : 0 <> PAK.resource_count pak_two_opaque - 1) by discriminate.
  assert (H3 : PAK.resource_tables pak_two_opaque !! Z.to_nat 0
               = Some (ResourceTable.mk false (lit "TXTR") 17 5 64)) by reflexivity.
  assert (H4 : PAK.resource_tables pak_two_opaque !! S (Z.to_nat 0)
               = Some (ResourceTable.mk false (lit "PART") 18 3 96)) by reflexivity.
  assert (H5 : PAK.resources pak_two_opaque !! Z.to_nat 0
               = Some (opaque [x01; x02; x03; x04; x05])) by reflexivity.
  assert (H6 : PAK.resource_packed_size
                 (opaque (H:=no_external_assets) [x01; x02; x03; x04; x05]) = Ok 5)
    by reflexivity.
  assert (H7 : PAK.resource_asset_type strg_resource = Ok (lit "STRG")) by reflexivity.
  assert (H8 : PAK.resource_packed_size strg_resource = Ok 96)
    by (vm_compute; reflexivity).
  repeat (split; [assumption|]).
  destruct (with_resource_replaced_in_place pak_two_opaque 0 _ _ _ strg_resource 5 96 _
              H1 H2 H3 H4 H5 H6 H7 H8) as (q & Hq & _).
  exists q. split; [exact Hq|].
  vm_compute in Hq. injection Hq as <-. split; reflexivity.
Defined.

(** ** Editing string tables *)

(** X19.  Replacing a string and then putting the old string back gives the
    table back, offsets included. *)
Theorem with_string_replaced_back
    (t : STRGStringTable.t) (index : Z) (old_string new_string : str)
    (old_bytes new_bytes : bytes) :
  0 <= index ->
  STRGStringTable.strings t !! Z.to_nat index = Some old_string ->
  encode_utf16_be old_string = Ok old_bytes ->
  encode_utf16_be new_string = Ok new_bytes ->
  (let* t' := STRGStringTable.with_string_replaced t index new_string in
   STRGStringTable.with_string_replaced t' index old_string) = Ok t.
Proof.
  intros Hi Hold Hob Hnb. apply lookup_lt_Some in Hold as Hlt.
  unfold STRGStringTable.with_string_replaced at 1.
  rewrite Hnb. simpl. rewrite (getitem_lookup _ _ _ Hi Hold). simpl.
  rewrite Hob. simpl.
  rewrite !slice_to_take, !slice_from_drop by lia.
  replace (Z.to_nat (index + 1)) with (S (Z.to_nat index)) by lia.
  set (i := Z.to_nat index) in *. set (d := len new_bytes - len old_bytes).
  unfold STRGStringTable.with_string_replaced. simpl.
  rewrite Hob. simpl.
  assert (Hli : length (take i (STRGStringTable.strings t)) = i)
    by (rewrite length_take; lia).
  rewrite (getitem_lookup _ _ new_string); [|lia|by rewrite list_lookup_middle].
  simpl. rewrite Hnb. simpl.
  rewrite !slice_to_take, !slice_from_drop by lia.
  replace (Z.to_nat (index + 1)) with (S (Z.to_nat index)) by lia. fold i.
  destruct t as [count offsets strings]. simpl in *. f_equal. f_equal.
  - set (os := take (S i) offsets ++ map (fun offset => offset + d) (drop (S i) offsets)).
    assert (Htake : take (S i) os = take (S i) offsets).
    { subst os. destruct (Nat.le_gt_cases (length offsets) (S i)).
      - rewrite (drop_ge offsets), (take_ge offsets) by lia. simpl.
        rewrite app_nil_r. apply take_ge. lia.
      - apply take_app_length'. rewrite length_take. lia. }
    assert (Hdrop : drop (S i) os = map (fun offset => offset + d) (drop (S i) offsets)).
    { subst os. destruct (Nat.le_gt_cases (length offsets) (S i)).
      - rewrite (drop_ge offsets), (take_ge offsets) by lia. simpl.
        rewrite app_nil_r. apply drop_ge. lia.
      - apply drop_app_length'. rewrite length_take. lia. }
    rewrite Htake, Hdrop, map_map.
    rewrite (map_ext _ id) by (intros o; unfold d; simpl; lia).
    by rewrite map_id, take_drop.
  - assert (Hd : drop (S i) (take i strings ++ new_string :: drop (S i) strings)
                 = drop (S i) strings).
    { rewrite cons_middle, app_assoc. apply drop_app_length'.
      rewrite length_app. simpl. lia. }
    rewrite take_app_length', Hd by done.
    by apply take_drop_middle.
Qed.

Lemma with_string_replaced_back_witness :
  let t := STRGStringTable.mk 2 [8; 12] [lit "A"; lit "BC"] in
  0 <= 0
  /\ STRGStringTable.strings t !! Z.to_nat 0 = Some (lit "A")
  /\ encode_utf16_be (lit "A") = Ok [x00; x41]
  /\ encode_utf16_be (lit "xyz") = Ok [x00; x78; x00; x79; x00; x7a]
  /\ (let* t' := STRGStringTable.with_string_replaced t 0 (lit "xyz") in
      STRGStringTable.with_string_replaced t' 0 (lit "A")) = Ok t.
Proof.
  intros t.
  assert (H1 : 0 <= 0) by lia.
  assert (H2 : STRGStringTable.strings t !! Z.to_nat 0 = Some (lit "A")) by reflexivity.
  assert (H3 : encode_utf16_be (lit "A") = Ok [x00; x41]) by (vm_compute; reflexivity).
  assert (H4 : encode_utf16_be (lit "xyz") = Ok [x00; x78; x00; x79; x00; x7a])
    by (vm_compute; reflexivity).
  repeat (split; [assumption|]).
  exact (with_string_replaced_back t 0 (lit "A") (lit "xyz") _ _ H1 H2 H3 H4).
Defined.

(** X20.  A string at an index past the end cannot be replaced: [IndexError]. *)
Theorem with_string_replaced_out_of_range
    (t : STRGStringTable.t) (index : Z) (new_string : str) (new_bytes : bytes) :
  len (STRGStringTable.strings t) <= index ->
  encode_utf16_be new_string = Ok new_bytes ->
  STRGStringTable.with_string_replaced t index new_string = Raise IndexError.
Proof.
  intros Hi Hnb. unfold STRGStringTable.with_string_replaced.
  rewrite Hnb. simpl. by rewrite getitem_out_of_range.
Qed.

Lemma with_string_replaced_out_of_range_witness :
  len (STRGStringTable.strings string_table_ABC) <= 1
  /\ encode_utf16_be (lit "A") = Ok [x00; x41]
  /\ STRGStringTable.with_string_replaced string_table_ABC 1 (lit "A")
     = Raise IndexError.
Proof.
  assert (H1 : len (STRGStringTable.strings string_table_ABC) <= 1)
    by (vm_compute; discriminate).
  assert (H2 : encode_utf16_be (lit "A") = Ok [x00; x41]) by (vm_compute; reflexivity).
  split; [exact H1|]. split; [exact H2|].
  exact (with_string_replaced_out_of_range string_table_ABC 1 (lit "A") _ H1 H2).
Defined.

(** X21.  Replacing the string table of a language sets the size of that
    language's entry to the reported size of the new table and puts the
    new table in its place; the header, the name table, the other string
    tables, the entries before, and the tag and size of every later entry
    stay as they are. *)
Theorem with_string_table_replaced_keeps
    (s : STRG.t) (i : nat) (old : STRGLanguageTable.t)
    (new_string_table : STRGStringTable.t) (n : Z) :
  STRG.language_tables s !! i = Some old ->
  (forall (j : nat) (later : STRGLanguageTable.t),
      (i < j)%nat -> STRG.language_tables s !! j = Some later ->
      STRGLanguageTable.language_ID later <> STRGLanguageTable.language_ID old) ->
  STRGStringTable.packed_size new_string_table = Ok n ->
  exists q,
    STRG.with_string_table_replaced s (STRGLanguageTable.language_ID old)
      new_string_table = Ok q
    /\ (STRG.magic_number q, STRG.version q, STRG.language_count q, STRG.string_count q)
       = (STRG.magic_number s, STRG.version s, STRG.language_count s,
          STRG.string_count s)
    /\ STRG.name_table q = STRG.name_table s
    /\ STRG.string_tables q
       = take i (STRG.string_tables s) ++ new_string_table
         :: drop (S i) (STRG.string_tables s)
    /\ map STRGLanguageTable.language_ID (STRG.language_tables q)
       = map STRGLanguageTable.language_ID (STRG.language_tables s)
    /\ map STRGLanguageTable.strings_size (STRG.language_tables q)
       = <[i := n]> (map STRGLanguageTable.strings_size (STRG.language_tables s))
    /\ STRG.language_tables q !! i
       = Some (STRGLanguageTable.mk (STRGLanguageTable.language_ID old)
                 (STRGLanguageTable.strings_offset old) n)
    /\ take i (STRG.language_tables q) = take i (STRG.language_tables s).
Proof.
  intros Hold Hlast Hn. apply lookup_lt_Some in Hold as Hlt.
  unfold STRG.with_string_table_replaced, STRG._language_ID_to_index_map, dict_getitem.
  rewrite (index_map_last _ _ i old Hold Hlast). simpl.
  rewrite (getitem_lookup _ _ old); [|lia|by rewrite Nat2Z.id]. simpl.
  rewrite Hn. simpl.
  rewrite !slice_to_take, !slice_from_drop by lia.
  replace (Z.to_nat (Z.of_nat i + 1)) with (S i) by lia. rewrite Nat2Z.id.
  eexists. split; [reflexivity|]. simpl.
  set (lts := STRG.language_tables s) in *.
  assert (Hli : length (take i lts) = i) by (rewrite length_take; lia).
  split; [done|]. split; [done|]. split; [done|]. split; [|split; [|split]].
  - rewrite map_app. simpl. rewrite map_map. simpl.
    transitivity (map STRGLanguageTable.language_ID (take i lts ++ old :: drop (S i) lts));
      [by rewrite map_app | by rewrite take_drop_middle].
  - rewrite map_app. simpl. rewrite map_map. simpl.
    rewrite insert_take_drop by (rewrite length_map; lia).
    f_equal; [exact (fmap_take _ _ _)|]. f_equal. exact (fmap_drop _ _ _).
  - by rewrite list_lookup_middle.
  - by rewrite take_app_length'.
Qed.

Lemma with_string_table_replaced_keeps_witness :
  STRG.language_tables strg_two_languages !! 0%nat
  = Some (STRGLanguageTable.mk (lit "ENGL") 0 8)
  /\ (forall (j : nat) (later : STRGLanguageTable.t),
         (0 < j)%nat -> STRG.language_tables strg_two_languages !! j = Some later ->
         STRGLanguageTable.language_ID later <> lit "ENGL")
  /\ STRGStringTable.packed_size string_table_ABC = Ok 12
  /\ exists q,
       STRG.with_string_table_replaced strg_two_languages (lit "ENGL") string_table_ABC
       = Ok q
       /\ STRG.name_table q = STRG.name_table strg_two_languages
       /\ map STRGLanguageTable.strings_size (STRG.language_tables q) = [12; 10].
Proof.
  assert (H1 : STRG.language_tables strg_two_languages !! 0%nat
               = Some (STRGLanguageTable.mk (lit "ENGL") 0 8)) by reflexivity.
  assert (H2 : forall (j : nat) (later : STRGLanguageTable.t),
             (0 < j)%nat -> STRG.language_tables strg_two_languages !! j = Some later ->
             STRGLanguageTable.language_ID later <> lit "ENGL").
  { intros [|[|j]] later Hj; [lia| |]; simpl.
    - intros [= <-]. discriminate.
    - discriminate. }
  assert (H3 : STRGStringTable.packed_size string_table_ABC = Ok 12)
    by (vm_compute; reflexivity).
  split; [exact H1|]. split; [exact H2|]. split; [exact H3|].
  destruct (with_string_table_replaced_keeps strg_two_languages 0 _ string_table_ABC 12
              H1 H2 H3) as (q & Hq & _ & Hnt & _ & _ & Hsz & _).
  exists q. split; [exact Hq|]. split; [exact Hnt|]. rewrite Hsz. reflexivity.
Defined.

(** X22.  A language tag that no entry has raises [KeyError]. *)
Theorem with_string_table_replaced_missing
    (s : STRG.t) (language_ID : str) (new_string_table : STRGStringTable.t) :
  Forall (fun language_table =>
            STRGLanguageTable.language_ID language_table <> language_ID)
    (STRG.language_tables s) ->
  STRG.with_string_table_replaced s language_ID new_string_table = Raise KeyError.
Proof.
  intros Hall%index_map_missing.
  unfold STRG.with_string_table_replaced, STRG._language_ID_to_index_map, dict_getitem.
  by rewrite Hall.
Qed.

Lemma with_string_table_replaced_missing_witness :
  Forall (fun language_table =>
            STRGLanguageTable.language_ID language_table <> lit "JAPN")
    (STRG.language_tables strg_two_languages)
  /\ STRG.with_string_table_replaced strg_two_languages (lit "JAPN") string_table_ABC
     = Raise KeyError.
Proof.
  assert (H1 : Forall (fun language_table =>
                         STRGLanguageTable.language_ID language_table <> lit "JAPN")
                 (STRG.language_tables strg_two_languages))
    by (repeat constructor; discriminate).
  split; [exact H1|].
  exact (with_string_table_replaced_missing strg_two_languages (lit "JAPN")
           string_table_ABC H1).
Defined.

(** ** The record codecs *)

Lemma struct_unpack_wrong_size (f : list fmt) (b : bytes) :
  length b <> calcsize f -> struct_unpack f b = Raise StructError.
Proof.
  intros Hl. unfold struct_unpack.
  by destruct (Nat.eqb_spec (length b) (calcsize f)).
Qed.

Lemma slice_to_short {A} (l : list A) (n : Z) : len l <= n -> slice_to l n = l.
Proof.
  intros Hn. pose proof (len_nonneg l). rewrite slice_to_take by lia.
  apply take_ge. unfold len in *. lia.
Qed.

(** X23.  A resource entry with a tag of four characters encodes to 20 bytes
    that decode to the entry; a buffer of any other length does not decode. *)
Theorem resource_table_codec (t : ResourceTable.t) (b : bytes) :
  (tag_ok (ResourceTable.asset_type t) ->
   ResourceTable.packed t = Ok b ->
   ResourceTable.from_packed b = Ok t /\ len b = 20)
  /\ (len b <> 20 -> ResourceTable.from_packed b = Raise StructError).
Proof.
  split.
  - apply resource_table_roundtrip.
  - intros Hl. unfold ResourceTable.from_packed.
    rewrite struct_unpack_wrong_size; [done|]. unfold len in Hl.
    change (calcsize ResourceTable._struct) with 20%nat. lia.
Qed.

(** X24.  A named entry whose tag has four characters and whose name length is
    the length of its name encodes to [12 + name_length] bytes, and decodes
    from them whatever follows them in the buffer. *)
Theorem named_resource_table_codec (t : NamedResourceTable.t) (b rest : bytes) :
  tag_ok (NamedResourceTable.asset_type t) ->
  NamedResourceTable.name_length t = len (NamedResourceTable.name t) ->
  NamedResourceTable.packed t = Ok b ->
  NamedResourceTable.from_packed (b ++ rest) = Ok t
  /\ len b = 12 + NamedResourceTable.name_length t.
Proof.
  intros Htag Hlen. apply named_resource_table_roundtrip. by split.
Qed.

Lemma named_resource_table_codec_witness :
  let t := NamedResourceTable.mk (lit "STRG") 1 4 (lit "test") in
  tag_ok (NamedResourceTable.asset_type t)
  /\ NamedResourceTable.name_length t = len (NamedResourceTable.name t)
  /\ exists b,
       NamedResourceTable.packed t = Ok b
       /\ NamedResourceTable.from_packed (b ++ [xff; x00]) = Ok t
       /\ len b = 16.
Proof.
  intros t.
  assert (H1 : tag_ok (NamedResourceTable.asset_type t)) by reflexivity.
  assert (H2 : NamedResourceTable.name_length t = len (NamedResourceTable.name t))
    by reflexivity.
  assert (exists b, NamedResourceTable.packed t = Ok b) as [b Hb] by (vm_compute; eauto).
  split; [exact H1|]. split; [exact H2|]. exists b. split; [exact Hb|].
  exact (named_resource_table_codec t b [xff; x00] H1 H2 Hb).
Defined.

(** X25.  The fixed-size records of a STRG: a language entry with a tag of four
    characters encodes to 12 bytes, a name entry to 8, and both decode from
    their encoding; buffers of another length do not decode. *)
Theorem strg_record_codecs :
  (forall (t : STRGLanguageTable.t) (b : bytes),
      tag_ok (STRGLanguageTable.language_ID t) ->
      STRGLanguageTable.packed t = Ok b ->
      STRGLanguageTable.from_packed b = Ok t /\ len b = 12)
  /\ (forall b : bytes,
         len b <> 12 -> STRGLanguageTable.from_packed b = Raise StructError)
  /\ (forall (e : STRGNameEntry.t) (b : bytes),
         STRGNameEntry.packed e = Ok b ->
         STRGNameEntry.from_packed b = Ok e /\ len b = 8)
  /\ (forall b : bytes,
         len b <> 8 -> STRGNameEntry.from_packed b = Raise StructError).
Proof.
  split; [apply language_table_roundtrip|]. split.
  { intros b Hl. unfold STRGLanguageTable.from_packed.
    rewrite struct_unpack_wrong_size; [done|]. unfold len in Hl.
    change (calcsize STRGLanguageTable._struct) with 12%nat. lia. }
  split; [apply name_entry_roundtrip|].
  intros b Hl. unfold STRGNameEntry.from_packed.
  rewrite struct_unpack_wrong_size; [done|]. unfold len in Hl.
  change (calcsize STRGNameEntry._struct) with 8%nat. lia.
Qed.

(** X26.  A well-formed name table decodes from its encoding, whatever follows
    it in the buffer, and its encoding has [8 + size] bytes. *)
Theorem name_table_codec (t : STRGNameTable.t) (b rest : bytes) :
  wf_name_table t ->
  STRGNameTable.packed t = Ok b ->
  STRGNameTable.from_packed (b ++ rest) = Ok t
  /\ len b = 8 + STRGNameTable.size t.
Proof. intros Hwf Hb. by apply name_table_roundtrip. Qed.

Lemma name_table_codec_witness :
  let t := STRGNameTable.mk 2 26 [STRGNameEntry.mk 16 7; STRGNameEntry.mk 22 3]
             [lit "hello"; lit "bye"] in
  wf_name_table t
  /\ exists b,
       STRGNameTable.packed t = Ok b
       /\ STRGNameTable.from_packed (b ++ [x01; x02]) = Ok t
       /\ len b = 34.
Proof.
  intros t.
  assert (H1 : wf_name_table t).
  { split; [reflexivity|]. split; [reflexivity|]. split.
    - apply (bool_decide_unpack _). vm_compute. exact I.
    - split; reflexivity. }
  assert (exists b, STRGNameTable.packed t = Ok b) as [b Hb] by (vm_compute; eauto).
  split; [exact H1|]. exists b. split; [exact Hb|].
  exact (name_table_codec t b [x01; x02] H1 Hb).
Defined.

Section Truncated.
Context `{ExternalAssets}.

(** X27.  The decoders raise [struct.error] on a buffer that ends inside their
    fixed header, the empty buffer included. *)
Theorem from_packed_truncated (b : bytes) :
  (len b < 12 -> PAK.from_packed b = Raise StructError)
  /\ (len b < 16 -> STRG.from_packed b = Raise StructError)
  /\ (len b < 8 -> STRGNameTable.from_packed b = Raise StructError)
  /\ (len b < 12 -> NamedResourceTable.from_packed b = Raise StructError)
  /\ (forall string_count : Z,
         len b < 4 * string_count ->
         STRGStringTable.from_packed b string_count = Raise StructError).
Proof.
  pose proof (len_nonneg b) as Hnn.
  split; [|split; [|split; [|split]]].
  - intros Hl. unfold PAK.from_packed. rewrite slice_to_short by lia.
    rewrite struct_unpack_wrong_size; [done|].
    change (calcsize PAK._struct) with 12%nat. unfold len in Hl. lia.
  - intros Hl. unfold STRG.from_packed. rewrite slice_to_short by lia.
    rewrite struct_unpack_wrong_size; [done|].
    change (calcsize STRG._struct) with 16%nat. unfold len in Hl. lia.
  - intros Hl. unfold STRGNameTable.from_packed. rewrite slice_to_short by lia.
    rewrite struct_unpack_wrong_size; [done|].
    change (calcsize STRGNameTable._struct) with 8%nat. unfold len in Hl. lia.
  - intros Hl. unfold NamedResourceTable.from_packed. rewrite slice_to_short by lia.
    rewrite struct_unpack_wrong_size; [done|].
    change (calcsize NamedResourceTable._struct) with 12%nat. unfold len in Hl. lia.
  - intros n Hl. unfold STRGStringTable.from_packed, counted_u32.
    destruct (Z.ltb_spec n 0); [done|]. simpl.
    rewrite slice_to_short by lia.
    rewrite struct_unpack_wrong_size; [done|].
    rewrite calcsize_counted. unfold len in Hl. lia.
Qed.
End Truncated.

(** ** Decoding succeeds on plain strings *)

Lemma encode_plain (s : str) (e : bytes) :
  encode_utf16_be s = Ok e -> Forall low_byte_nonzero s ->
  exists us, e = concat (map unit_bytes us)
             /\ Forall (fun u => byte_of_Z u <> x00) us.
Proof.
  unfold encode_utf16_be. intros (uss & Huss & [= <-])%bind_Ok Hs.
  exists (concat uss). split; [done|]. revert uss Huss.
  induction Hs as [|c s [Hc Hlow] _ IH]; intros uss; simpl.
  - intros [= <-]. constructor.
  - intros (us & Hus & (r & Hr & [= <-])%bind_Ok)%bind_Ok. simpl.
    apply Forall_app. split; [|by apply IH].
    assert (Hcu : us = [c]).
    { unfold utf16_units in Hus.
      destruct ((0 <=? c) && (c <? 55296)); [by injection Hus|].
      destruct ((57344 <=? c) && (c <? 65536)); [by injection Hus|].
      destruct (Z.leb_spec 65536 c); [lia|]. simpl in Hus. discriminate. }
    subst us. constructor; [|constructor]. by rewrite byte_of_Z_zero.
Qed.

Lemma bytes_index_terminator (us : list Z) (rest : bytes) :
  Forall (fun u => byte_of_Z u <> x00) us ->
  bytes_index [x00; x00] (concat (map unit_bytes us) ++ x00 :: x00 :: rest)
  = Ok (len (concat (map unit_bytes us))).
Proof.
  induction 1 as [|u us Hu _ IH]; [done|].
  cbn [map concat unit_bytes app]. 
  assert (Hlo : Byte.eqb x00 (byte_of_Z u) = false).
  { destruct (Byte.eqb x00 (byte_of_Z u)) eqn:E; [|done].
    apply Byte.byte_dec_bl in E. by symmetry in E. }
  cbn [bytes_index starts_with]. rewrite Hlo, andb_false_r. cbn [andb].
  rewrite IH. simpl. f_equal. unfold len. simpl length. lia.
Qed.

Lemma read_string_plain (s : str) (e pre post : bytes) (o : Z) :
  encode_utf16_be s = Ok e -> Forall low_byte_nonzero s -> o = len pre ->
  STRGStringTable.read_string (pre ++ e ++ x00 :: x00 :: post) o = Ok s.
Proof.
  intros He Hs Ho. pose proof (decode_encode_utf16_be _ _ He) as Hd.
  destruct (encode_plain _ _ He Hs) as (us & -> & Hus).
  set (e := concat (map unit_bytes us)) in *.
  unfold STRGStringTable.read_string. rewrite slice_from_app by done.
  pose proof (bytes_index_terminator us post Hus) as Hk. fold e in Hk.
  rewrite Hk. simpl.
  pose proof (len_nonneg e). destruct (Z.ltb_spec (len e) 0); [lia|]. simpl.
  replace (pre ++ e ++ x00 :: x00 :: post) with (pre ++ (e ++ [x00; x00]) ++ post)
    by (by rewrite <- !app_assoc).
  rewrite slice_app by len_lia.
  unfold struct_unpack.
  assert (Hsz : (length (e ++ [x00; x00])
                 =? calcsize [chars (Z.to_nat (len e)); pad; pad])%nat = true).
  { apply Nat.eqb_eq. rewrite length_app. unfold calcsize, len. simpl. lia. }
  rewrite Hsz. simpl. unfold len at 1. by rewrite Nat2Z.id, take_app_length.
Qed.

Lemma string_table_decodes (n : Z) (t : STRGStringTable.t) (b : bytes) :
  wf_string_table n t ->
  Forall (Forall low_byte_nonzero) (STRGStringTable.strings t) ->
  STRGStringTable.packed t = Ok b ->
  STRGStringTable.from_packed b n = Ok t.
Proof.
  intros Hwf Hplain Hb.
  assert (exists t', STRGStringTable.from_packed b n = Ok t') as [t' Ht'];
    [|by rewrite Ht', (string_table_roundtrip n t t' b Hwf Hb Ht')].
  destruct Hwf as (Hn & Hlo & Hls & Hnz & encodings & Henc & Hoff). revert Hb.
  unfold STRGStringTable.packed, STRGStringTable.from_packed. subst n.
  intros (f & Hf & (header & Hh & (ss & Hss & [= <-])%bind_Ok)%bind_Ok)%bind_Ok.
  rewrite Hf. simpl. unfold counted_u32 in Hf.
  destruct (Z.ltb_spec (STRGStringTable.count t) 0); [discriminate|].
  injection Hf as <-.
  replace (Z.to_nat (STRGStringTable.count t))
    with (length (STRGStringTable.offsets t)) in * by (unfold len in Hlo; lia).
  assert (Hhl : len header = 4 * STRGStringTable.count t).
  { unfold len. rewrite (struct_pack_length _ _ _ Hh), calcsize_counted.
    unfold len in Hlo. lia. }
  rewrite slice_to_app by lia.
  rewrite (struct_unpack_pack _ _ _ Hh) by apply exact_values_counted. simpl.
  rewrite traverse_VInt. simpl.
  rewrite traverse_emitted in Hss. fold (sorted (zip (STRGStringTable.offsets t)
                                                   (STRGStringTable.strings t))) in Hss.
  rewrite Henc in Hss. simpl in Hss. injection Hss as <-.
  assert (Hread : traverse
                    (STRGStringTable.read_string
                       (header ++ concat (map (fun e => e ++ [x00; x00]) encodings)))
                    (STRGStringTable.offsets t) = Ok (STRGStringTable.strings t)).
  { apply traverse_Ok. apply Forall2_same_length_lookup_2; [unfold len in *; lia|].
    intros i o s Ho Hs.
    assert (Hin : (o, s) ∈ sorted (zip (STRGStringTable.offsets t)
                                     (STRGStringTable.strings t))).
    { unfold sorted. rewrite merge_sort_Permutation.
      apply (list_elem_of_lookup_2 _ i). apply lookup_zip_with_Some. eauto. }
    destruct (emitted_chunk _ _ _ Henc Hoff o s Hin) as (e & pre & post & He & Hc & Hpre).
    rewrite Hc, app_assoc.
    apply read_string_plain; [done| |rewrite len_app; lia].
    exact (Forall_lookup_1 _ _ _ _ Hplain Hs). }
  rewrite Hread. simpl. eauto.
Qed.

(** A well-formed STRG with plain strings decodes from its encoding. *)
Lemma strg_decodes (s : STRG.t) (b : bytes) :
  wf_STRG s -> plain_strings s -> STRG.packed s = Ok b -> STRG.from_packed b = Ok s.
Proof.
  intros Hwf Hplain Hb.
  assert (exists s', STRG.from_packed b = Ok s') as [s' Hs'];
    [|by rewrite Hs', (strg_roundtrip s s' b Hwf Hb Hs')].
  destruct Hwf as (Hlc & Htags & Hnt & Hst & Hsizes & Hoffs). revert Hb.
  unfold STRG.packed.
  intros (header & Hh & (ls & Hls & (nb & Hnb & (ss & Hss & (p & _ & [= <-])%bind_Ok)
            %bind_Ok)%bind_Ok)%bind_Ok)%bind_Ok.
  set (padding := replicate (Z.to_nat p) xff).
  assert (Hhl : len header = 16) by packed_len Hh.
  unfold STRG.from_packed. rewrite slice_to_app by done.
  rewrite (struct_unpack_pack _ _ _ Hh); [|done]. simpl.
  replace (Z.to_nat (STRG.language_count s)) with (length (STRG.language_tables s))
    by (unfold len in Hlc; lia).
  rewrite (read_language_tables_packed _ _ Htags Hls header) by done. simpl.
  rewrite (app_assoc header (concat ls)).
  rewrite slice_from_app by (rewrite len_app; lia).
  destruct (name_table_roundtrip _ _ (concat ss ++ padding) Hnt Hnb) as [-> Hnl]. simpl.
  apply traverse_Ok in Hss.
  assert (Hlens : map STRGLanguageTable.strings_size (STRG.language_tables s)
                  = map len ss).
  { clear -Hsizes Hss. revert ss Hss.
    induction Hsizes as [|lt st lts sts Hsize _ IH]; intros ss Hss.
    - by inversion Hss.
    - inversion Hss as [|? sb ? ss' Hsb Hss']; subst. simpl.
      unfold STRGStringTable.packed_size in Hsize. rewrite Hsb in Hsize.
      injection Hsize as <-. f_equal. by apply IH. }
  rewrite Hlens in Hoffs.
  match goal with
  | |- context [traverse ?f (STRG.language_tables s)] =>
      assert (Hread : traverse f (STRG.language_tables s) = Ok (STRG.string_tables s))
  end.
  { apply traverse_Ok. apply Forall2_same_length_lookup_2; [by eapply Forall2_length|].
    intros i lt st Hlt Hsti.
    destruct (Forall2_lookup_l _ _ _ _ _ Hss Hsti) as (sb & Hsb & Hpacked).
    assert (Hlen : STRGLanguageTable.strings_size lt = len sb).
    { pose proof (Forall2_lookup_lr _ _ _ _ _ _ Hsizes Hlt Hsti) as Hsize.
      unfold STRGStringTable.packed_size in Hsize. simpl in Hsize.
      rewrite Hpacked in Hsize. by injection Hsize. }
    destruct (chunks_at ss _ 0 Hoffs i (STRGLanguageTable.strings_offset lt) sb)
      as (pre & post & Hc & Ho); [by rewrite lookup_map, Hlt | done |].
    rewrite Hc.
    replace ((header ++ concat ls) ++ nb ++ (pre ++ sb ++ post) ++ padding)
      with ((header ++ concat ls ++ nb ++ pre) ++ sb ++ (post ++ padding))
      by (by rewrite <- !app_assoc).
    rewrite slice_app by (rewrite ?len_app in *; lia).
    apply string_table_decodes; [|exact (Forall_lookup_1 _ _ _ _ Hplain Hsti)|done].
    exact (Forall_lookup_1 _ _ _ _ Hst Hsti). }
  rewrite Hread. simpl. eauto.
Qed.

Section PAKDecodes.
Context `{ExternalAssets}.

Lemma resource_decodes (rt : ResourceTable.t) (r : PAK.resource) (payload : bytes) :
  wf_resource rt r -> decodable_resource rt r ->
  PAK.resource_packed r = Ok payload ->
  PAK.resource_from_packed (PAK.asset_class_of rt) payload = Ok r.
Proof.
  intros (_ & _ & Hclass) Hdec Hp. destruct r as [[data]|s|x]; simpl in Hp, Hdec.
  - rewrite Hclass. simpl. by injection Hp as <-.
  - destruct Hclass as [-> Hwf]. simpl. by rewrite (strg_decodes s payload Hwf Hdec Hp).
  - destruct Hclass as (Hc1 & Hc2 & _). specialize (Hdec payload Hp).
    destruct (PAK.asset_class_of rt) eqn:Hc; try done; simpl; by rewrite Hdec.
Qed.

Lemma pak_decodes (p : PAK.t) (b : bytes) :
  wf_PAK p ->
  Forall2 decodable_resource (PAK.resource_tables p) (PAK.resources p) ->
  PAK.packed p = Ok b -> PAK.from_packed b = Ok p.
Proof.
  intros (Hnc & Hnwf & Hrc & Hrwf & c' & Hc' & Hoffs) Hdec Hb.
  destruct (pak_packed_Ok p b Hb)
    as (header & ns & count & ts & payloads & c & Hh & Hns & Hcount & Hts & Hpay
        & Hc & Hclen & ->).
  rewrite Hc in Hc'. injection Hc' as <-.
  set (padding := replicate (Z.to_nat (padding_size c)) x00) in *.
  set (chunks := map aligned_to_32_bytes payloads) in *.
  assert (Hhl : len header = 12) by packed_len Hh.
  assert (Hcl : len count = 4) by packed_len Hcount.
  assert (Htags : Forall (fun t => tag_ok (ResourceTable.asset_type t))
                    (PAK.resource_tables p)).
  { clear -Hrwf. induction Hrwf as [|rt r rts rs [Htag _] _ IH]; by constructor. }
  unfold PAK.from_packed. rewrite slice_to_app by done.
  rewrite (struct_unpack_pack _ _ _ Hh); [|done]. simpl.
  replace (Z.to_nat (PAK.named_resource_count p))
    with (length (PAK.named_resource_tables p)) by (unfold len in Hnc; lia).
  rewrite (read_named_resource_tables_packed _ _ Hnwf Hns header) by done. simpl.
  replace (header ++ concat ns ++ count ++ concat ts ++ padding ++ concat chunks)
    with ((header ++ concat ns) ++ count ++ (concat ts ++ padding ++ concat chunks))
    by (by rewrite <- !app_assoc).
  rewrite slice_app by (rewrite ?len_app; lia).
  rewrite (unpack_pack_int _ _ Hcount). simpl.
  replace (Z.to_nat (PAK.resource_count p))
    with (length (PAK.resource_tables p)) by (unfold len in Hrc; lia).
  replace ((header ++ concat ns) ++ count ++ (concat ts ++ padding ++ concat chunks))
    with ((header ++ concat ns ++ count) ++ concat ts ++ (padding ++ concat chunks))
    by (by rewrite <- !app_assoc).
  rewrite (read_resource_tables_packed _ _ Htags Hts) by (rewrite !len_app; lia).
  simpl.
  assert (Hlens : map (fun resource_table =>
                         ResourceTable.size resource_table
                         + padding_size (ResourceTable.size resource_table))
                    (PAK.resource_tables p) = map len chunks).
  { apply traverse_Ok in Hpay. clear -Hrwf Hpay. subst chunks. revert payloads Hpay.
    induction Hrwf as [|rt r rts rs (_ & (pl & Hpl & Hsz) & _) _ IH];
      intros payloads Hpay.
    - by inversion Hpay.
    - inversion Hpay as [|? pl' ? pls Hpl' Hpls]; subst. simpl.
      rewrite Hpl in Hpl'. injection Hpl' as <-. f_equal; [|by apply IH].
      unfold aligned_to_32_bytes. rewrite len_app, Hsz. unfold padding_size, len.
      rewrite length_replicate.
      pose proof (Z.mod_pos_bound (32 - Z.of_nat (length pl) mod 32) 32 ltac:(lia)).
      lia. }
  rewrite Hlens in Hoffs.
  match goal with
  | |- context [traverse ?f (PAK.resource_tables p)] =>
      assert (Hread : traverse f (PAK.resource_tables p) = Ok (PAK.resources p))
  end.
  { apply traverse_Ok. apply traverse_Ok in Hpay.
    apply Forall2_same_length_lookup_2; [by eapply Forall2_length|].
    intros i rt r Hrt Hr.
    pose proof (Forall2_lookup_lr _ _ _ _ _ _ Hrwf Hrt Hr) as Hwf.
    pose proof (Forall2_lookup_lr _ _ _ _ _ _ Hdec Hrt Hr) as Hd.
    destruct (Forall2_lookup_l _ _ _ _ _ Hpay Hr) as (payload & Hpl & Hpacked).
    simpl in Hpacked.
    assert (Hsize : ResourceTable.size rt = len payload).
    { destruct Hwf as (_ & (payload' & Hp' & Hsz) & _). congruence. }
    destruct (chunks_at chunks _ _ Hoffs i (ResourceTable.offset rt)
                (aligned_to_32_bytes payload))
      as (pre & post & Hchunk & Ho).
    { by rewrite lookup_map, Hrt. }
    { subst chunks. by rewrite lookup_map, Hpl. }
    unfold PAK.read_resource. rewrite Hchunk.
    unfold aligned_to_32_bytes.
    set (filler := replicate _ xff).
    replace ((header ++ concat ns ++ count) ++ concat ts
             ++ padding ++ pre ++ (payload ++ filler) ++ post)
      with ((header ++ concat ns ++ count ++ concat ts ++ padding ++ pre)
            ++ payload ++ (filler ++ post))
      by (by rewrite <- !app_assoc).
    rewrite slice_app.
    - by apply resource_decodes.
    - rewrite Ho. subst padding.
      rewrite !len_app, len_replicate by apply padding_size_nonneg.
      rewrite !len_app in Hclen. lia.
    - lia. }
  rewrite Hread. simpl. by destruct p.
Qed.
End PAKDecodes.

(** ** Decoding returns the encoded value *)

Lemma plain_strg_two_languages : plain_strings strg_two_languages.
Proof. repeat constructor; cbv; discriminate. Qed.

(** X28.  Decoding the encoding of a well-formed STRG whose strings are plain
    succeeds and returns that STRG. *)
Theorem strg_from_packed_packed (s : STRG.t) (b : bytes) :
  wf_STRG s -> plain_strings s -> STRG.packed s = Ok b -> STRG.from_packed b = Ok s.
Proof. apply strg_decodes. Qed.

Lemma strg_from_packed_packed_witness :
  wf_STRG strg_two_languages
  /\ plain_strings strg_two_languages
  /\ exists b, STRG.packed strg_two_languages = Ok b
               /\ STRG.from_packed b = Ok strg_two_languages.
Proof.
  split; [exact wf_strg_two_languages|]. split; [exact plain_strg_two_languages|].
  assert (exists b, STRG.packed strg_two_languages = Ok b) as [b Hb]
    by (vm_compute; eauto).
  exists b. split; [exact Hb|].
  exact (strg_from_packed_packed strg_two_languages b wf_strg_two_languages
           plain_strg_two_languages Hb).
Defined.

(** X29.  Decoding the encoding of a well-formed PAK whose resources are
    decodable succeeds and returns that PAK. *)
Theorem pak_from_packed_packed `{ExternalAssets} (p : PAK.t) (b : bytes) :
  wf_PAK p ->
  Forall2 decodable_resource (PAK.resource_tables p) (PAK.resources p) ->
  PAK.packed p = Ok b -> PAK.from_packed b = Ok p.
Proof. apply pak_decodes. Qed.

Lemma pak_from_packed_packed_witness :
  wf_PAK pak_with_strg
  /\ Forall2 decodable_resource (PAK.resource_tables pak_with_strg)
       (PAK.resources pak_with_strg)
  /\ exists b, PAK.packed pak_with_strg = Ok b
               /\ PAK.from_packed b = Ok pak_with_strg.
Proof.
  assert (Hdec : Forall2 decodable_resource (PAK.resource_tables pak_with_strg)
                   (PAK.resources pak_with_strg)).
  { constructor; [exact plain_strg_two_languages|].
    constructor; [exact I|]. constructor. }
  split; [exact wf_pak_with_strg|]. split; [exact Hdec|].
  assert (exists b, PAK.packed pak_with_strg = Ok b) as [b Hb]
    by (vm_compute; eauto).
  exists b. split; [exact Hb|].
  exact (pak_from_packed_packed pak_with_strg b wf_pak_with_strg Hdec Hb).
Defined.

(** ** Instances of the conditional parts *)

Lemma get_resource_by_asset_ID_errors_witness :
  len (PAK.resource_tables pak_two_opaque) <= len (PAK.resources pak_two_opaque)
  /\ PAK.get_resource_by_asset_ID pak_two_opaque 0 <> Raise IndexError.
Proof.
  assert (Hl : len (PAK.resource_tables pak_two_opaque)
               <= len (PAK.resources pak_two_opaque)) by (vm_compute; discriminate).
  split; [exact Hl|].
  exact (proj2 (get_resource_by_asset_ID_errors pak_two_opaque 0) Hl).
Defined.

Lemma resource_table_codec_witness :
  tag_ok (lit "TXTR")
  /\ exists b,
       ResourceTable.packed (ResourceTable.mk false (lit "TXTR") 7 64 128) = Ok b
       /\ ResourceTable.from_packed b = Ok (ResourceTable.mk false (lit "TXTR") 7 64 128)
       /\ len b = 20
       /\ len (b ++ [x00]) <> 20
       /\ ResourceTable.from_packed (b ++ [x00]) = Raise StructError.
Proof.
  assert (Ht : tag_ok (ResourceTable.asset_type
                         (ResourceTable.mk false (lit "TXTR") 7 64 128)))
    by reflexivity.
  assert (exists b, ResourceTable.packed (ResourceTable.mk false (lit "TXTR") 7 64 128)
                    = Ok b) as [b Hb] by (vm_compute; eauto).
  split; [exact Ht|]. exists b. split; [exact Hb|].
  destruct (proj1 (resource_table_codec _ b) Ht Hb) as [Hd Hl].
  split; [exact Hd|]. split; [exact Hl|].
  assert (Hl' : len (b ++ [x00]) <> 20) by (rewrite len_app, Hl; vm_compute; discriminate).
  split; [exact Hl'|].
  exact (proj2 (resource_table_codec (ResourceTable.mk false (lit "TXTR") 7 64 128)
                  (b ++ [x00])) Hl').
Defined.

Lemma strg_record_codecs_witness :
  tag_ok (lit "ENGL")
  /\ (exists b, STRGLanguageTable.packed (STRGLanguageTable.mk (lit "ENGL") 0 40) = Ok b
                /\ STRGLanguageTable.from_packed b
                   = Ok (STRGLanguageTable.mk (lit "ENGL") 0 40)
                /\ len b = 12)
  /\ STRGLanguageTable.from_packed [x00] = Raise StructError
  /\ (exists b, STRGNameEntry.packed (STRGNameEntry.mk 16 3) = Ok b
                /\ STRGNameEntry.from_packed b = Ok (STRGNameEntry.mk 16 3)
                /\ len b = 8)
  /\ STRGNameEntry.from_packed [x00] = Raise StructError.
Proof.
  destruct strg_record_codecs as (Hl & Hlx & He & Hex).
  assert (Ht : tag_ok (STRGLanguageTable.language_ID
                         (STRGLanguageTable.mk (lit "ENGL") 0 40))) by reflexivity.
  assert (exists b, STRGLanguageTable.packed (STRGLanguageTable.mk (lit "ENGL") 0 40)
                    = Ok b) as [bl Hbl] by (vm_compute; eauto).
  assert (exists b, STRGNameEntry.packed (STRGNameEntry.mk 16 3) = Ok b) as [be Hbe]
    by (vm_compute; eauto).
  assert (H12 : len [x00] <> 12) by (vm_compute; discriminate).
  assert (H8 : len [x00] <> 8) by (vm_compute; discriminate).
  split; [exact Ht|].
  split; [exists bl; split; [exact Hbl | exact (Hl _ bl Ht Hbl)]|].
  split; [exact (Hlx [x00] H12)|].
  split; [exists be; split; [exact Hbe | exact (He _ be Hbe)]|].
  exact (Hex [x00] H8).
Defined.

Lemma from_packed_truncated_witness :
  len [x00; x03; x00] < 8
  /\ @PAK.from_packed no_external_assets [x00; x03; x00] = Raise StructError
  /\ STRG.from_packed [x00; x03; x00] = Raise StructError
  /\ STRGNameTable.from_packed [x00; x03; x00] = Raise StructError
  /\ NamedResourceTable.from_packed [x00; x03; x00] = Raise StructError
  /\ STRGStringTable.from_packed [x00; x03; x00] 2 = Raise StructError.
Proof.
  assert (H8 : len [x00; x03; x00] < 8) by (vm_compute; reflexivity).
  assert (H12 : len [x00; x03; x00] < 12) by (vm_compute; reflexivity).
  assert (H16 : len [x00; x03; x00] < 16) by (vm_compute; reflexivity).
  assert (H42 : len [x00; x03; x00] < 4 * 2) by (vm_compute; reflexivity).
  destruct (@from_packed_truncated no_external_assets [x00; x03; x00])
    as (Hp & Hs & Hn & Hr & Ht).
  split; [exact H8|]. split; [exact (Hp H12)|]. split; [exact (Hs H16)|].
  split; [exact (Hn H8)|]. split; [exact (Hr H12)|]. exact (Ht 2 H42).
Defined.
